(** * Dataset generation orchestrator of the LoRA photo generator

    A shallow embedding of [src/App.tsx] (profile resolver, prompt
    composer, batch loop [startDatasetMode], [stopGeneration]) and of
    [src/services/geminiService.ts] ([generateCharacterImage]), with the
    types of [types.ts].

    Conventions of the embedding.
    - A JavaScript string is a [string] of bytes.  [toLowerCase],
      [trim] and the [/i] and [\s] of the one regular expression act on
      the ASCII range, which is where every keyword the code looks for
      lives.  For the code U+00A0 and other characters outside ASCII
      are white space too: where a statement turns on what is white
      space, it is made for ASCII text.
    - React state is a record; a functional updater [setX(prev => ...)]
      is applied to the current value of the field.  The mutable ref
      [isAbortedRef] is a boolean field.
    - [await] is the only suspension point of the batch loop; the
      outcome of the provider call, the clock and the random draws come
      from the environment as parameters of the events.
    - There are two machines.  [step] is a batch on its own, one loop
      at a time.  [act] is the page with every loop that is alive and
      every button that writes the task: there Generate starts a
      second loop over a call in flight, as the code lets it.
    - An error carries a string message (they are [Error] objects).
    - The tables of [constants.ts] are parameters; the pose catalog is
      taken with pairwise distinct ids where a statement needs it. *)

From Stdlib Require Import String Ascii List Bool Arith NArith Lia.
From stdpp Require Import base decidable countable gmap sets strings pretty.
Import ListNotations.

Local Open Scope string_scope.
Local Open Scope list_scope.

(** ** JavaScript string primitives *)

Module Js.

(** [c.toLowerCase()] on one ASCII character. *)
Definition lower_ascii (c : ascii) : ascii :=
  let n := nat_of_ascii c in
  if (65 <=? n)%nat && (n <=? 90)%nat then ascii_of_nat (n + 32) else c.

(** [s.toLowerCase()]. *)
Fixpoint toLowerCase (s : string) : string :=
  match s with
  | EmptyString => EmptyString
  | String c s' => String (lower_ascii c) (toLowerCase s')
  end.

(** [s.startsWith(w)]. *)
Fixpoint startsWith (s w : string) : bool :=
  match w, s with
  | EmptyString, _ => true
  | String _ _, EmptyString => false
  | String a w', String b s' => if Ascii.eqb a b then startsWith s' w' else false
  end.

(** [s.includes(w)]. *)
Fixpoint includes (s w : string) : bool :=
  if startsWith s w then true
  else match s with
       | EmptyString => false
       | String _ s' => includes s' w
       end.

(** [s.split(sep)] for a one-character separator: never empty,
    [''.split('.')] is [['']]. *)
Fixpoint split (sep : ascii) (s : string) : list string :=
  match s with
  | EmptyString => [EmptyString]
  | String c s' =>
      if Ascii.eqb c sep then EmptyString :: split sep s'
      else match split sep s' with
           | [] => [String c EmptyString]
           | f :: fs => String c f :: fs
           end
  end.

(** [l.join(sep)]. *)
Fixpoint join (sep : string) (l : list string) : string :=
  match l with
  | [] => EmptyString
  | [f] => f
  | f :: fs => f +:+ sep +:+ join sep fs
  end.

(** White space of [trim] and of [\s], ASCII part: TAB, LF, VT, FF, CR,
    space. *)
Definition is_space (c : ascii) : bool :=
  let n := nat_of_ascii c in
  ((9 <=? n)%nat && (n <=? 13)%nat) || (n =? 32)%nat.

Fixpoint trimStart (s : string) : string :=
  match s with
  | EmptyString => EmptyString
  | String c s' => if is_space c then trimStart s' else s
  end.

(** Drops trailing white space: the result of a suffix that is all
    white space is empty. *)
Fixpoint trimEnd (s : string) : string :=
  match s with
  | EmptyString => EmptyString
  | String c s' =>
      match trimEnd s' with
      | EmptyString => if is_space c then EmptyString else String c EmptyString
      | t => String c t
      end
  end.

(** [s.trim()]. *)
Definition trim (s : string) : string := trimEnd (trimStart s).

(** Truthiness of a string: [''] is falsy. *)
Definition truthy (s : string) : bool :=
  match s with EmptyString => false | _ => true end.

(** Truthiness of [string | null]. *)
Definition truthy_opt (o : option string) : bool :=
  match o with Some s => truthy s | None => false end.

End Js.

(** ** Data model ([types.ts] and the declarations of [App.tsx]) *)

Inductive DatasetGroup := portrait | upper | full.

Definition DatasetGroup_eqb (a b : DatasetGroup) : bool :=
  match a, b with
  | portrait, portrait | upper, upper | full, full => true
  | _, _ => false
  end.

(** The string a group is written as ([group: pose.group]). *)
Definition group_name (g : DatasetGroup) : string :=
  match g with portrait => "portrait" | upper => "upper" | full => "full" end.

Record DatasetPose := {
  pose_id : string;
  pose_label : string;
  pose_group : DatasetGroup;
  pose_description : string
}.

Inductive Resolution := R1K | R2K | R4K.

Inductive AspectRatio := AR_1_1 | AR_3_4 | AR_4_3 | AR_9_16 | AR_16_9.

Record GeneratedImage := {
  img_id : string;
  img_url : string;
  img_prompt : string;
  img_timestamp : N;
  img_group : option string
}.

Record CharacterAdjustments := {
  eyeColor : string;
  bodyBuild : string;
  chestSize : string;
  hipSize : string
}.

Inductive Status := pending | generating | completed | failed | stopped.

Record GenerationTask := {
  status : Status;
  total : nat;
  current : nat;
  images : list GeneratedImage;
  error : option string
}.

Record FailedAsset := {
  fa_id : string;
  fa_label : string;
  fa_message : string;
  fa_prompt : string;
  fa_timestamp : N
}.

Inductive ProfileMode := auto | manual.

(** The state the batch run only reads. *)
Record Settings := {
  userApiKey : string;
  sourceImage : option string;
  profileMode : ProfileMode;
  characterProfile : option string;
  manualCharacterProfile : string;
  resolution : Resolution;
  isBodyLocked : bool;
  isHairLocked : bool;
  adjustments : CharacterAdjustments
}.

(** The state the batch run and [stopGeneration] write, with the
    settings. *)
Record App := {
  settings : Settings;
  isKeyConfirmed : bool;
  selectedPoseIds : gset string;
  gallery : list GeneratedImage;
  failedAssets : list FailedAsset;
  task : GenerationTask;
  isAbortedRef : bool
}.

(** ** Profile resolver *)

Definition getActiveProfile (cfg : Settings) : option string :=
  match profileMode cfg with
  | auto => characterProfile cfg
  | manual =>
      let t := Js.trim (manualCharacterProfile cfg) in
      if Js.truthy t then Some t else None
  end.

Definition isProfileReady (cfg : Settings) : bool :=
  match profileMode cfg with
  | auto => Js.truthy_opt (characterProfile cfg)
  | manual => (0 <? String.length (Js.trim (manualCharacterProfile cfg)))%nat
  end.

(** ** Prompt composer *)

(** The regular expression [/HAIR:\s*([^.]+)/i] of
    [getLockedIdentityMod]. *)
Module HairRegex.

(** The longest prefix without a full stop: what [[^.]+] can cover. *)
Fixpoint run (s : string) : string :=
  match s with
  | EmptyString => EmptyString
  | String c s' => if Ascii.eqb c "." then EmptyString else String c (run s')
  end.

Fixpoint last_char (s : string) : string :=
  match s with
  | EmptyString => EmptyString
  | String c EmptyString => s
  | String _ s' => last_char s'
  end.

(** Group 1 when the marker ends right before [rest]: [\s*] is greedy,
    and gives its last character back when nothing else is left for
    [[^.]+]; an empty run fails. *)
Definition capture (rest : string) : option string :=
  let r := run rest in
  match r with
  | EmptyString => None
  | _ => match Js.trimStart r with
         | EmptyString => Some (last_char r)
         | t => Some t
         end
  end.

Fixpoint skip (n : nat) (s : string) : string :=
  match n, s with
  | O, _ => s
  | S n', String _ s' => skip n' s'
  | S _, EmptyString => EmptyString
  end.

(** [s.match(/HAIR:\s*([^.]+)/i)?.[1]]: the leftmost position where the
    whole expression matches. *)
Fixpoint exec (s : string) : option string :=
  let here :=
    if Js.startsWith (Js.toLowerCase s) "hair:" then capture (skip 5 s) else None in
  match here with
  | Some c => Some c
  | None => match s with
            | EmptyString => None
            | String _ s' => exec s'
            end
  end.

End HairRegex.

(** The three words that mark a sentence as body-shape language. *)
Definition bodyWords : list string := ["body build"; "proportion"; "waist"].

(** The predicate of the [filter] of [getLockedIdentityMod]. *)
Definition keepFragment (s : string) : bool :=
  let l := Js.toLowerCase s in
  negb (Js.includes l "body build") && negb (Js.includes l "proportion")
  && negb (Js.includes l "waist").

(** [profile.split('.').filter(...).join('.')]. *)
Definition stripBodyLanguage (profile : string) : string :=
  Js.join "." (filter keepFragment (Js.split "." profile)).

(** The profile text the identity clause embeds. *)
Definition embeddedProfile (isPortrait : bool) (activeProfile : string) : string :=
  if isPortrait && Js.truthy activeProfile then stripBodyLanguage activeProfile
  else activeProfile.

(** [profile.match(/HAIR:\s*([^.]+)/i)?.[1] || ""], taken from the
    profile before any fragment is filtered out. *)
Definition hairPartOf (activeProfile : string) : string :=
  match HairRegex.exec activeProfile with Some h => h | None => "" end.

(** The constant [poseConstraint] of [getLockedIdentityMod]. *)
Definition poseConstraint (isSideProfile : bool) : string :=
  if isSideProfile
  then "CRITICAL: Ignore reference orientation; force profile specified in TARGET POSE."
  else "Preserve identity features and facial structure exactly.".

Definition getLockedIdentityMod (cfg : Settings) (isPortrait isSideProfile : bool) : string :=
  match getActiveProfile cfg with
  | None => ""
  | Some activeProfile =>
      if negb (Js.truthy activeProfile) then "" else
      let hairPart := hairPartOf activeProfile in
      let profile := embeddedProfile isPortrait activeProfile in
      let base :=
        "IDENTITY CONSTRAINTS: " +:+ poseConstraint isSideProfile +:+ " Eyes: "
        +:+ eyeColor (adjustments cfg) +:+ ". Profile: " +:+ profile +:+ "." in
      let base :=
        if isHairLocked cfg && Js.truthy hairPart
        then base +:+ " MANDATORY HAIR CONSISTENCY: " +:+ hairPart
                  +:+ ". DO NOT ALTER LENGTH OR STYLE."
        else base in
      if isPortrait then base
      else if isBodyLocked cfg
      then base +:+ " Keep the exact original body build and proportions from reference image."
      else base +:+ " Targeted Build: " +:+ bodyBuild (adjustments cfg)
                +:+ ", Chest: " +:+ chestSize (adjustments cfg)
                +:+ ", Hips: " +:+ hipSize (adjustments cfg) +:+ "."
  end.

Definition expressionKeywords : list string :=
  [ "smile"; "smirk"; "laugh"; "teeth"; "wink"; "gaze";
    "thoughtful"; "serene"; "nose"; "lip"; "joy"; "fear";
    "anxious"; "vulnerable"; "stern"; "desperate"; "exhaustion";
    "serene"; "concentrated"; "neutral"; "stoic"; "pensive"; "rembrandt" ].

(** The keyword families read off the lower-cased pose description. *)
Record Direction := {
  isRear : bool;
  isOverShoulder : bool;
  isLeft : bool;
  isRight : bool;
  isProfile : bool;
  is45 : bool;
  isFrontal : bool
}.

Definition direction (descLower : string) : Direction :=
  let rear := Js.includes descLower "rear" || Js.includes descLower "behind"
              || Js.includes descLower "back view"
              || Js.includes descLower "view from behind" in
  let left := Js.includes descLower "left" in
  let right := Js.includes descLower "right" in
  {| isRear := rear;
     isOverShoulder := Js.includes descLower "looking back at camera";
     isLeft := left;
     isRight := right;
     isProfile := Js.includes descLower "90" || Js.includes descLower "profile";
     is45 := Js.includes descLower "45";
     isFrontal :=
       (Js.includes descLower "frontal"
        || (Js.includes descLower "center" && negb (Js.includes descLower "behind")))
       && negb left && negb right && negb rear |}.

Definition addIf (b : bool) (base extra : string) : string :=
  if b then base +:+ extra else base.

(** The orientation clause [directionMod]. *)
Definition directionMod (descLower : string) : string :=
  let d := direction descLower in
  if isRear d || is45 d || isProfile d || isLeft d || isRight d then
    let base := "CRITICAL: SHOT ORIENTATION — " in
    let base :=
      if isRear d then
        let base := base +:+ "Rear view. Subject is facing away from camera. " in
        let base := addIf (isLeft d) base
          "Camera positioned behind and to the right — seeing back of head and left side only. " in
        addIf (isRight d) base
          "Camera positioned behind and to the left — seeing back of head and right side only. "
      else if isProfile d then
        let base := base +:+ "Strict 90-degree side profile. " in
        let base := addIf (isLeft d) base "Facing screen-left. Only left profile visible. " in
        addIf (isRight d) base "Facing screen-right. Only right profile visible. "
      else if is45 d || isLeft d || isRight d then
        let base := base +:+ "Angled orientation. " in
        let base := addIf (isLeft d) base "Subject facing screen-left. " in
        addIf (isRight d) base "Subject facing screen-right. "
      else base in
    let base := addIf (isOverShoulder d) base
      "Subject is looking back at the camera over their shoulder, but primary body orientation is maintained. " in
    base +:+ "ABSOLUTELY NO FULL FRONTAL FACE. DO NOT TURN SUBJECT TOWARD CAMERA."
  else if isFrontal d then
    "Direct frontal view. Subject looking straight into camera with both eyes fully visible and centered."
  else "".

Definition framingMod (isPortrait : bool) : string :=
  if isPortrait
  then "85mm lens, Tight headshot, shoulder-up framing only, clear facial features, bokeh studio background."
  else "Professional framing, standard lens.".

(** The constant [isSideProfile] of an iteration. *)
Definition sideProfileOf (pose : DatasetPose) : bool :=
  let descLower := Js.toLowerCase (pose_description pose) in
  Js.includes descLower "90-degree" || Js.includes descLower "profile".

Definition aspectRatioOf (pose : DatasetPose) : AspectRatio :=
  match pose_group pose with full => AR_3_4 | _ => AR_1_1 end.

(** ** Generation client ([geminiService.ts]) *)

(** What the provider call [ai.models.generateContent] settles with. *)
Record Blob := { data : option string }.
Record Part := { inlineData : option Blob }.
Record Candidate := { content_parts : option (list Part) }.

Inductive ProviderOutcome :=
  | Rejected (message : string)
  | Fulfilled (candidates : option (list Candidate)).

(** What [generateCharacterImage] settles with. *)
Inductive Settled :=
  | Resolved (imageUrl : string)
  | Thrown (message : string).

(** The [catch] block: a missing-entity error becomes
    [API_KEY_EXPIRED], any other error is thrown again. *)
Definition rethrow (message : string) : Settled :=
  if Js.includes message "Requested entity was not found"
  then Thrown "API_KEY_EXPIRED"
  else Thrown message.

Definition hasInlineData (p : Part) : bool :=
  match inlineData p with Some _ => true | None => false end.

Definition dataUrl (b : Blob) : string :=
  "data:image/png;base64,"
  +:+ match data b with Some d => d | None => "undefined" end.

Definition generateCharacterImage (o : ProviderOutcome) : Settled :=
  match o with
  | Rejected message => rethrow message
  | Fulfilled candidates =>
      match candidates with
      | None | Some [] => rethrow "The model did not return any candidates."
      | Some (candidate :: _) =>
          match content_parts candidate with
          | None | Some [] =>
              rethrow "Generation blocked by safety filters or empty response."
          | Some parts =>
              match find hasInlineData parts with
              | Some {| inlineData := Some b |} => Resolved (dataUrl b)
              | _ => rethrow "No image data found in the response parts."
              end
          end
      end
  end.

(** The test of the [catch] block of [startDatasetMode]: the one fatal
    class of errors. *)
Definition isAuthFailure (message : string) : bool :=
  Js.includes message "401" || String.eqb message "API_KEY_EXPIRED".

(** ** State updates *)

Definition setTask (f : GenerationTask -> GenerationTask) (a : App) : App :=
  {| settings := settings a; isKeyConfirmed := isKeyConfirmed a;
     selectedPoseIds := selectedPoseIds a; gallery := gallery a;
     failedAssets := failedAssets a; task := f (task a);
     isAbortedRef := isAbortedRef a |}.

Definition setGallery (f : list GeneratedImage -> list GeneratedImage) (a : App) : App :=
  {| settings := settings a; isKeyConfirmed := isKeyConfirmed a;
     selectedPoseIds := selectedPoseIds a; gallery := f (gallery a);
     failedAssets := failedAssets a; task := task a;
     isAbortedRef := isAbortedRef a |}.

Definition setFailedAssets (f : list FailedAsset -> list FailedAsset) (a : App) : App :=
  {| settings := settings a; isKeyConfirmed := isKeyConfirmed a;
     selectedPoseIds := selectedPoseIds a; gallery := gallery a;
     failedAssets := f (failedAssets a); task := task a;
     isAbortedRef := isAbortedRef a |}.

Definition setSelectedPoseIds (f : gset string -> gset string) (a : App) : App :=
  {| settings := settings a; isKeyConfirmed := isKeyConfirmed a;
     selectedPoseIds := f (selectedPoseIds a); gallery := gallery a;
     failedAssets := failedAssets a; task := task a;
     isAbortedRef := isAbortedRef a |}.

Definition setIsKeyConfirmed (b : bool) (a : App) : App :=
  {| settings := settings a; isKeyConfirmed := b;
     selectedPoseIds := selectedPoseIds a; gallery := gallery a;
     failedAssets := failedAssets a; task := task a;
     isAbortedRef := isAbortedRef a |}.

(** [isAbortedRef.current = b]. *)
Definition setAborted (b : bool) (a : App) : App :=
  {| settings := settings a; isKeyConfirmed := isKeyConfirmed a;
     selectedPoseIds := selectedPoseIds a; gallery := gallery a;
     failedAssets := failedAssets a; task := task a;
     isAbortedRef := b |}.

(** [{ ...prev, status: s }]. *)
Definition withStatus (s : Status) (prev : GenerationTask) : GenerationTask :=
  {| status := s; total := total prev; current := current prev;
     images := images prev; error := error prev |}.

(** [{ ...prev, current: prev.current + 1, images: [newImage, ...prev.images] }]. *)
Definition withImage (newImage : GeneratedImage) (prev : GenerationTask) : GenerationTask :=
  {| status := status prev; total := total prev; current := current prev + 1;
     images := newImage :: images prev; error := error prev |}.

(** [{ ...prev, error: message, status: 'failed' }]. *)
Definition withFailure (message : string) (prev : GenerationTask) : GenerationTask :=
  {| status := failed; total := total prev; current := current prev;
     images := images prev; error := Some message |}.

(** [{ ...prev, current: prev.current + 1 }]. *)
Definition withProcessed (prev : GenerationTask) : GenerationTask :=
  {| status := status prev; total := total prev; current := current prev + 1;
     images := images prev; error := error prev |}.

(** The initial value of the task, which [executeClearBin] and
    [resetAll] restore. *)
Definition pendingTask : GenerationTask :=
  {| status := pending; total := 0; current := 0; images := []; error := None |}.

Definition stopGeneration (a : App) : App :=
  setTask (withStatus stopped) (setAborted true a).

(** ** The batch loop as a machine

    [startDatasetMode] is an [async] function: it runs until its
    [await], and goes on when the call settles.  Between two of its
    turns the user can press Stop.  The machine takes one turn per
    event; the top of the [for] loop is a state of its own, so that a
    stop can also be placed exactly between two poses (the runs of the
    code are those where the loop goes on right after a call settles).

    The events are those of a batch: Generate, Stop, and the two
    halves of an iteration.  This is the machine of a batch on its
    own: the other handlers that write this state ([executeClearBin],
    [resetAll], [togglePoseSelection], [deleteImage]) are left to the
    caller between batches, and Generate counts only when no loop is
    running.  The code has no such test; the page on which loops
    overlap and the bin is cleared at any time is [act], further
    down. *)

(** Where the running [startDatasetMode] is. *)
Inductive Loop :=
  | NotRunning
  | AtBoundary (rest : list DatasetPose)
  | Awaiting (pose : DatasetPose) (prompt : string) (rest : list DatasetPose).

(** What became of a call that has settled (kept for the statements
    only: the code does not read it). *)
Inductive Outcome :=
  | Succeeded (pose : DatasetPose) (image : GeneratedImage)
  | Failed (pose : DatasetPose) (asset : FailedAsset)
  | Fatal (pose : DatasetPose) (prompt : string) (message : string).

Record Machine := {
  app : App;
  loop : Loop;
  (** the constant [selectedPoses] of the batch started last *)
  selectedPoses : list DatasetPose;
  (** the synthesis calls made by that batch, oldest first: pose and prompt *)
  issued : list (DatasetPose * string);
  (** the calls of that batch that have settled, oldest first *)
  settled : list Outcome
}.

(** The two values [Math.random()] leads to in one iteration. *)
Record Draws := { clothingDraw : nat; expressionDraw : nat }.

Inductive Event :=
  | EvStart                      (* the Generate Batch button *)
  | EvStop                       (* the Stop Batch button *)
  | EvResume (d : Draws)         (* the loop goes on from the top of an iteration *)
  | EvSettle (o : ProviderOutcome) (now1 now2 : N). (* the call in flight settles *)

(** [Math.floor(Math.random() * n)] is an index below [n]; the draw
    stands for the random number. *)
Definition randomIndex (n d : nat) : nat := d mod n.

Definition newImage (pose : DatasetPose) (imageUrl prompt : string) (now1 now2 : N)
  : GeneratedImage :=
  {| img_id := "dataset-" +:+ pretty now1 +:+ "-" +:+ pose_id pose;
     img_url := imageUrl;
     img_prompt := prompt;
     img_timestamp := now2;
     img_group := Some (group_name (pose_group pose)) |}.

Definition newFailedAsset (pose : DatasetPose) (message prompt : string) (now1 now2 : N)
  : FailedAsset :=
  {| fa_id := "failed-" +:+ pretty now1 +:+ "-" +:+ pose_id pose;
     fa_label := pose_label pose;
     fa_message := message;
     fa_prompt := prompt;
     fa_timestamp := now2 |}.

Section Orchestrator.

(** The tables of [constants.ts]. *)
Variable POSE_DEFINITIONS : list DatasetPose.
Variable CLOTHING_LIST : list string.
Variable FACIAL_EXPRESSIONS : list string.

(** [CLOTHING_LIST[...]] inside a template: a missing entry prints as
    [undefined]. *)
Definition drawClothing (d : Draws) : string :=
  match nth_error CLOTHING_LIST (randomIndex (length CLOTHING_LIST) (clothingDraw d)) with
  | Some c => c
  | None => "undefined"
  end.

(** [FACIAL_EXPRESSIONS[...]]: a missing entry is falsy, as [""] is. *)
Definition drawExpression (d : Draws) : string :=
  match nth_error FACIAL_EXPRESSIONS
          (randomIndex (length FACIAL_EXPRESSIONS) (expressionDraw d)) with
  | Some e => e
  | None => ""
  end.

Definition expressionOf (pose : DatasetPose) (descLower : string) (d : Draws) : string :=
  let hasExpressionInPose :=
    existsb (fun kw => Js.includes descLower kw) expressionKeywords in
  if hasExpressionInPose then ""
  else if DatasetGroup_eqb (pose_group pose) portrait
          || DatasetGroup_eqb (pose_group pose) upper
       then drawExpression d
       else "neutral gaze".

(** The prompt of one iteration of [startDatasetMode]. *)
Definition composePrompt (cfg : Settings) (pose : DatasetPose) (d : Draws) : string :=
  let isPortrait := DatasetGroup_eqb (pose_group pose) portrait in
  let descLower := Js.toLowerCase (pose_description pose) in
  let identityMod := getLockedIdentityMod cfg isPortrait (sideProfileOf pose) in
  let clothing := drawClothing d in
  let expression := expressionOf pose descLower d in
  let dir := directionMod descLower in
  "DATASET PRODUCTION. "
  +:+ (if Js.truthy dir then dir +:+ " " else "")
  +:+ "TARGET POSE: " +:+ pose_description pose
  +:+ ". COMPOSITION: " +:+ framingMod isPortrait +:+ ". "
  +:+ (if Js.truthy expression then "EXPRESSION: " +:+ expression +:+ ". " else "")
  +:+ "CLOTHING: " +:+ clothing +:+ ". " +:+ identityMod
  +:+ ". ENVIRONMENT: Professional neutral high-key studio, seamless gray backdrop. 8k resolution, high detail.".

(** The guard of [startDatasetMode]. *)
Definition canStart (a : App) : bool :=
  Js.truthy_opt (sourceImage (settings a))
  && isProfileReady (settings a)
  && isKeyConfirmed a
  && negb (size (selectedPoseIds a) =? 0)%nat.

(** [POSE_DEFINITIONS.filter(p => selectedPoseIds.has(p.id))]. *)
Definition selectPoses (ids : gset string) : list DatasetPose :=
  filter (fun p => pose_id p ∈ ids) POSE_DEFINITIONS.

(** [startDatasetMode] up to the [for] loop. *)
Definition startDatasetMode (m : Machine) : Machine :=
  let a := app m in
  if negb (canStart a) then m else
  let a1 := setAborted false a in
  let a2 := setTask (fun _ => {| status := generating; total := size (selectedPoseIds a);
                                 current := 0; images := []; error := None |}) a1 in
  let a3 := setFailedAssets (fun _ => []) a2 in
  {| app := a3; loop := AtBoundary (selectPoses (selectedPoseIds a));
     selectedPoses := selectPoses (selectedPoseIds a);
     issued := []; settled := [] |}.

(** After the loop: [if (!isAbortedRef.current) setTask(... 'completed')]. *)
Definition finish (m : Machine) : Machine :=
  let a := app m in
  {| app := if isAbortedRef a then a else setTask (withStatus completed) a;
     loop := NotRunning; selectedPoses := selectedPoses m;
     issued := issued m; settled := settled m |}.

(** The top of an iteration up to the [await]. *)
Definition resume (d : Draws) (m : Machine) : Machine :=
  match loop m with
  | AtBoundary [] => finish m
  | AtBoundary (pose :: rest) =>
      if isAbortedRef (app m) then finish m
      else
        let prompt := composePrompt (settings (app m)) pose d in
        {| app := app m; loop := Awaiting pose prompt rest;
           selectedPoses := selectedPoses m;
           issued := issued m ++ [(pose, prompt)]; settled := settled m |}
  | _ => m
  end.

(** From the [await] to the end of the iteration. *)
Definition settle (o : ProviderOutcome) (now1 now2 : N) (m : Machine) : Machine :=
  match loop m with
  | Awaiting pose prompt rest =>
      match generateCharacterImage o with
      | Resolved imageUrl =>
          let img := newImage pose imageUrl prompt now1 now2 in
          let a1 := setSelectedPoseIds (fun prev => prev ∖ {[pose_id pose]}) (app m) in
          let a2 := setGallery (fun prev => img :: prev) a1 in
          let a3 := setTask (withImage img) a2 in
          {| app := a3; loop := AtBoundary rest; selectedPoses := selectedPoses m;
             issued := issued m; settled := settled m ++ [Succeeded pose img] |}
      | Thrown message =>
          if isAuthFailure message then
            let a1 := setIsKeyConfirmed false (app m) in
            let a2 := setTask (withFailure message) a1 in
            {| app := a2; loop := NotRunning; selectedPoses := selectedPoses m;
               issued := issued m; settled := settled m ++ [Fatal pose prompt message] |}
          else
            let fa := newFailedAsset pose message prompt now1 now2 in
            let a1 := setFailedAssets (fun prev => fa :: prev) (app m) in
            let a2 := setTask withProcessed a1 in
            {| app := a2; loop := AtBoundary rest; selectedPoses := selectedPoses m;
               issued := issued m; settled := settled m ++ [Failed pose fa] |}
      end
  | _ => m
  end.

Definition isGenerating (a : App) : bool :=
  match status (task a) with generating => true | _ => false end.

Definition isRunning (m : Machine) : bool :=
  match loop m with NotRunning => false | _ => true end.

(** One event of a batch on its own.  The Stop button exists only
    while the status is [generating] and the Generate button is
    disabled in that status, as the page renders them.  That Generate
    is not pressed while the loop of the batch before is still running
    is taken for granted here, and only here: the code does not test
    it, and [act] does not either. *)
Definition step (m : Machine) (e : Event) : Machine :=
  match e with
  | EvStart =>
      if isGenerating (app m) || isRunning m then m else startDatasetMode m
  | EvStop =>
      if isGenerating (app m)
      then {| app := stopGeneration (app m); loop := loop m;
              selectedPoses := selectedPoses m; issued := issued m;
              settled := settled m |}
      else m
  | EvResume d => resume d m
  | EvSettle o now1 now2 => settle o now1 now2 m
  end.

Definition run (m : Machine) (es : list Event) : Machine := fold_left step es m.

(** A machine before any batch: nothing runs, the task is the initial
    one. *)
Definition idle (a : App) : Machine :=
  {| app := a; loop := NotRunning; selectedPoses := []; issued := []; settled := [] |}.

End Orchestrator.

(** ** Reading the record of settled calls *)

Definition outcomePose (o : Outcome) : DatasetPose :=
  match o with Succeeded p _ | Failed p _ | Fatal p _ _ => p end.

(** The call an outcome answers: its pose and the prompt kept with it. *)
Definition outcomeCall (o : Outcome) : DatasetPose * string :=
  match o with
  | Succeeded p img => (p, img_prompt img)
  | Failed p fa => (p, fa_prompt fa)
  | Fatal p prompt _ => (p, prompt)
  end.

(** A pose counts as processed when its call succeeded or failed
    without ending the batch. *)
Definition isProcessed (o : Outcome) : bool :=
  match o with Fatal _ _ _ => false | _ => true end.

Definition isSuccess (o : Outcome) : bool :=
  match o with Succeeded _ _ => true | _ => false end.

(** A failure the batch went on after. *)
Definition isRecovered (o : Outcome) : bool :=
  match o with Failed _ _ => true | _ => false end.

(** An outcome holds the record the handler built for its pose. *)
Definition wellFormed (o : Outcome) : Prop :=
  match o with
  | Succeeded p img =>
      exists now1 now2, img = newImage p (img_url img) (img_prompt img) now1 now2
  | Failed p fa =>
      isAuthFailure (fa_message fa) = false /\
      exists now1 now2,
        fa = newFailedAsset p (fa_message fa) (fa_prompt fa) now1 now2
  | Fatal _ _ message => isAuthFailure message = true
  end.

Fixpoint successImages (l : list Outcome) : list GeneratedImage :=
  match l with
  | [] => []
  | Succeeded _ img :: l' => img :: successImages l'
  | _ :: l' => successImages l'
  end.

Fixpoint successPoses (l : list Outcome) : list DatasetPose :=
  match l with
  | [] => []
  | Succeeded p _ :: l' => p :: successPoses l'
  | _ :: l' => successPoses l'
  end.

Fixpoint failureAssets (l : list Outcome) : list FailedAsset :=
  match l with
  | [] => []
  | Failed _ fa :: l' => fa :: failureAssets l'
  | _ :: l' => failureAssets l'
  end.

(** The poses the loop still holds: the one in flight and those after
    it. *)
Definition pendingPoses (l : Loop) : list DatasetPose :=
  match l with
  | NotRunning => []
  | AtBoundary rest => rest
  | Awaiting p _ rest => p :: rest
  end.

Definition inFlight (l : Loop) : list (DatasetPose * string) :=
  match l with Awaiting p prompt _ => [(p, prompt)] | _ => [] end.

Definition isTerminal (s : Status) : bool :=
  match s with completed | failed | stopped => true | _ => false end.

Definition isStart (e : Event) : bool :=
  match e with EvStart => true | _ => false end.


(** The call ends the batch: it settles with an error of the fatal
    class. *)
Definition isFatal (o : ProviderOutcome) : bool :=
  match generateCharacterImage o with
  | Resolved _ => false
  | Thrown message => isAuthFailure message
  end.

(** What the scenarios look at: where the loop is, the flag, the
    progress, the failures, the calls made and the settings. *)
Record View := {
  v_loop : Loop;
  v_aborted : bool;
  v_status : Status;
  v_current : nat;
  v_images : nat;
  v_failed : list FailedAsset;
  v_issued : list (DatasetPose * string);
  v_settings : Settings
}.

Definition view (m : Machine) : View :=
  {| v_loop := loop m;
     v_aborted := isAbortedRef (app m);
     v_status := status (task (app m));
     v_current := current (task (app m));
     v_images := length (images (task (app m)));
     v_failed := failedAssets (app m);
     v_issued := issued m;
     v_settings := settings (app m) |}.

(** ** Predicates on strings used in the statements *)

Fixpoint onlySpaces (s : string) : bool :=
  match s with
  | EmptyString => true
  | String c s' => Js.is_space c && onlySpaces s'
  end.

Fixpoint hasDot (s : string) : bool :=
  match s with
  | EmptyString => false
  | String c s' => Ascii.eqb c "." || hasDot s'
  end.

(** ** The invariant of a batch run *)

Section Invariant.

Variable POSE_DEFINITIONS : list DatasetPose.

(** What holds of the machine from the start of a batch on, at every
    event. *)
Record Inv (m : Machine) : Prop := {
  inv_current :
    current (task (app m)) = length (filter isProcessed (settled m));
  inv_images :
    images (task (app m)) = rev (successImages (settled m));
  inv_gallery :
    exists old, gallery (app m) = images (task (app m)) ++ old;
  inv_failed :
    failedAssets (app m) = rev (failureAssets (settled m));
  inv_total :
    current (task (app m)) + length (pendingPoses (loop m)) <= total (task (app m));
  inv_catalog :
    exists ids, selectedPoses m = selectPoses POSE_DEFINITIONS ids;
  inv_order :
    exists unreached,
      (outcomePose <$> settled m) ++ pendingPoses (loop m) ++ unreached
      = selectedPoses m;
  inv_selection :
    forall p, p ∈ selectedPoses m ->
      (pose_id p ∈ selectedPoseIds (app m) <-> p ∉ successPoses (settled m));
  inv_issued :
    issued m = (outcomeCall <$> settled m) ++ inFlight (loop m);
  inv_records :
    Forall wellFormed (settled m);
  inv_flag :
    match loop m with
    | NotRunning => isTerminal (status (task (app m))) = true
    | _ => (status (task (app m)) = generating /\ isAbortedRef (app m) = false)
           \/ (status (task (app m)) = stopped /\ isAbortedRef (app m) = true)
    end
}.

End Invariant.

(** ** Claims of the specification that the code does not meet, as
    stated *)

Section Claims.

Variable POSE_DEFINITIONS : list DatasetPose.
Variable CLOTHING_LIST : list string.
Variable FACIAL_EXPRESSIONS : list string.

(** Nothing but a new batch changes a task that is [completed],
    [failed] or [stopped]. *)
Definition TerminalIsFinal : Prop :=
  forall (m0 : Machine) (es : list Event) (e : Event),
    canStart (app m0) = true ->
    let m := run POSE_DEFINITIONS CLOTHING_LIST FACIAL_EXPRESSIONS
               (startDatasetMode POSE_DEFINITIONS m0) es in
    isTerminal (status (task (app m))) = true ->
    isStart e = false ->
    task (app (step POSE_DEFINITIONS CLOTHING_LIST FACIAL_EXPRESSIONS m e))
    = task (app m).


(** No piece of the identity profile that holds one of the three words
    is in the prompt of a portrait. *)
Definition PortraitWithoutBodyLanguage : Prop :=
  forall (cfg : Settings) (pose : DatasetPose) (d : Draws) (profile piece : string),
    pose_group pose = portrait ->
    getActiveProfile cfg = Some profile ->
    Js.includes profile piece = true ->
    keepFragment piece = false ->
    Js.includes (composePrompt CLOTHING_LIST FACIAL_EXPRESSIONS cfg pose d) piece
    = false.

End Claims.

(** A rear view to the left has the rear-view text, the camera behind
    and to the right, and the right side in view. *)
Definition RearLeftShowsRightSide : Prop :=
  forall description : string,
    let d := Js.toLowerCase description in
    Js.includes d "rear" = true ->
    Js.includes d "left" = true ->
    Js.includes (directionMod d) "Rear view. Subject is facing away from camera." = true
    /\ Js.includes (directionMod d) "Camera positioned behind and to the right" = true
    /\ Js.includes (directionMod d) "right side" = true.

(** The hair directive of the identity clause. *)
Definition hairDirective (cfg : Settings) (activeProfile : string) : string :=
  if isHairLocked cfg && Js.truthy (hairPartOf activeProfile)
  then " MANDATORY HAIR CONSISTENCY: " +:+ hairPartOf activeProfile
       +:+ ". DO NOT ALTER LENGTH OR STYLE."
  else "".

(** ** A small catalog to run the machine on *)

Module Sample.

Definition front : DatasetPose :=
  {| pose_id := "p01"; pose_label := "Front headshot"; pose_group := portrait;
     pose_description := "Frontal headshot, centered, calm" |}.

Definition rearLeft : DatasetPose :=
  {| pose_id := "p02"; pose_label := "Rear left"; pose_group := upper;
     pose_description := "Rear view, body turned to the LEFT" |}.

Definition sideRight : DatasetPose :=
  {| pose_id := "p03"; pose_label := "Profile right"; pose_group := upper;
     pose_description := "90-degree profile facing right" |}.

Definition walking : DatasetPose :=
  {| pose_id := "p04"; pose_label := "Walking"; pose_group := full;
     pose_description := "Walking toward camera, 45 degree angle" |}.

Definition seated : DatasetPose :=
  {| pose_id := "p05"; pose_label := "Seated"; pose_group := full;
     pose_description := "Seated on a stool, hands on knees" |}.

Definition catalog : list DatasetPose := [front; rearLeft; sideRight; walking; seated].

Definition clothing : list string := ["white t-shirt"; "black suit"].

Definition expressions : list string := ["soft smile"; "raised eyebrow"].

Definition cfg : Settings :=
  {| userApiKey := "key";
     sourceImage := Some "data:image/png;base64,AAAA";
     profileMode := auto;
     characterProfile := Some "HAIR: waist-length, straight. FACE: oval. BODY: slim waist.";
     manualCharacterProfile := "";
     resolution := R1K;
     isBodyLocked := false;
     isHairLocked := true;
     adjustments := {| eyeColor := "Brown"; bodyBuild := "Average";
                       chestSize := "Average"; hipSize := "Average" |} |}.

Definition appWith (ids : gset string) : App :=
  {| settings := cfg; isKeyConfirmed := true; selectedPoseIds := ids;
     gallery := []; failedAssets := []; task := pendingTask;
     isAbortedRef := false |}.

Definition allIds : gset string := {[ "p01"; "p02"; "p03"; "p04"; "p05" ]}.

Definition draw : Draws := {| clothingDraw := 1; expressionDraw := 0 |}.

(** A response with one image part. *)
Definition image : ProviderOutcome :=
  Fulfilled (Some [ {| content_parts :=
                         Some [ {| inlineData := None |};
                                {| inlineData := Some {| data := Some "QUJD" |} |} ] |} ]).

(** A response without candidates. *)
Definition noCandidates : ProviderOutcome := Fulfilled (Some []).

(** The provider rejects the credential. *)
Definition keyRejected : ProviderOutcome :=
  Rejected "404 Requested entity was not found.".

(** One whole iteration: the loop goes on and its call settles. *)
Definition pose (o : ProviderOutcome) : list Event := [EvResume draw; EvSettle o 10 11].

Definition machine (ids : gset string) (es : list Event) : Machine :=
  run catalog clothing expressions (idle (appWith ids)) es.

End Sample.

(** ** The rest of the page and of the client

    The handlers of [App.tsx] outside the batch loop (selection,
    gallery, clearing, resetting, analysis, key entry, archive names)
    and the rest of [geminiService.ts]. *)

(** *** More string primitives *)

Module Text.

(** [s.split(sep).pop()]: the piece after the last separator. *)
Definition lastPiece (sep : ascii) (s : string) : string :=
  match last (Js.split sep s) with
  | Some f => f
  | None => ""
  end.

(** [s.split(sep)[1]]; [None] is [undefined]. *)
Definition secondPiece (sep : ascii) (s : string) : option string :=
  Js.split sep s !! 1.

(** What follows the first occurrence of a separator that is not
    empty. *)
Fixpoint afterFirst (sep s : string) : option string :=
  if Js.startsWith s sep then Some (HairRegex.skip (String.length sep) s)
  else match s with
       | EmptyString => None
       | String _ s' => afterFirst sep s'
       end.

(** What precedes the first occurrence of the separator, all of the
    text when there is none. *)
Fixpoint upToFirst (sep s : string) : string :=
  if Js.startsWith s sep then EmptyString
  else match s with
       | EmptyString => EmptyString
       | String c s' => String c (upToFirst sep s')
       end.

(** [s.split(sep)[1]] for a separator of several characters. *)
Definition secondPieceOn (sep s : string) : option string :=
  match afterFirst sep s with
  | Some rest => Some (upToFirst sep rest)
  | None => None
  end.

(** [s.replace(/\s+/g, '_')]: every run of white space becomes one
    underscore. *)
Fixpoint replaceSpaceRuns (s : string) : string :=
  match s with
  | EmptyString => EmptyString
  | String c s' =>
      if Js.is_space c then
        match s' with
        | EmptyString => String "_" EmptyString
        | String c' _ =>
            if Js.is_space c' then replaceSpaceRuns s'
            else String "_" (replaceSpaceRuns s')
        end
      else String c (replaceSpaceRuns s')
  end.

(** The characters [a-zA-Z0-9_-]. *)
Definition isNameChar (c : ascii) : bool :=
  let n := nat_of_ascii c in
  ((97 <=? n)%nat && (n <=? 122)%nat) || ((65 <=? n)%nat && (n <=? 90)%nat)
  || ((48 <=? n)%nat && (n <=? 57)%nat) || (n =? 95)%nat || (n =? 45)%nat.

(** [s.replace(/[^a-zA-Z0-9_-]/g, '_')], the filter on the project
    name. *)
Fixpoint sanitizeName (s : string) : string :=
  match s with
  | EmptyString => EmptyString
  | String c s' => String (if isNameChar c then c else "_"%char) (sanitizeName s')
  end.

Fixpoint allNameChars (s : string) : bool :=
  match s with
  | EmptyString => true
  | String c s' => isNameChar c && allNameChars s'
  end.

Fixpoint hasChar (x : ascii) (s : string) : bool :=
  match s with
  | EmptyString => false
  | String c s' => Ascii.eqb c x || hasChar x s'
  end.

Fixpoint hasSpace (s : string) : bool :=
  match s with
  | EmptyString => false
  | String c s' => Js.is_space c || hasSpace s'
  end.

(** Every character is ASCII; there the white space of [trim] and of
    [\s] is that of [Js.is_space]. *)
Fixpoint isAscii (s : string) : bool :=
  match s with
  | EmptyString => true
  | String c s' => (nat_of_ascii c <? 128)%nat && isAscii s'
  end.

End Text.

(** *** Generation client: analysis, and the image sent *)

(** What the analysis call of the provider settles with; [text] is
    [response.text]. *)
Inductive AnalysisOutcome :=
  | AnalysisRejected (message : string)
  | AnalysisFulfilled (text : option string).

(** [analyzeCharacter]: the profile text, with a stock sentence when
    the response has none. *)
Definition analyzeCharacter (o : AnalysisOutcome) : Settled :=
  match o with
  | AnalysisRejected message => rethrow message
  | AnalysisFulfilled text =>
      Resolved (match text with
                | Some t => if Js.truthy t then t else "A detailed character profile."
                | None => "A detailed character profile."
                end)
  end.

(** The constant [cleanBase64] of [generateCharacterImage]: the image
    bytes sent to the provider. *)
Definition cleanBase64 (imageBase64 : string) : string :=
  if Js.includes imageBase64 "base64,"
  then match Text.secondPieceOn "base64," imageBase64 with
       | Some piece => piece
       | None => "undefined"
       end
  else imageBase64.

(** *** Page state around the batch *)

Definition setSettings (f : Settings -> Settings) (a : App) : App :=
  {| settings := f (settings a); isKeyConfirmed := isKeyConfirmed a;
     selectedPoseIds := selectedPoseIds a; gallery := gallery a;
     failedAssets := failedAssets a; task := task a;
     isAbortedRef := isAbortedRef a |}.

(** [setCharacterProfile(profile)]. *)
Definition withCharacterProfile (profile : option string) (cfg : Settings) : Settings :=
  {| userApiKey := userApiKey cfg; sourceImage := sourceImage cfg;
     profileMode := profileMode cfg; characterProfile := profile;
     manualCharacterProfile := manualCharacterProfile cfg;
     resolution := resolution cfg; isBodyLocked := isBodyLocked cfg;
     isHairLocked := isHairLocked cfg; adjustments := adjustments cfg |}.

(** The settings after [resetAll]: image and profiles gone, locks at
    their initial values. *)
Definition resetSettings (cfg : Settings) : Settings :=
  {| userApiKey := userApiKey cfg; sourceImage := None;
     profileMode := profileMode cfg; characterProfile := None;
     manualCharacterProfile := "";
     resolution := resolution cfg; isBodyLocked := false;
     isHairLocked := true; adjustments := adjustments cfg |}.

(** The page: the state of the batch, and the flags and the name kept
    beside it. *)
Record Page := {
  page_app : App;
  isAnalyzing : bool;
  clearConfirmMode : bool;
  projectName : string
}.

Definition onApp (f : App -> App) (p : Page) : Page :=
  {| page_app := f (page_app p); isAnalyzing := isAnalyzing p;
     clearConfirmMode := clearConfirmMode p; projectName := projectName p |}.

Definition setClearConfirmMode (b : bool) (p : Page) : Page :=
  {| page_app := page_app p; isAnalyzing := isAnalyzing p;
     clearConfirmMode := b; projectName := projectName p |}.

Definition setIsAnalyzing (b : bool) (p : Page) : Page :=
  {| page_app := page_app p; isAnalyzing := b;
     clearConfirmMode := clearConfirmMode p; projectName := projectName p |}.

(** The handler of the name field. *)
Definition setProjectName (value : string) (p : Page) : Page :=
  {| page_app := page_app p; isAnalyzing := isAnalyzing p;
     clearConfirmMode := clearConfirmMode p;
     projectName := Text.sanitizeName value |}.


(** [analyzeImage] from the [await] on: the profile on success, the
    key confirmation withdrawn on an authorization failure, and the
    flag down in every case. *)
Definition analyzeImage_settle (o : AnalysisOutcome) (p : Page) : Page :=
  setIsAnalyzing false
    (match analyzeCharacter o with
     | Resolved profile =>
         onApp (setSettings (withCharacterProfile (Some profile))) p
     | Thrown message =>
         if isAuthFailure message then onApp (setIsKeyConfirmed false) p else p
     end).

(** [deleteImage(id)]. *)
Definition deleteImage (id : string) (a : App) : App :=
  setGallery (fun prev => filter (fun img => img_id img <> id) prev) a.

Definition executeClearBin (p : Page) : Page :=
  setClearConfirmMode false
    (onApp (fun a => setFailedAssets (fun _ => [])
                       (setTask (fun _ => pendingTask)
                          (setGallery (fun _ => []) a))) p).

(** The Clear Bin button: the first press arms, the second clears. *)
Definition handleClearClick (p : Page) : Page :=
  if negb (clearConfirmMode p) then setClearConfirmMode true p
  else executeClearBin p.

(** The timer of the effect on [clearConfirmMode]: three seconds after
    arming, the button is disarmed. *)
Definition clearConfirmTimeout (p : Page) : Page :=
  if clearConfirmMode p then setClearConfirmMode false p else p.

(** [resetAll]; [confirmed] is the answer to [window.confirm]. *)
Definition resetAll (confirmed : bool) (a : App) : App :=
  if confirmed then
    setFailedAssets (fun _ => [])
      (setSelectedPoseIds (fun _ => ∅)
         (setTask (fun _ => pendingTask)
            (setSettings resetSettings a)))
  else a.

(** *** Selection *)

Definition togglePoseSelection (id : string) (a : App) : App :=
  setSelectedPoseIds
    (fun prev => if decide (id ∈ prev) then prev ∖ {[id]} else prev ∪ {[id]}) a.

(** The ids of a list of poses, as a set. *)
Definition idsOf (poses : list DatasetPose) : gset string :=
  list_to_set (pose_id <$> poses).

Section Selection.

Variable POSE_DEFINITIONS : list DatasetPose.

(** [POSE_DEFINITIONS.filter(p => p.group === group)]. *)
Definition groupPoses (group : DatasetGroup) : list DatasetPose :=
  filter (fun p => DatasetGroup_eqb (pose_group p) group) POSE_DEFINITIONS.

Definition toggleGroupAll (group : DatasetGroup) (a : App) : App :=
  let allSelected :=
    forallb (fun p => bool_decide (pose_id p ∈ selectedPoseIds a)) (groupPoses group) in
  setSelectedPoseIds
    (fun prev => if allSelected then prev ∖ idsOf (groupPoses group)
                 else prev ∪ idsOf (groupPoses group)) a.

Definition selectRecommended702010 (a : App) : App :=
  setSelectedPoseIds (fun _ => idsOf POSE_DEFINITIONS) a.

(** *** The archive of [downloadAll] *)

(** The entry [zip.file(fileName, base64Data)] of one image of the
    gallery, none when the url has no payload. *)
Definition archiveEntry (name : string) (idx : nat) (img : GeneratedImage)
  : option (string * string) :=
  match Text.secondPiece "," (img_url img) with
  | Some base64Data =>
      if Js.truthy base64Data then
        let poseId := Text.lastPiece "-" (img_id img) in
        let poseLabel :=
          match find (fun p => String.eqb (pose_id p) poseId) POSE_DEFINITIONS with
          | Some pose => Text.replaceSpaceRuns (pose_label pose)
          | None => "Frame_" +:+ pretty idx
          end in
        Some (name +:+ "_" +:+ poseLabel +:+ "_" +:+ pretty idx +:+ ".png", base64Data)
      else None
  | None => None
  end.

(** The calls of [zip.file] of [downloadAll], in order. *)
Definition archiveEntries (name : string) (images : list GeneratedImage)
  : list (string * string) :=
  omap (fun x => x) (imap (archiveEntry name) images).

End Selection.

(** *** Grouping the gallery *)

Section Grouping.

(** The names every object has from its prototype ([constructor],
    [toString], ...): [acc[key]] is set for them before any image is
    put in. *)
Variable inherited : gset string.

(** [img.group || 'default']. *)
Definition groupKey (img : GeneratedImage) : string :=
  match img_group img with
  | Some g => if Js.truthy g then g else "default"
  | None => "default"
  end.

(** One step of the [reduce]: [None] when [acc[key].push] is not there
    to call. *)
Definition binStep (acc : option (gmap string (list GeneratedImage)))
    (img : GeneratedImage) : option (gmap string (list GeneratedImage)) :=
  match acc with
  | None => None
  | Some buckets =>
      let key := groupKey img in
      match buckets !! key with
      | Some bucket => Some (<[key := bucket ++ [img]]> buckets)
      | None =>
          if decide (key ∈ inherited) then None
          else Some (<[key := [img]]> buckets)
      end
  end.

Definition binGroupedImages (images : list GeneratedImage)
  : option (gmap string (list GeneratedImage)) :=
  fold_left binStep images (Some ∅).

End Grouping.

(** *** Predicates of the new statements *)

Fixpoint allDigits (s : string) : bool :=
  match s with
  | EmptyString => true
  | String c s' =>
      let n := nat_of_ascii c in
      (48 <=? n)%nat && (n <=? 57)%nat && allDigits s'
  end.

(** The url has a payload after its first comma. *)
Definition hasPayload (img : GeneratedImage) : bool :=
  match Text.secondPiece "," (img_url img) with
  | Some base64Data => Js.truthy base64Data
  | None => false
  end.

(** The three names a group is written as. *)
Definition isGroupName (key : string) : Prop :=
  key = "portrait" \/ key = "upper" \/ key = "full".

(** A handler of the page run on the state of the machine. *)
Definition onMachine (f : App -> App) (m : Machine) : Machine :=
  {| app := f (app m); loop := loop m; selectedPoses := selectedPoses m;
     issued := issued m; settled := settled m |}.

(** *** A second invariant of a batch run *)

Section Invariant2.

Variable CLOTHING_LIST : list string.
Variable FACIAL_EXPRESSIONS : list string.

(** What also holds from the start of a batch on: a fatal outcome
    goes with the status [failed], the error and the withdrawn key
    too; while the batch has not been cut short every selected pose is
    settled or still held by the loop; and every call was made with a
    prompt composed from the settings, which have a ready profile. *)
Record Inv2 (m : Machine) : Prop := {
  inv2_processed :
    status (task (app m)) <> failed ->
    Forall (fun o => isProcessed o = true) (settled m);
  inv2_all :
    isRunning m = true \/ status (task (app m)) = completed ->
    (outcomePose <$> settled m) ++ pendingPoses (loop m) = selectedPoses m;
  inv2_error :
    error (task (app m)) = None <-> status (task (app m)) <> failed;
  inv2_key :
    status (task (app m)) = failed -> isKeyConfirmed (app m) = false;
  inv2_ready :
    isProfileReady (settings (app m)) = true;
  inv2_prompts :
    forall p prompt, (p, prompt) ∈ issued m ->
      exists d, prompt
                = composePrompt CLOTHING_LIST FACIAL_EXPRESSIONS (settings (app m)) p d
}.

End Invariant2.

(** *** The selection during a batch *)

Section Invariant3.

Variable POSE_DEFINITIONS : list DatasetPose.

(** The selection is what was selected when the batch started, less
    the ids of the poses that have succeeded since. *)
Definition Inv3 (m : Machine) : Prop :=
  exists ids,
    selectedPoses m = selectPoses POSE_DEFINITIONS ids
    /\ selectedPoseIds (app m) = ids ∖ idsOf (successPoses (settled m)).

End Invariant3.

(** *** Whole runs *)

(** What the environment supplies for one iteration: the draws, the
    outcome of the call and the two readings of the clock. *)
Definition Turn : Type := Draws * ProviderOutcome * N * N.

Definition iteration (t : Turn) : list Event :=
  match t with (d, o, now1, now2) => [EvResume d; EvSettle o now1 now2] end.

(** The events of a batch that nobody stops: every iteration, and the
    last visit of the loop. *)
Definition wholeRun (turns : list Turn) (d : Draws) : list Event :=
  flat_map iteration turns ++ [EvResume d].

Definition turnOutcome (t : Turn) : ProviderOutcome :=
  match t with (_, o, _, _) => o end.

(** The call gives an image. *)
Definition isResolved (o : ProviderOutcome) : bool :=
  match generateCharacterImage o with Resolved _ => true | Thrown _ => false end.

Definition gaveImage (t : Turn) : bool := isResolved (turnOutcome t).

(** *** More of the sample *)

Module Sample2.

(** A page around the sample state, one image in the gallery. *)
Definition page : Page :=
  {| page_app := setGallery
                   (fun _ => [newImage Sample.front "data:image/png;base64,QUJD" "" 1 2])
                   (Sample.appWith Sample.allIds);
     isAnalyzing := true; clearConfirmMode := false; projectName := "set" |}.

Definition keyRefused : AnalysisOutcome := AnalysisRejected "401 Unauthorized".

(** The sample settings with other values of the body sliders. *)
Definition athletic : Settings :=
  {| userApiKey := userApiKey Sample.cfg; sourceImage := sourceImage Sample.cfg;
     profileMode := profileMode Sample.cfg;
     characterProfile := characterProfile Sample.cfg;
     manualCharacterProfile := manualCharacterProfile Sample.cfg;
     resolution := resolution Sample.cfg; isBodyLocked := isBodyLocked Sample.cfg;
     isHairLocked := isHairLocked Sample.cfg;
     adjustments := {| eyeColor := "Brown"; bodyBuild := "Athletic";
                       chestSize := "Large"; hipSize := "Narrow" |} |}.

Definition two : gset string := {[ "p01"; "p02" ]}.

Definition start (ids : gset string) : Machine :=
  startDatasetMode Sample.catalog (idle (Sample.appWith ids)).

Definition after (ids : gset string) (es : list Event) : Machine :=
  run Sample.catalog Sample.clothing Sample.expressions (start ids) es.

Definition prompt (p : DatasetPose) : string :=
  composePrompt Sample.clothing Sample.expressions Sample.cfg p Sample.draw.

(** The names every object has, as far as the sample goes. *)
Definition inherited : gset string :=
  {[ "constructor"; "toString"; "valueOf"; "hasOwnProperty"; "__proto__" ]}.

End Sample2.

(** ** Several loops on one page

    Nothing in [startDatasetMode] keeps it from being called while an
    earlier call of it is suspended at its [await].  The Generate
    button is disabled in the status [generating] only, and Stop
    leaves that status at once: after a stop with a call in flight,
    Generate starts a second loop, and puts [isAbortedRef] back to
    [false], so that the first loop goes on as well.  Clear Bin and
    the reset of the workspace are there in every status.  The
    actions below are the callers of [setTask] and the writers of the
    ref; no other handler of the page writes the task.

    The loops share the state of the page, which they write through
    the functional updaters, and the ref.  What a loop reads through
    its closure is its own: the poses it goes through and the settings
    of the render in which Generate was pressed. *)

(** One call of [startDatasetMode]. *)
Record Thread := {
  (** the settings its closure holds *)
  closure : Settings;
  th_loop : Loop;
  (** its constant [selectedPoses] *)
  th_poses : list DatasetPose;
  (** the synthesis calls it has made, oldest first *)
  th_issued : list (DatasetPose * string);
  (** its calls that have settled, oldest first *)
  th_settled : list Outcome
}.

Record Studio := {
  (** the state of the page *)
  live : App;
  (** every call of [startDatasetMode] so far, oldest first *)
  threads : list Thread
}.

Inductive Action :=
  | Generate                     (* the Generate Batch button *)
  | Stop                         (* the Stop Batch button *)
  | ClearBin                     (* Clear Bin, pressed a second time *)
  | Reset                        (* the reset of the workspace, confirmed *)
  | Proceed (i : nat) (d : Draws) (* loop i goes on from the top of an iteration *)
  | Settles (i : nat) (o : ProviderOutcome) (now1 now2 : N). (* its call settles *)

(** The loop has not returned. *)
Definition alive (t : Thread) : bool :=
  match th_loop t with NotRunning => false | _ => true end.

(** The page is past the key screen ([if (!isKeyConfirmed) return]). *)
Definition mainScreen (a : App) : bool := isKeyConfirmed a.

(** The studio is rendered, not the upload screen
    ([!sourceImage && profileMode === 'auto' ? upload : studio]). *)
Definition studioScreen (a : App) : bool :=
  negb (negb (Js.truthy_opt (sourceImage (settings a)))
        && match profileMode (settings a) with auto => true | manual => false end).

(** The button of an action is rendered and enabled: Generate in the
    pose panel, which is there with a ready profile
    ([isProfileReady() && ...]), and disabled while the status is
    [generating] or nothing is selected; Stop in the progress panel of
    the status [generating]; Clear Bin with a gallery that is not
    empty; the reset in the studio.  The turns of a loop need no
    button. *)
Definition canPress (a : Action) (p : App) : bool :=
  match a with
  | Generate =>
      mainScreen p && studioScreen p && isProfileReady (settings p)
      && negb (isGenerating p || (size (selectedPoseIds p) =? 0)%nat)
  | Stop => mainScreen p && isGenerating p
  | ClearBin =>
      mainScreen p && match gallery p with [] => false | _ :: _ => true end
  | Reset => mainScreen p && studioScreen p
  | Proceed _ _ | Settles _ _ _ _ => true
  end.

(** What [executeClearBin] does to the state of the batch. *)
Definition clearBin (a : App) : App :=
  setFailedAssets (fun _ => [])
    (setTask (fun _ => pendingTask) (setGallery (fun _ => []) a)).

(** A loop as the machine of one batch: the page as it is now, with
    the settings of the closure. *)
Definition seen (a : App) (t : Thread) : Machine :=
  {| app := setSettings (fun _ => closure t) a; loop := th_loop t;
     selectedPoses := th_poses t; issued := th_issued t; settled := th_settled t |}.

Definition kept (c : Settings) (m : Machine) : Thread :=
  {| closure := c; th_loop := loop m; th_poses := selectedPoses m;
     th_issued := issued m; th_settled := settled m |}.

(** One turn of loop [i]: what it writes goes to the page, whose
    settings it does not touch. *)
Definition onThread (i : nat) (f : Machine -> Machine) (s : Studio) : Studio :=
  match threads s !! i with
  | None => s
  | Some t =>
      let m := f (seen (live s) t) in
      {| live := setSettings (fun _ => settings (live s)) (app m);
         threads := <[i := kept (closure t) m]> (threads s) |}
  end.

Definition reinitializes (a : Action) : bool :=
  match a with Generate | ClearBin | Reset => true | _ => false end.

Section Loops.

Variable POSE_DEFINITIONS : list DatasetPose.
Variable CLOTHING_LIST : list string.
Variable FACIAL_EXPRESSIONS : list string.

(** A call of [startDatasetMode]: past its guard it is one more loop,
    at the top of its first iteration. *)
Definition generate (s : Studio) : Studio :=
  if canStart (live s) then
    let m := startDatasetMode POSE_DEFINITIONS (idle (live s)) in
    {| live := app m; threads := threads s ++ [kept (settings (live s)) m] |}
  else s.

Definition act (s : Studio) (a : Action) : Studio :=
  if canPress a (live s) then
    match a with
    | Generate => generate s
    | Stop => {| live := stopGeneration (live s); threads := threads s |}
    | ClearBin => {| live := clearBin (live s); threads := threads s |}
    | Reset => {| live := resetAll true (live s); threads := threads s |}
    | Proceed i d => onThread i (resume CLOTHING_LIST FACIAL_EXPRESSIONS d) s
    | Settles i o now1 now2 => onThread i (settle o now1 now2) s
    end
  else s.

Definition perform (s : Studio) (acts : list Action) : Studio := fold_left act acts s.

(** Every action of the list finds its button when its turn comes. *)
Fixpoint enabled (s : Studio) (acts : list Action) : bool :=
  match acts with
  | [] => true
  | a :: rest => canPress a (live s) && enabled (act s a) rest
  end.

(** The page before any batch. *)
Definition opened (a : App) : Studio := {| live := a; threads := [] |}.

End Loops.

(** What a loop keeps to itself: its poses in order are those settled,
    those it still holds and those it never reached, and every call
    it made has settled or is in flight. *)
Definition ordered (t : Thread) : Prop :=
  (exists unreached,
     (outcomePose <$> th_settled t) ++ pendingPoses (th_loop t) ++ unreached = th_poses t)
  /\ th_issued t = (outcomeCall <$> th_settled t) ++ inFlight (th_loop t).

(** The page runs one batch, loop [n], which is the machine [m] of a
    batch on its own; every other loop has returned. *)
Definition represents (n : nat) (s : Studio) (m : Machine) : Prop :=
  live s = app m
  /\ threads s !! n = Some (kept (settings (app m)) m)
  /\ forall j t, j <> n -> threads s !! j = Some t -> alive t = false.

(** The task a batch starts from. *)
Definition freshTask (a : App) : GenerationTask :=
  {| status := generating; total := size (selectedPoseIds a); current := 0;
     images := []; error := None |}.

(** *** Two claims of the specification as stated, over all loops *)

Section ClaimsOfLoops.

Variable POSE_DEFINITIONS : list DatasetPose.
Variable CLOTHING_LIST : list string.
Variable FACIAL_EXPRESSIONS : list string.

(** [task.current] never passes [task.total]. *)
Definition CurrentWithinTotal : Prop :=
  forall (a0 : App) (acts : list Action),
    task a0 = pendingTask ->
    let s := perform POSE_DEFINITIONS CLOTHING_LIST FACIAL_EXPRESSIONS (opened a0) acts in
    current (task (live s)) <= total (task (live s)).

(** After a call has settled with an authorization failure no call is
    made. *)
Definition NoCallAfterFatal : Prop :=
  forall (a0 : App) (acts acts' : list Action) (i : nat) (t : Thread)
         (pose : DatasetPose) (prompt : string) (rest : list DatasetPose)
         (o : ProviderOutcome) (now1 now2 : N) (message : string),
    task a0 = pendingTask ->
    let s := perform POSE_DEFINITIONS CLOTHING_LIST FACIAL_EXPRESSIONS (opened a0) acts in
    threads s !! i = Some t -> th_loop t = Awaiting pose prompt rest ->
    generateCharacterImage o = Thrown message -> isAuthFailure message = true ->
    let s1 := act POSE_DEFINITIONS CLOTHING_LIST FACIAL_EXPRESSIONS s
                (Settles i o now1 now2) in
    let s2 := perform POSE_DEFINITIONS CLOTHING_LIST FACIAL_EXPRESSIONS s1 acts' in
    th_issued <$> threads s2 = th_issued <$> threads s1.

End ClaimsOfLoops.

(** *** Schedules of the sample page *)

Module Overlap.

(** Two poses are selected. *)
Definition page : Studio := opened (Sample.appWith Sample2.two).

(** The call of loop [i] settles and the loop goes on, as it does in
    the same turn. *)
Definition turn (i : nat) (o : ProviderOutcome) (now : N) : list Action :=
  [Settles i o now (now + 1)%N; Proceed i Sample.draw].

(** Generate; Stop with the first call in flight; Generate again, and
    the second loop makes its first call: both loops are alive. *)
Definition twoLoops : list Action :=
  [Generate; Proceed 0 Sample.draw; Stop; Generate; Proceed 1 Sample.draw].

(** Every call of both loops gives an image. *)
Definition bothSucceed : list Action :=
  twoLoops ++ turn 0 Sample.image 10 ++ turn 1 Sample.image 12
           ++ turn 0 Sample.image 14 ++ turn 1 Sample.image 16.

(** The second loop goes on to its end. *)
Definition secondGoesOn : list Action :=
  turn 1 Sample.image 12 ++ turn 1 Sample.image 14.

(** One batch on its own: an image, a failure, and a stop with the
    third call in flight. *)
Definition alone : list Action :=
  turn 0 Sample.image 10 ++ turn 0 Sample.noCandidates 12 ++ [Stop].

(** One batch of one pose to its end. *)
Definition toTheEnd : list Action := [Proceed 0 Sample.draw] ++ turn 0 Sample.image 10.

(** The loop of the first batch with its second call in flight. *)
Definition secondCall : Thread :=
  {| closure := Sample.cfg;
     th_loop := Awaiting Sample.rearLeft (Sample2.prompt Sample.rearLeft) [];
     th_poses := [Sample.front; Sample.rearLeft];
     th_issued := [(Sample.front, Sample2.prompt Sample.front);
                   (Sample.rearLeft, Sample2.prompt Sample.rearLeft)];
     th_settled := [Succeeded Sample.front
                      (newImage Sample.front "data:image/png;base64,QUJD"
                         (Sample2.prompt Sample.front) 10 11)] |}.

End Overlap.

(** ** Lemmas on the record of settled calls *)

Lemma successImages_app (l1 l2 : list Outcome) :
  successImages (l1 ++ l2) = successImages l1 ++ successImages l2.
Proof.
  induction l1 as [|o l1 IH]; simpl; [reflexivity|].
  destruct o; simpl; rewrite IH; reflexivity.
Qed.

Lemma successPoses_app (l1 l2 : list Outcome) :
  successPoses (l1 ++ l2) = successPoses l1 ++ successPoses l2.
Proof.
  induction l1 as [|o l1 IH]; simpl; [reflexivity|].
  destruct o; simpl; rewrite IH; reflexivity.
Qed.

Lemma failureAssets_app (l1 l2 : list Outcome) :
  failureAssets (l1 ++ l2) = failureAssets l1 ++ failureAssets l2.
Proof.
  induction l1 as [|o l1 IH]; simpl; [reflexivity|].
  destruct o; simpl; rewrite IH; reflexivity.
Qed.

Lemma processed_snoc (l : list Outcome) (o : Outcome) :
  length (filter isProcessed (l ++ [o]))
  = length (filter isProcessed l) + (if isProcessed o then 1 else 0).
Proof.
  rewrite filter_app, length_app. f_equal.
  destruct o; reflexivity.
Qed.

Lemma successImages_length (l : list Outcome) :
  length (successImages l) = length (filter isSuccess l).
Proof.
  induction l as [|o l IH]; [reflexivity|].
  destruct o; simpl; rewrite ?IH; reflexivity.
Qed.


(** ** Lemmas on the catalog filter *)

Lemma selectPoses_elem (catalog : list DatasetPose) (ids : gset string) (p : DatasetPose) :
  p ∈ selectPoses catalog ids <-> pose_id p ∈ ids /\ p ∈ catalog.
Proof. unfold selectPoses. rewrite list_elem_of_filter. reflexivity. Qed.

Lemma selectPoses_ids_unique (catalog : list DatasetPose) (ids : gset string) :
  NoDup (pose_id <$> catalog) -> NoDup (pose_id <$> selectPoses catalog ids).
Proof.
  unfold selectPoses.
  induction catalog as [|p l IH]; intros Hnd.
  - constructor.
  - rewrite fmap_cons in Hnd. apply NoDup_cons in Hnd as [Hp Hl].
    rewrite filter_cons. destruct (decide (pose_id p ∈ ids)).
    + rewrite fmap_cons. apply NoDup_cons. split; [|apply IH; assumption].
      intros Hin. apply Hp. apply list_elem_of_fmap in Hin as (q & Hq & Hqin).
      apply list_elem_of_filter in Hqin as [_ Hqin].
      apply list_elem_of_fmap. exists q. split; assumption.
    + apply IH; assumption.
Qed.

(** The loop has at most as many poses as the selection has ids. *)
Lemma selectPoses_length (catalog : list DatasetPose) (ids : gset string) :
  NoDup (pose_id <$> catalog) -> length (selectPoses catalog ids) <= size ids.
Proof.
  intros Hnd. apply (selectPoses_ids_unique _ ids) in Hnd.
  rewrite <- (length_fmap pose_id).
  rewrite <- (size_list_to_set (C := gset string) _ Hnd).
  apply subseteq_size. intros x Hx.
  apply elem_of_list_to_set in Hx.
  apply list_elem_of_fmap in Hx as (q & -> & Hq).
  apply selectPoses_elem in Hq. tauto.
Qed.

Lemma same_id_same_pose (l : list DatasetPose) (p q : DatasetPose) :
  NoDup (pose_id <$> l) -> p ∈ l -> q ∈ l -> pose_id p = pose_id q -> p = q.
Proof.
  induction l as [|x l IH]; intros Hnd Hp Hq Heq.
  - inversion Hp.
  - rewrite fmap_cons in Hnd. apply NoDup_cons in Hnd as [Hx Hl].
    apply elem_of_cons in Hp as [->|Hp]; apply elem_of_cons in Hq as [->|Hq].
    + reflexivity.
    + exfalso. apply Hx. rewrite Heq. apply list_elem_of_fmap. eauto.
    + exfalso. apply Hx. rewrite <- Heq. apply list_elem_of_fmap. eauto.
    + apply IH; assumption.
Qed.

(** ** The invariant is kept by every event *)

Section Preservation.

Variable POSE_DEFINITIONS : list DatasetPose.
Variable CLOTHING_LIST : list string.
Variable FACIAL_EXPRESSIONS : list string.
Hypothesis ids_unique : NoDup (pose_id <$> POSE_DEFINITIONS).

Local Abbreviation Inv' := (Inv POSE_DEFINITIONS).
Local Abbreviation step' := (step POSE_DEFINITIONS CLOTHING_LIST FACIAL_EXPRESSIONS).
Local Abbreviation run' := (run POSE_DEFINITIONS CLOTHING_LIST FACIAL_EXPRESSIONS).
Local Abbreviation resume' := (resume CLOTHING_LIST FACIAL_EXPRESSIONS).
Local Abbreviation start' := (startDatasetMode POSE_DEFINITIONS).

Lemma Inv_start (m : Machine) :
  canStart (app m) = true -> Inv' (start' m).
Proof.
  intros Hc. unfold startDatasetMode. rewrite Hc. simpl.
  constructor; simpl.
  - reflexivity.
  - reflexivity.
  - exists (gallery (app m)). reflexivity.
  - reflexivity.
  - apply selectPoses_length, ids_unique.
  - eexists. reflexivity.
  - exists []. rewrite app_nil_r. reflexivity.
  - intros p Hp. apply selectPoses_elem in Hp as [Hp _].
    split; [intros _ Hin; inversion Hin | intros _; exact Hp].
  - reflexivity.
  - constructor.
  - left. split; reflexivity.
Qed.

Lemma Inv_stop (m : Machine) :
  Inv' m -> isGenerating (app m) = true ->
  Inv' {| app := stopGeneration (app m); loop := loop m;
          selectedPoses := selectedPoses m; issued := issued m;
          settled := settled m |}.
Proof.
  intros [] Hg. constructor; simpl; try assumption.
  destruct (loop m); [reflexivity | right; split; reflexivity ..].
Qed.

Lemma Inv_finish (m : Machine) (rest : list DatasetPose) :
  Inv' m -> loop m = AtBoundary rest ->
  (rest = [] \/ isAbortedRef (app m) = true) -> Inv' (finish m).
Proof.
  intros [Hcur Himg Hgal Hfail Htot Hcat Hord Hsel Hiss Hrec Hflag] Hl Hr.
  rewrite Hl in *. simpl in *.
  assert (Hfld : forall a' : App,
    a' = (if isAbortedRef (app m) then app m else setTask (withStatus completed) (app m)) ->
    current (task a') = current (task (app m)) /\
    images (task a') = images (task (app m)) /\
    gallery a' = gallery (app m) /\ failedAssets a' = failedAssets (app m) /\
    total (task a') = total (task (app m)) /\
    selectedPoseIds a' = selectedPoseIds (app m) /\
    isTerminal (status (task a')) = true).
  { intros a' ->. destruct (isAbortedRef (app m)) eqn:Hab; simpl; repeat split.
    destruct Hflag as [[_ Hf]|[-> _]]; [discriminate | reflexivity]. }
  destruct (Hfld _ eq_refl) as (E1 & E2 & E3 & E4 & E5 & E6 & E7).
  unfold finish. constructor; simpl; rewrite ?E1, ?E2, ?E3, ?E4, ?E5, ?E6; try assumption.
  - lia.
  - destruct Hord as [u Hu]. exists (rest ++ u). exact Hu.
Qed.

Lemma Inv_resume (m : Machine) (d : Draws) : Inv' m -> Inv' (resume' d m).
Proof.
  intros Hinv. unfold resume.
  destruct (loop m) as [|[|pose rest]|] eqn:Hl; try exact Hinv.
  - apply (Inv_finish m []); auto.
  - destruct (isAbortedRef (app m)) eqn:Hab.
    + apply (Inv_finish m (pose :: rest)); auto.
    + destruct Hinv as [Hcur Himg Hgal Hfail Htot Hcat Hord Hsel Hiss Hrec Hflag].
      rewrite Hl in *. simpl in *.
      constructor; simpl; try assumption.
      rewrite Hiss, app_nil_r. reflexivity.
Qed.

Lemma Inv_settle (m : Machine) (o : ProviderOutcome) (now1 now2 : N) :
  Inv' m -> Inv' (settle o now1 now2 m).
Proof.
  intros Hinv. unfold settle.
  destruct (loop m) as [| |pose prompt rest] eqn:Hl; try exact Hinv.
  destruct Hinv as [Hcur Himg Hgal Hfail Htot Hcat Hord Hsel Hiss Hrec Hflag].
  rewrite Hl in *. simpl in *.
  destruct (generateCharacterImage o) as [url|message].
  - (* the call succeeded *)
    constructor; simpl.
    + rewrite processed_snoc, Hcur. reflexivity.
    + rewrite successImages_app, rev_app_distr, Himg. reflexivity.
    + destruct Hgal as [old ->]. exists old. reflexivity.
    + rewrite failureAssets_app, app_nil_r. exact Hfail.
    + lia.
    + exact Hcat.
    + destruct Hord as [u Hu]. exists u. rewrite fmap_app, <- app_assoc. exact Hu.
    + intros p Hp. rewrite successPoses_app. simpl.
      rewrite elem_of_difference, elem_of_singleton, (Hsel p Hp).
      rewrite not_elem_of_app, list_elem_of_singleton.
      assert (Hpose : pose ∈ selectedPoses m).
      { destruct Hord as [u <-]. rewrite !elem_of_app, elem_of_cons. tauto. }
      destruct Hcat as [ids Hids]. rewrite Hids in Hp, Hpose.
      pose proof (selectPoses_ids_unique _ ids ids_unique) as Hnd.
      split; intros [H1 H2]; split; trivial.
      * intros ->. apply H2. reflexivity.
      * intros Heq. apply H2. eapply same_id_same_pose; eauto.
    + rewrite fmap_app, Hiss, <- app_assoc. reflexivity.
    + apply Forall_app. split; [exact Hrec|]. apply Forall_singleton.
      simpl. eauto.
    + exact Hflag.
  - destruct (isAuthFailure message) eqn:Hfatal.
    + (* the one fatal class *)
      constructor; simpl.
      * rewrite processed_snoc, Hcur. simpl. lia.
      * rewrite successImages_app, app_nil_r. exact Himg.
      * exact Hgal.
      * rewrite failureAssets_app, app_nil_r. exact Hfail.
      * lia.
      * exact Hcat.
      * destruct Hord as [u Hu]. exists (rest ++ u).
        rewrite fmap_app, <- app_assoc. exact Hu.
      * intros p Hp. rewrite successPoses_app, app_nil_r. apply Hsel, Hp.
      * rewrite fmap_app, Hiss, <- app_assoc. reflexivity.
      * apply Forall_app. split; [exact Hrec|]. apply Forall_singleton.
        exact Hfatal.
      * reflexivity.
    + (* any other failure *)
      constructor; simpl.
      * rewrite processed_snoc, Hcur. reflexivity.
      * rewrite successImages_app, app_nil_r. exact Himg.
      * exact Hgal.
      * rewrite failureAssets_app, rev_app_distr, Hfail. reflexivity.
      * lia.
      * exact Hcat.
      * destruct Hord as [u Hu]. exists u. rewrite fmap_app, <- app_assoc. exact Hu.
      * intros p Hp. rewrite successPoses_app, app_nil_r. apply Hsel, Hp.
      * rewrite fmap_app, Hiss, <- app_assoc. reflexivity.
      * apply Forall_app. split; [exact Hrec|]. apply Forall_singleton.
        simpl. eauto.
      * exact Hflag.
Qed.

Lemma Inv_step (m : Machine) (e : Event) : Inv' m -> Inv' (step' m e).
Proof.
  intros Hinv. destruct e as [| |d|o now1 now2]; simpl.
  - destruct (isGenerating (app m) || isRunning m); [exact Hinv|].
    destruct (canStart (app m)) eqn:Hc.
    + apply Inv_start, Hc.
    + unfold startDatasetMode. rewrite Hc. exact Hinv.
  - destruct (isGenerating (app m)) eqn:Hg; [|exact Hinv].
    apply Inv_stop; assumption.
  - apply Inv_resume, Hinv.
  - apply Inv_settle, Hinv.
Qed.

Lemma Inv_run (es : list Event) (m : Machine) : Inv' m -> Inv' (run' m es).
Proof.
  revert m. induction es as [|e es IH]; intros m Hinv; simpl.
  - exact Hinv.
  - apply IH, Inv_step, Hinv.
Qed.

(** Every state of a batch that started satisfies the invariant. *)
Lemma Inv_batch (m0 : Machine) (es : list Event) :
  canStart (app m0) = true -> Inv' (run' (start' m0) es).
Proof. intros Hc. apply Inv_run, Inv_start, Hc. Qed.

End Preservation.

Lemma processed_split (l : list Outcome) :
  length (filter isProcessed l)
  = length (filter isSuccess l) + length (filter isRecovered l).
Proof.
  induction l as [|o l IH]; [reflexivity|].
  destruct o; rewrite !filter_cons; simpl; rewrite ?IH; lia.
Qed.

Lemma outcomeCall_pose (l : list Outcome) :
  fst <$> (outcomeCall <$> l) = outcomePose <$> l.
Proof.
  induction l as [|o l IH]; [reflexivity|].
  rewrite !fmap_cons, IH. destruct o; reflexivity.
Qed.


Lemma successPoses_images (l : list Outcome) :
  Forall wellFormed l ->
  Forall2 (fun p img => exists now1 now2,
             img = newImage p (img_url img) (img_prompt img) now1 now2)
          (successPoses l) (successImages l).
Proof.
  induction 1 as [|o l Ho Hl IH]; [constructor|].
  destruct o; simpl; try exact IH. constructor; [exact Ho | exact IH].
Qed.




(** ** The batch run: counts, order, selection *)

Section Batch.

Variable POSE_DEFINITIONS : list DatasetPose.
Variable CLOTHING_LIST : list string.
Variable FACIAL_EXPRESSIONS : list string.
Hypothesis ids_unique : NoDup (pose_id <$> POSE_DEFINITIONS).

Local Abbreviation step' := (step POSE_DEFINITIONS CLOTHING_LIST FACIAL_EXPRESSIONS).
Local Abbreviation run' := (run POSE_DEFINITIONS CLOTHING_LIST FACIAL_EXPRESSIONS).
Local Abbreviation start' := (startDatasetMode POSE_DEFINITIONS).
Local Abbreviation Inv_batch' :=
  (Inv_batch POSE_DEFINITIONS CLOTHING_LIST FACIAL_EXPRESSIONS ids_unique).




End Batch.

(** ** Stopping, failing, finishing *)

Lemma trimStart_spaces (s : string) : onlySpaces s = true -> Js.trimStart s = "".
Proof.
  induction s as [|c s IH]; [reflexivity|]. simpl.
  destruct (Js.is_space c); [exact IH | discriminate].
Qed.

Lemma trim_spaces (s : string) : onlySpaces s = true -> Js.trim s = "".
Proof. intros H. unfold Js.trim. rewrite (trimStart_spaces s H). reflexivity. Qed.

Section Scenarios.

Variable POSE_DEFINITIONS : list DatasetPose.
Variable CLOTHING_LIST : list string.
Variable FACIAL_EXPRESSIONS : list string.

Local Abbreviation step' := (step POSE_DEFINITIONS CLOTHING_LIST FACIAL_EXPRESSIONS).
Local Abbreviation run' := (run POSE_DEFINITIONS CLOTHING_LIST FACIAL_EXPRESSIONS).
Local Abbreviation start' := (startDatasetMode POSE_DEFINITIONS).
Local Abbreviation prompt' := (composePrompt CLOTHING_LIST FACIAL_EXPRESSIONS).

(** *** One event at a time, through the view *)

Ltac open_view V :=
  unfold view in V; injection V as Vl Va Vs Vc Vi Vf Vq Vg.

(** Reduces the machine's own functions and projections, and nothing
    of the selection, the prompts or the records. *)
Ltac exec :=
  cbn [step resume settle finish view
       loop app issued settled selectedPoses
       settings isKeyConfirmed selectedPoseIds gallery failedAssets task isAbortedRef
       status total current images error
       setTask setGallery setFailedAssets setSelectedPoseIds setIsKeyConfirmed
       setAborted withImage withProcessed withStatus withFailure stopGeneration
       isGenerating isRunning length] in *.

Ltac by_cases m :=
  destruct m as [[? ? ? ? ? [? ? ? ? ?] ?] ? ? ? ?]; exec; subst; exec;
  try reflexivity.

Lemma view_facts (m : Machine) l ab st cur n fas iss cfg :
  view m = {| v_loop := l; v_aborted := ab; v_status := st; v_current := cur;
              v_images := n; v_failed := fas; v_issued := iss;
              v_settings := cfg |} ->
  loop m = l /\ status (task (app m)) = st /\ current (task (app m)) = cur
  /\ length (images (task (app m))) = n /\ failedAssets (app m) = fas
  /\ issued m = iss.
Proof. intros V. open_view V. repeat split; assumption. Qed.

Lemma view_start (m0 : Machine) :
  canStart (app m0) = true ->
  view (start' m0)
  = {| v_loop := AtBoundary (selectPoses POSE_DEFINITIONS (selectedPoseIds (app m0)));
       v_aborted := false; v_status := generating; v_current := 0;
       v_images := 0; v_failed := []; v_issued := [];
       v_settings := settings (app m0) |}.
Proof. intros Hc. unfold startDatasetMode. rewrite Hc. reflexivity. Qed.

Lemma view_resume (m : Machine) (d : Draws) p rest st cur n fas iss cfg :
  view m = {| v_loop := AtBoundary (p :: rest); v_aborted := false;
              v_status := st; v_current := cur; v_images := n;
              v_failed := fas; v_issued := iss; v_settings := cfg |} ->
  view (step' m (EvResume d))
  = {| v_loop := Awaiting p (prompt' cfg p d) rest; v_aborted := false;
       v_status := st; v_current := cur; v_images := n; v_failed := fas;
       v_issued := iss ++ [(p, prompt' cfg p d)]; v_settings := cfg |}.
Proof.
  intros V. open_view V. by_cases m.
Qed.

Lemma view_break (m : Machine) (d : Draws) rest st cur n fas iss cfg :
  view m = {| v_loop := AtBoundary rest; v_aborted := true;
              v_status := st; v_current := cur; v_images := n;
              v_failed := fas; v_issued := iss; v_settings := cfg |} ->
  view (step' m (EvResume d))
  = {| v_loop := NotRunning; v_aborted := true;
       v_status := st; v_current := cur; v_images := n; v_failed := fas;
       v_issued := iss; v_settings := cfg |}.
Proof.
  intros V. open_view V. by_cases m. destruct rest; reflexivity.
Qed.

Lemma view_finish (m : Machine) (d : Draws) st cur n fas iss cfg :
  view m = {| v_loop := AtBoundary []; v_aborted := false;
              v_status := st; v_current := cur; v_images := n;
              v_failed := fas; v_issued := iss; v_settings := cfg |} ->
  view (step' m (EvResume d))
  = {| v_loop := NotRunning; v_aborted := false;
       v_status := completed; v_current := cur; v_images := n; v_failed := fas;
       v_issued := iss; v_settings := cfg |}.
Proof.
  intros V. open_view V. by_cases m.
Qed.

Lemma view_resolved (m : Machine) (o : ProviderOutcome) (now1 now2 : N) url
    p prompt rest ab st cur n fas iss cfg :
  generateCharacterImage o = Resolved url ->
  view m = {| v_loop := Awaiting p prompt rest; v_aborted := ab;
              v_status := st; v_current := cur; v_images := n;
              v_failed := fas; v_issued := iss; v_settings := cfg |} ->
  view (step' m (EvSettle o now1 now2))
  = {| v_loop := AtBoundary rest; v_aborted := ab;
       v_status := st; v_current := cur + 1; v_images := S n; v_failed := fas;
       v_issued := iss; v_settings := cfg |}.
Proof.
  intros Ho V. open_view V. by_cases m. rewrite Ho. exec. reflexivity.
Qed.

Lemma view_recovered (m : Machine) (o : ProviderOutcome) (now1 now2 : N) message
    p prompt rest ab st cur n fas iss cfg :
  generateCharacterImage o = Thrown message ->
  isAuthFailure message = false ->
  view m = {| v_loop := Awaiting p prompt rest; v_aborted := ab;
              v_status := st; v_current := cur; v_images := n;
              v_failed := fas; v_issued := iss; v_settings := cfg |} ->
  view (step' m (EvSettle o now1 now2))
  = {| v_loop := AtBoundary rest; v_aborted := ab;
       v_status := st; v_current := cur + 1; v_images := n;
       v_failed := newFailedAsset p message prompt now1 now2 :: fas;
       v_issued := iss; v_settings := cfg |}.
Proof.
  intros Ho Hm V. open_view V. by_cases m. rewrite Ho, Hm. exec. reflexivity.
Qed.

(** A call that does not end the batch adds one to [current], whatever
    it settles with. *)
Lemma view_processed (m : Machine) (o : ProviderOutcome) (now1 now2 : N)
    p prompt rest ab st cur n fas iss cfg :
  isFatal o = false ->
  view m = {| v_loop := Awaiting p prompt rest; v_aborted := ab;
              v_status := st; v_current := cur; v_images := n;
              v_failed := fas; v_issued := iss; v_settings := cfg |} ->
  exists n' fas',
    view (step' m (EvSettle o now1 now2))
    = {| v_loop := AtBoundary rest; v_aborted := ab;
         v_status := st; v_current := cur + 1; v_images := n'; v_failed := fas';
         v_issued := iss; v_settings := cfg |}.
Proof.
  unfold isFatal. intros Ho V.
  destruct (generateCharacterImage o) as [url|message] eqn:E.
  - eexists _, _. eapply view_resolved; eassumption.
  - eexists _, _. eapply view_recovered; eassumption.
Qed.

Lemma view_stop (m : Machine) l ab cur n fas iss cfg :
  view m = {| v_loop := l; v_aborted := ab;
              v_status := generating; v_current := cur; v_images := n;
              v_failed := fas; v_issued := iss; v_settings := cfg |} ->
  view (step' m EvStop)
  = {| v_loop := l; v_aborted := true;
       v_status := stopped; v_current := cur; v_images := n; v_failed := fas;
       v_issued := iss; v_settings := cfg |}.
Proof.
  intros V. open_view V. by_cases m.
Qed.

(** C3. [stopGeneration] sets the flag and the status [stopped] at
    once.  The loop reads the flag at the top of an iteration only: of
    five selected poses, with a stop between the second and the third
    the loop ends before the third begins, with status [stopped] and
    [current = 2]; a stop while the second call is in flight leaves
    that call to settle and ends the loop at the same place. *)
Theorem stop_between_poses (m0 : Machine) (p1 p2 p3 p4 p5 : DatasetPose)
    (d1 d2 d3 : Draws) (o1 o2 : ProviderOutcome) (a1 a2 b1 b2 : N) :
  canStart (app m0) = true ->
  selectPoses POSE_DEFINITIONS (selectedPoseIds (app m0)) = [p1; p2; p3; p4; p5] ->
  isFatal o1 = false -> isFatal o2 = false ->
  (forall a, isAbortedRef (stopGeneration a) = true
             /\ status (task (stopGeneration a)) = stopped)
  /\ (let m2 := run' (start' m0)
                  [EvResume d1; EvSettle o1 a1 a2; EvResume d2; EvSettle o2 b1 b2] in
      let m3 := run' m2 [EvStop; EvResume d3] in
      loop m2 = AtBoundary [p3; p4; p5]
      /\ status (task (app (step' m2 EvStop))) = stopped
      /\ loop m3 = NotRunning
      /\ status (task (app m3)) = stopped
      /\ current (task (app m3)) = 2
      /\ fst <$> issued m3 = [p1; p2])
  /\ (let m := run' (start' m0)
                 [EvResume d1; EvSettle o1 a1 a2; EvResume d2; EvStop] in
      let m' := run' m [EvSettle o2 b1 b2; EvResume d3] in
      loop m = Awaiting p2 (prompt' (settings (app m0)) p2 d2) [p3; p4; p5]
      /\ status (task (app m)) = stopped
      /\ loop m' = NotRunning
      /\ status (task (app m')) = stopped
      /\ current (task (app m')) = 2
      /\ fst <$> issued m' = [p1; p2]).
Proof.
  intros Hc Hsel H1 H2.
  split; [intros a; split; reflexivity|].
  pose proof (view_start m0 Hc) as V0. rewrite Hsel in V0.
  apply (view_resume _ d1) in V0.
  destruct (view_processed _ o1 a1 a2 _ _ _ _ _ _ _ _ _ _ H1 V0) as (n1 & f1 & V1).
  apply (view_resume _ d2) in V1.
  split.
  - destruct (view_processed _ o2 b1 b2 _ _ _ _ _ _ _ _ _ _ H2 V1) as (n2 & f2 & V2).
    pose proof (view_stop _ _ _ _ _ _ _ _ V2) as V3.
    pose proof (view_break _ d3 _ _ _ _ _ _ _ V3) as V4.
    apply view_facts in V2 as (L2 & _).
    apply view_facts in V3 as (_ & S3 & _).
    apply view_facts in V4 as (L4 & S4 & C4 & _ & _ & Q4).
    cbn [run fold_left].
    repeat split; try assumption.
    rewrite Q4. reflexivity.
  - pose proof (view_stop _ _ _ _ _ _ _ _ V1) as V2.
    destruct (view_processed _ o2 b1 b2 _ _ _ _ _ _ _ _ _ _ H2 V2) as (n3 & f3 & V3).
    pose proof (view_break _ d3 _ _ _ _ _ _ _ V3) as V4.
    apply view_facts in V2 as (L2 & S2 & _).
    apply view_facts in V4 as (L4 & S4 & C4 & _ & _ & Q4).
    cbn [run fold_left].
    repeat split; try assumption.
    rewrite Q4. reflexivity.
Qed.

(** C9. A failure outside the fatal class puts one [FailedAsset] with
    the pose's label, the message, the prompt of the call and the time
    in front of the list, adds one to [task.current] and leaves the
    loop at the next pose; of five selected poses of which only the
    third fails, with no candidates, the batch ends [completed] with
    [current = 5], four images and that one failed asset. *)
Theorem failure_is_recorded (m0 : Machine) (p1 p2 p3 p4 p5 : DatasetPose)
    (d1 d2 d3 d4 d5 d6 : Draws) (o1 o2 o3 o4 o5 : ProviderOutcome)
    (u1 u2 u4 u5 : string) (t1 t2 t3 t4 t5 t1' t2' t3' t4' t5' : N) :
  canStart (app m0) = true ->
  selectPoses POSE_DEFINITIONS (selectedPoseIds (app m0)) = [p1; p2; p3; p4; p5] ->
  generateCharacterImage o1 = Resolved u1 ->
  generateCharacterImage o2 = Resolved u2 ->
  o3 = Fulfilled None \/ o3 = Fulfilled (Some []) ->
  generateCharacterImage o4 = Resolved u4 ->
  generateCharacterImage o5 = Resolved u5 ->
  (forall m pose prompt rest o now1 now2 message,
     loop m = Awaiting pose prompt rest ->
     generateCharacterImage o = Thrown message ->
     isAuthFailure message = false ->
     let m' := step' m (EvSettle o now1 now2) in
     failedAssets (app m')
     = {| fa_id := "failed-" +:+ pretty now1 +:+ "-" +:+ pose_id pose;
          fa_label := pose_label pose; fa_message := message;
          fa_prompt := prompt; fa_timestamp := now2 |} :: failedAssets (app m)
     /\ current (task (app m')) = current (task (app m)) + 1
     /\ images (task (app m')) = images (task (app m))
     /\ status (task (app m')) = status (task (app m))
     /\ loop m' = AtBoundary rest)
  /\ (let m := run' (start' m0)
                 [EvResume d1; EvSettle o1 t1 t1'; EvResume d2; EvSettle o2 t2 t2';
                  EvResume d3; EvSettle o3 t3 t3'; EvResume d4; EvSettle o4 t4 t4';
                  EvResume d5; EvSettle o5 t5 t5'; EvResume d6] in
      status (task (app m)) = completed
      /\ current (task (app m)) = 5
      /\ length (images (task (app m))) = 4
      /\ failedAssets (app m)
         = [newFailedAsset p3 "The model did not return any candidates."
              (prompt' (settings (app m0)) p3 d3) t3 t3']
      /\ fa_label <$> failedAssets (app m) = [pose_label p3]
      /\ issued m !! 2 = Some (p3, prompt' (settings (app m0)) p3 d3)
      /\ loop m = NotRunning).
Proof.
  intros Hc Hsel H1 H2 H3 H4 H5. split.
  - intros m pose prompt rest o now1 now2 message Hl Ho Hm.
    cbn [step]. unfold settle. rewrite Hl, Ho, Hm.
    repeat split; reflexivity.
  - assert (H3' : generateCharacterImage o3
                  = Thrown "The model did not return any candidates.").
    { destruct H3 as [-> | ->]; reflexivity. }
    pose proof (view_start m0 Hc) as V. rewrite Hsel in V.
    apply (view_resume _ d1) in V. apply (view_resolved _ o1 t1 t1' _ _ _ _ _ _ _ _ _ _ _ H1) in V.
    apply (view_resume _ d2) in V. apply (view_resolved _ o2 t2 t2' _ _ _ _ _ _ _ _ _ _ _ H2) in V.
    apply (view_resume _ d3) in V.
    apply (view_recovered _ o3 t3 t3' _ _ _ _ _ _ _ _ _ _ _ H3' eq_refl) in V.
    apply (view_resume _ d4) in V. apply (view_resolved _ o4 t4 t4' _ _ _ _ _ _ _ _ _ _ _ H4) in V.
    apply (view_resume _ d5) in V. apply (view_resolved _ o5 t5 t5' _ _ _ _ _ _ _ _ _ _ _ H5) in V.
    apply (view_finish _ d6) in V.
    apply view_facts in V as (L & S & C & I & F & Q).
    cbn [run fold_left].
    repeat split; try assumption.
    + rewrite F. reflexivity.
    + rewrite Q. reflexivity.
Qed.

(** C10. When a precondition of the batch fails (no reference image,
    no profile, in particular a manual profile of white space only, no
    confirmed key, or an empty selection) the call changes nothing:
    task, gallery, failed assets and selection are as before. *)
Theorem start_refused_is_noop (m : Machine) :
  Js.truthy_opt (sourceImage (settings (app m))) = false
  \/ isProfileReady (settings (app m)) = false
  \/ (profileMode (settings (app m)) = manual
      /\ onlySpaces (manualCharacterProfile (settings (app m))) = true)
  \/ isKeyConfirmed (app m) = false
  \/ selectedPoseIds (app m) = ∅ ->
  start' m = m
  /\ step' m EvStart = m
  /\ (profileMode (settings (app m)) = manual ->
      onlySpaces (manualCharacterProfile (settings (app m))) = true ->
      isProfileReady (settings (app m)) = false
      /\ getActiveProfile (settings (app m)) = None).
Proof.
  assert (Hno : canStart (app m) = false -> start' m = m).
  { intros Hc. unfold startDatasetMode. rewrite Hc. reflexivity. }
  assert (Hready : profileMode (settings (app m)) = manual ->
                   onlySpaces (manualCharacterProfile (settings (app m))) = true ->
                   isProfileReady (settings (app m)) = false
                   /\ getActiveProfile (settings (app m)) = None).
  { intros Hm Hs. unfold isProfileReady, getActiveProfile.
    rewrite Hm, (trim_spaces _ Hs). split; reflexivity. }
  intros H.
  assert (Hc : canStart (app m) = false).
  { unfold canStart. destruct H as [-> | [-> | [[Hm Hs] | [-> | ->]]]].
    - reflexivity.
    - rewrite andb_false_r. reflexivity.
    - destruct (Hready Hm Hs) as [-> _]. rewrite andb_false_r. reflexivity.
    - rewrite andb_false_r. reflexivity.
    - rewrite size_empty, andb_false_r. reflexivity. }
  split; [apply Hno, Hc|]. split; [|exact Hready].
  cbn [step].
  destruct (isGenerating (app m) || isRunning m); [reflexivity | apply Hno, Hc].
Qed.

End Scenarios.

(** ** Strings: appending, lower case, fragments *)

Lemma append_String (x : ascii) (a b : string) :
  String x a +:+ b = String x (a +:+ b).
Proof. reflexivity. Qed.

Lemma append_assoc (a b c : string) : (a +:+ b) +:+ c = a +:+ (b +:+ c).
Proof.
  induction a as [|x a IH]; [reflexivity|].
  rewrite !append_String, IH. reflexivity.
Qed.

Lemma append_empty_r (a : string) : a +:+ "" = a.
Proof.
  induction a as [|x a IH]; [reflexivity|].
  rewrite append_String, IH. reflexivity.
Qed.

Lemma toLowerCase_app (a b : string) :
  Js.toLowerCase (a +:+ b) = Js.toLowerCase a +:+ Js.toLowerCase b.
Proof.
  induction a as [|x a IH]; [reflexivity|].
  rewrite append_String. simpl. rewrite IH. reflexivity.
Qed.

Lemma toLowerCase_join (l : list string) :
  Js.toLowerCase (Js.join "." l) = Js.join "." (Js.toLowerCase <$> l).
Proof.
  induction l as [|f l IH]; [reflexivity|].
  destruct l as [|g l]; [reflexivity|].
  change (Js.join "." (f :: g :: l)) with (f +:+ "." +:+ Js.join "." (g :: l)).
  rewrite !toLowerCase_app, IH. reflexivity.
Qed.

Lemma includes_unfold (s w : string) :
  Js.includes s w
  = if Js.startsWith s w then true
    else match s with EmptyString => false | String _ s' => Js.includes s' w end.
Proof. destruct s; reflexivity. Qed.

(** A word without a full stop that begins a text does so before the
    first full stop. *)
Lemma startsWith_before_dot (w s1 s2 : string) :
  hasDot w = false ->
  Js.startsWith (s1 +:+ String "." s2) w = true -> Js.startsWith s1 w = true.
Proof.
  revert s1. induction w as [|a w IH]; intros s1 Hw H.
  - destruct s1; reflexivity.
  - simpl in Hw. apply orb_false_elim in Hw as [Ha Hw].
    destruct s1 as [|b s1].
    + change ("" +:+ String "." s2) with (String "." s2) in H. simpl in H.
      rewrite Ha in H. discriminate.
    + rewrite append_String in H. simpl in *.
      destruct (Ascii.eqb a b); [|discriminate]. apply IH; assumption.
Qed.

Lemma includes_across_dot (w s1 s2 : string) :
  hasDot w = false ->
  Js.includes (s1 +:+ String "." s2) w = true ->
  Js.includes s1 w = true \/ Js.includes s2 w = true.
Proof.
  intros Hw. induction s1 as [|b s1 IH]; intros H.
  - rewrite includes_unfold in H. change ("" +:+ String "." s2) with (String "." s2) in H.
    destruct (Js.startsWith (String "." s2) w) eqn:E.
    + left. rewrite includes_unfold.
      rewrite (startsWith_before_dot w "" s2 Hw E). reflexivity.
    + right. exact H.
  - rewrite includes_unfold in H.
    destruct (Js.startsWith (String b s1 +:+ String "." s2) w) eqn:E.
    + left. rewrite includes_unfold.
      rewrite (startsWith_before_dot w (String b s1) s2 Hw E). reflexivity.
    + change (String b s1 +:+ String "." s2) with (String b (s1 +:+ String "." s2)) in H.
      destruct (IH H) as [Hl|Hr]; [left | right; exact Hr].
      rewrite includes_unfold, Hl. destruct (Js.startsWith (String b s1) w); reflexivity.
Qed.

(** A word without a full stop that is in none of the fragments is not
    in their join. *)
Lemma includes_join (w : string) (l : list string) :
  hasDot w = false -> w <> "" ->
  (forall f, f ∈ l -> Js.includes f w = false) ->
  Js.includes (Js.join "." l) w = false.
Proof.
  intros Hw Hne. induction l as [|f l IH]; intros Hl.
  - destruct w; [congruence | reflexivity].
  - destruct l as [|g l].
    + apply Hl. apply elem_of_cons. left. reflexivity.
    + change (Js.join "." (f :: g :: l)) with (f +:+ String "." (Js.join "." (g :: l))).
      destruct (Js.includes (f +:+ String "." (Js.join "." (g :: l))) w) eqn:E;
        [|reflexivity].
      apply includes_across_dot in E as [E|E]; [| |exact Hw].
      * rewrite Hl in E; [discriminate|]. apply elem_of_cons. left. reflexivity.
      * rewrite IH in E; [discriminate|].
        intros h Hh. apply Hl. apply elem_of_cons. right. exact Hh.
Qed.

Lemma keepFragment_words (f w : string) :
  keepFragment f = true -> w ∈ bodyWords -> Js.includes (Js.toLowerCase f) w = false.
Proof.
  unfold keepFragment, bodyWords. intros H Hw.
  apply andb_prop in H as [H H3]. apply andb_prop in H as [H1 H2].
  apply negb_true_iff in H1, H2, H3.
  repeat (apply elem_of_cons in Hw as [->|Hw]; [assumption|]).
  inversion Hw.
Qed.

(** The text left by the filter holds none of the three words. *)
Lemma stripBodyLanguage_clean (profile w : string) :
  w ∈ bodyWords ->
  Js.includes (Js.toLowerCase (stripBodyLanguage profile)) w = false.
Proof.
  intros Hw. unfold stripBodyLanguage. rewrite toLowerCase_join.
  apply includes_join.
  - unfold bodyWords in Hw.
    repeat (apply elem_of_cons in Hw as [->|Hw]; [reflexivity|]). inversion Hw.
  - unfold bodyWords in Hw.
    repeat (apply elem_of_cons in Hw as [->|Hw]; [discriminate|]). inversion Hw.
  - intros f Hf. apply list_elem_of_fmap in Hf as (g & -> & Hg).
    apply list_elem_of_filter in Hg as [Hk _].
    apply keepFragment_words; [|exact Hw].
    destruct (keepFragment g); [reflexivity | contradiction].
Qed.

Lemma split_pieces (s : string) :
  Js.split "." s <> [] /\ Forall (fun f => hasDot f = false) (Js.split "." s).
Proof.
  induction s as [|c s [Hne IH]]; simpl.
  - split; [discriminate | repeat constructor].
  - destruct (Ascii.eqb c ".") eqn:E.
    + split; [discriminate|]. constructor; [reflexivity | exact IH].
    + destruct (Js.split "." s) as [|f fs]; [congruence|].
      split; [discriminate|].
      apply Forall_cons in IH as [Hf Hfs].
      constructor; [simpl; rewrite E, Hf; reflexivity | exact Hfs].
Qed.

Lemma split_one (f : string) : hasDot f = false -> Js.split "." f = [f].
Proof.
  induction f as [|c f IH]; intros H; [reflexivity|].
  simpl in *. apply orb_false_elim in H as [Hc Hf].
  rewrite Hc, (IH Hf). reflexivity.
Qed.

Lemma split_cons (f s : string) :
  hasDot f = false -> Js.split "." (f +:+ String "." s) = f :: Js.split "." s.
Proof.
  induction f as [|c f IH]; intros H; [reflexivity|].
  rewrite append_String. simpl in *. apply orb_false_elim in H as [Hc Hf].
  rewrite Hc, (IH Hf). reflexivity.
Qed.

(** Splitting a join of fragments gives the fragments back. *)
Lemma split_join (l : list string) :
  l <> [] -> Forall (fun f => hasDot f = false) l ->
  Js.split "." (Js.join "." l) = l.
Proof.
  induction l as [|f l IH]; intros Hne Hl; [congruence|].
  apply Forall_cons in Hl as [Hf Hl].
  destruct l as [|g l].
  - apply split_one, Hf.
  - change (Js.join "." (f :: g :: l)) with (f +:+ String "." (Js.join "." (g :: l))).
    rewrite (split_cons _ _ Hf), IH; [reflexivity | discriminate | exact Hl].
Qed.

Lemma startsWith_app (a b : string) : Js.startsWith (a +:+ b) a = true.
Proof.
  induction a as [|x a IH]; [destruct b; reflexivity|].
  rewrite append_String. simpl. rewrite Ascii.eqb_refl. exact IH.
Qed.

(** ** The prompt: orientation and identity *)

Section Prompt.

Variable CLOTHING_LIST : list string.
Variable FACIAL_EXPRESSIONS : list string.

Local Abbreviation prompt' := (composePrompt CLOTHING_LIST FACIAL_EXPRESSIONS).

(** A prompt begins with its orientation clause when there is one. *)
Lemma prompt_orientation (cfg : Settings) (pose : DatasetPose) (dr : Draws) :
  Js.truthy (directionMod (Js.toLowerCase (pose_description pose))) = true ->
  Js.startsWith (prompt' cfg pose dr)
    ("DATASET PRODUCTION. "
     +:+ directionMod (Js.toLowerCase (pose_description pose)) +:+ " TARGET POSE: ")
  = true.
Proof.
  intros Ht. unfold composePrompt. cbv zeta. rewrite Ht.
  rewrite (append_assoc (directionMod _) " ").
  match goal with
  | |- Js.startsWith (_ +:+ _ +:+ " " +:+ "TARGET POSE: " +:+ ?t) _ = _ =>
      change (" " +:+ "TARGET POSE: " +:+ t) with (" TARGET POSE: " +:+ t)
  end.
  rewrite <- (append_assoc (directionMod _) " TARGET POSE: ").
  rewrite <- (append_assoc "DATASET PRODUCTION. ").
  apply startsWith_app.
Qed.

(** C6, as the code has it.  For a description with "rear" and "left"
    the orientation clause has the rear-view text (subject facing away
    from camera) and the text for the camera behind and to the right,
    which names the left side as the visible one; the right side is
    named only when the description also has "right". *)
Theorem rear_left_orientation (pose : DatasetPose) :
  let d := Js.toLowerCase (pose_description pose) in
  Js.includes d "rear" = true ->
  Js.includes d "left" = true ->
  directionMod d
  = "CRITICAL: SHOT ORIENTATION — Rear view. Subject is facing away from camera. "
    +:+ "Camera positioned behind and to the right — seeing back of head and left side only. "
    +:+ (if Js.includes d "right"
         then "Camera positioned behind and to the left — seeing back of head and right side only. "
         else "")
    +:+ (if Js.includes d "looking back at camera"
         then "Subject is looking back at the camera over their shoulder, but primary body orientation is maintained. "
         else "")
    +:+ "ABSOLUTELY NO FULL FRONTAL FACE. DO NOT TURN SUBJECT TOWARD CAMERA."
  /\ Js.includes (directionMod d) "Rear view. Subject is facing away from camera." = true
  /\ Js.includes (directionMod d)
       "Camera positioned behind and to the right — seeing back of head and left side only."
     = true
  /\ (Js.includes d "right" = false -> Js.includes (directionMod d) "right side" = false)
  /\ forall cfg dr,
       Js.startsWith (prompt' cfg pose dr)
         ("DATASET PRODUCTION. " +:+ directionMod d +:+ " TARGET POSE: ") = true.
Proof.
  intros d Hrear Hleft.
  assert (E : directionMod d
    = "CRITICAL: SHOT ORIENTATION — Rear view. Subject is facing away from camera. "
    +:+ "Camera positioned behind and to the right — seeing back of head and left side only. "
    +:+ (if Js.includes d "right"
         then "Camera positioned behind and to the left — seeing back of head and right side only. "
         else "")
    +:+ (if Js.includes d "looking back at camera"
         then "Subject is looking back at the camera over their shoulder, but primary body orientation is maintained. "
         else "")
    +:+ "ABSOLUTELY NO FULL FRONTAL FACE. DO NOT TURN SUBJECT TOWARD CAMERA.").
  { unfold directionMod, direction.
    cbn [isRear isOverShoulder isLeft isRight isProfile is45 isFrontal].
    rewrite Hrear, Hleft. cbn [orb addIf].
    destruct (Js.includes d "right"), (Js.includes d "looking back at camera");
      reflexivity. }
  assert (Ht : Js.truthy (directionMod d) = true).
  { rewrite E.
    destruct (Js.includes d "right"), (Js.includes d "looking back at camera");
      reflexivity. }
  split; [exact E|].
  split; [|split; [|split]].
  - rewrite E.
    destruct (Js.includes d "right"), (Js.includes d "looking back at camera");
      vm_compute; reflexivity.
  - rewrite E.
    destruct (Js.includes d "right"), (Js.includes d "looking back at camera");
      vm_compute; reflexivity.
  - intros Hr. rewrite E, Hr.
    destruct (Js.includes d "looking back at camera"); vm_compute; reflexivity.
  - intros cfg dr. apply prompt_orientation, Ht.
Qed.

End Prompt.

Lemma includes_prefix (s w : string) : Js.startsWith s w = true -> Js.includes s w = true.
Proof. intros H. rewrite includes_unfold, H. reflexivity. Qed.

Lemma includes_app_r (a s w : string) :
  Js.includes s w = true -> Js.includes (a +:+ s) w = true.
Proof.
  intros H. induction a as [|x a IH]; [exact H|].
  rewrite append_String, includes_unfold, IH.
  destruct (Js.startsWith (String x (a +:+ s)) w); reflexivity.
Qed.

(** The fragments of the text left by the filter are the fragments
    the filter kept. *)
Lemma stripBodyLanguage_fragments (profile : string) :
  Js.split "." (stripBodyLanguage profile)
  = match filter keepFragment (Js.split "." profile) with
    | [] => [""]
    | l => l
    end.
Proof.
  unfold stripBodyLanguage.
  destruct (filter keepFragment (Js.split "." profile)) as [|f l] eqn:E;
    [reflexivity|].
  apply split_join; [discriminate|].
  rewrite <- E. apply Forall_forall. intros g Hg.
  apply list_elem_of_filter in Hg as [_ Hg].
  destruct (split_pieces profile) as [_ Hall].
  rewrite Forall_forall in Hall. apply Hall, Hg.
Qed.

Section Identity.

Variable CLOTHING_LIST : list string.
Variable FACIAL_EXPRESSIONS : list string.

Local Abbreviation prompt' := (composePrompt CLOTHING_LIST FACIAL_EXPRESSIONS).

(** C7, as the code has it.  In the prompt of a portrait the identity
    clause embeds the identity profile without the fragments (split at
    the full stops) whose lower-case form has "body build",
    "proportion" or "waist": the embedded text holds none of the three
    words, and its fragments are the fragments kept, in order.  The
    hair directive that follows it quotes the hair text of the whole
    profile. *)
Theorem portrait_profile_is_stripped (cfg : Settings) (pose : DatasetPose)
    (profile : string) :
  pose_group pose = portrait ->
  getActiveProfile cfg = Some profile ->
  Js.truthy profile = true ->
  getLockedIdentityMod cfg true (sideProfileOf pose)
  = "IDENTITY CONSTRAINTS: " +:+ poseConstraint (sideProfileOf pose)
    +:+ " Eyes: " +:+ eyeColor (adjustments cfg)
    +:+ ". Profile: " +:+ stripBodyLanguage profile +:+ "."
    +:+ hairDirective cfg profile
  /\ (forall w, w ∈ bodyWords ->
        Js.includes (Js.toLowerCase (stripBodyLanguage profile)) w = false)
  /\ Js.split "." (stripBodyLanguage profile)
     = match filter keepFragment (Js.split "." profile) with
       | [] => [""]
       | l => l
       end
  /\ (forall f, f ∈ Js.split "." (stripBodyLanguage profile) -> keepFragment f = true)
  /\ forall d,
       Js.includes (prompt' cfg pose d)
         (getLockedIdentityMod cfg true (sideProfileOf pose)) = true.
Proof.
  intros Hg Ha Ht. split; [|split; [|split; [|split]]].
  - unfold getLockedIdentityMod, hairDirective, embeddedProfile.
    rewrite Ha, Ht. cbn [negb andb].
    destruct (isHairLocked cfg && Js.truthy (hairPartOf profile)).
    + rewrite !append_assoc. reflexivity.
    + rewrite append_empty_r. reflexivity.
  - intros w Hw. apply stripBodyLanguage_clean, Hw.
  - apply stripBodyLanguage_fragments.
  - intros f Hf. rewrite stripBodyLanguage_fragments in Hf.
    destruct (filter keepFragment (Js.split "." profile)) as [|g l] eqn:E.
    + apply list_elem_of_singleton in Hf. subst f. reflexivity.
    + rewrite <- E in Hf. apply list_elem_of_filter in Hf as [Hk _].
      destruct (keepFragment f); [reflexivity | contradiction].
  - intros d. unfold composePrompt. cbv zeta. rewrite Hg.
    change (DatasetGroup_eqb portrait portrait) with true.
    do 11 apply includes_app_r.
    apply includes_prefix, startsWith_app.
Qed.

End Identity.

(** ** The statements at the sample catalog *)

Lemma sample_ids_unique : NoDup (pose_id <$> Sample.catalog).
Proof. refine (bool_decide_unpack _ _). vm_compute. exact I. Qed.

(** C4, counterexample.  One pose is selected; Stop is pressed while
    its call is in flight, which makes the task [stopped]; the call
    then succeeds and the task gets the image and [current = 1]. *)
Lemma settle_after_stop_changes_task :
  let m := Sample.machine {[ "p01" ]} [EvStart; EvResume Sample.draw; EvStop] in
  let m' := step Sample.catalog Sample.clothing Sample.expressions m
              (EvSettle Sample.image 10 11) in
  (status (task (app m)) = stopped
   /\ current (task (app m)) = 0 /\ length (images (task (app m))) = 0
   /\ status (task (app m')) = stopped
   /\ current (task (app m')) = 1 /\ length (images (task (app m'))) = 1)
  /\ ~ TerminalIsFinal Sample.catalog Sample.clothing Sample.expressions.
Proof.
  split; [vm_compute; repeat split; reflexivity|].
  intros H.
  assert (Hc : canStart (app (idle (Sample.appWith {[ "p01" ]}))) = true)
    by (vm_compute; reflexivity).
  specialize (H (idle (Sample.appWith {[ "p01" ]})) [EvResume Sample.draw; EvStop]
                (EvSettle Sample.image 10 11) Hc).
  cbv zeta in H.
  assert (Ht : isTerminal (status (task (app
            (run Sample.catalog Sample.clothing Sample.expressions
               (startDatasetMode Sample.catalog (idle (Sample.appWith {[ "p01" ]})))
               [EvResume Sample.draw; EvStop])))) = true)
    by (vm_compute; reflexivity).
  specialize (H Ht eq_refl).
  apply (f_equal current) in H.
  vm_compute in H. discriminate H.
Qed.


(** C6, counterexample.  "Rear view, body turned to the LEFT": the
    clause names the left side and not the right one. *)
Lemma rear_left_names_left_side :
  (Js.includes (directionMod (Js.toLowerCase (pose_description Sample.rearLeft)))
     "left side only" = true
   /\ Js.includes (directionMod (Js.toLowerCase (pose_description Sample.rearLeft)))
        "right side" = false)
  /\ ~ RearLeftShowsRightSide.
Proof.
  split; [vm_compute; split; reflexivity|].
  intros H.
  destruct (H (pose_description Sample.rearLeft) eq_refl eq_refl) as (_ & _ & H3).
  vm_compute in H3. discriminate H3.
Qed.

(** C7, counterexample.  The profile has the fragment
    "HAIR: waist-length, straight": it is filtered out of the profile
    text of the portrait, and the hair directive quotes its hair text,
    "waist" included. *)
Lemma hair_directive_keeps_waist :
  (Js.includes
     (composePrompt Sample.clothing Sample.expressions Sample.cfg Sample.front Sample.draw)
     "MANDATORY HAIR CONSISTENCY: waist-length, straight." = true
   /\ Js.includes (pose_description Sample.front) "waist" = false)
  /\ ~ PortraitWithoutBodyLanguage Sample.clothing Sample.expressions.
Proof.
  split; [vm_compute; split; reflexivity|].
  intros H.
  specialize (H Sample.cfg Sample.front Sample.draw
                "HAIR: waist-length, straight. FACE: oval. BODY: slim waist."
                "waist-length, straight" eq_refl eq_refl).
  assert (H' := H ltac:(vm_compute; reflexivity) ltac:(vm_compute; reflexivity)).
  vm_compute in H'. discriminate H'.
Qed.

(** ** The theorems at the sample catalog *)

Ltac sample :=
  first [ vm_compute; reflexivity
        | refine (bool_decide_unpack _ _); vm_compute; exact I ].

Lemma stop_between_poses_witness :
  let m2 := run Sample.catalog Sample.clothing Sample.expressions
              (startDatasetMode Sample.catalog (idle (Sample.appWith Sample.allIds)))
              [EvResume Sample.draw; EvSettle Sample.image 10 11;
               EvResume Sample.draw; EvSettle Sample.noCandidates 12 13] in
  let m3 := run Sample.catalog Sample.clothing Sample.expressions m2
              [EvStop; EvResume Sample.draw] in
  loop m2 = AtBoundary [Sample.sideRight; Sample.walking; Sample.seated]
  /\ loop m3 = NotRunning
  /\ status (task (app m3)) = stopped
  /\ current (task (app m3)) = 2.
Proof.
  intros m2 m3.
  destruct (stop_between_poses Sample.catalog Sample.clothing Sample.expressions
              (idle (Sample.appWith Sample.allIds))
              Sample.front Sample.rearLeft Sample.sideRight Sample.walking Sample.seated
              Sample.draw Sample.draw Sample.draw Sample.image Sample.noCandidates
              10 11 12 13
              ltac:(sample) ltac:(sample) ltac:(sample) ltac:(sample))
    as (_ & (H1 & _ & H3 & H4 & H5 & _) & _).
  repeat split; assumption.
Defined.


Lemma rear_left_orientation_witness :
  Js.includes (directionMod (Js.toLowerCase (pose_description Sample.rearLeft)))
    "Camera positioned behind and to the right — seeing back of head and left side only."
  = true.
Proof.
  destruct (rear_left_orientation Sample.clothing Sample.expressions Sample.rearLeft
              ltac:(sample) ltac:(sample)) as (_ & _ & H & _).
  exact H.
Defined.

Lemma portrait_profile_is_stripped_witness :
  Js.includes
    (Js.toLowerCase
       (stripBodyLanguage "HAIR: waist-length, straight. FACE: oval. BODY: slim waist."))
    "waist" = false
  /\ Js.split "."
       (stripBodyLanguage "HAIR: waist-length, straight. FACE: oval. BODY: slim waist.")
     = [" FACE: oval"; ""].
Proof.
  destruct (portrait_profile_is_stripped Sample.clothing Sample.expressions
              Sample.cfg Sample.front
              "HAIR: waist-length, straight. FACE: oval. BODY: slim waist."
              ltac:(sample) ltac:(sample) ltac:(sample)) as (_ & H & H' & _).
  split.
  - apply H. unfold bodyWords. rewrite !elem_of_cons. right. right. left. reflexivity.
  - rewrite H'. sample.
Defined.


Lemma failure_is_recorded_witness :
  let m := run Sample.catalog Sample.clothing Sample.expressions
             (startDatasetMode Sample.catalog (idle (Sample.appWith Sample.allIds)))
             [EvResume Sample.draw; EvSettle Sample.image 1 2;
              EvResume Sample.draw; EvSettle Sample.image 3 4;
              EvResume Sample.draw; EvSettle Sample.noCandidates 5 6;
              EvResume Sample.draw; EvSettle Sample.image 7 8;
              EvResume Sample.draw; EvSettle Sample.image 9 10;
              EvResume Sample.draw] in
  status (task (app m)) = completed
  /\ current (task (app m)) = 5
  /\ length (images (task (app m))) = 4
  /\ fa_label <$> failedAssets (app m) = ["Profile right"].
Proof.
  intros m.
  destruct (failure_is_recorded Sample.catalog Sample.clothing Sample.expressions
              (idle (Sample.appWith Sample.allIds))
              Sample.front Sample.rearLeft Sample.sideRight Sample.walking Sample.seated
              Sample.draw Sample.draw Sample.draw Sample.draw Sample.draw Sample.draw
              Sample.image Sample.image Sample.noCandidates Sample.image Sample.image
              "data:image/png;base64,QUJD" "data:image/png;base64,QUJD"
              "data:image/png;base64,QUJD" "data:image/png;base64,QUJD"
              1 3 5 7 9 2 4 6 8 10
              ltac:(sample) ltac:(sample) ltac:(sample) ltac:(sample)
              ltac:(right; reflexivity) ltac:(sample) ltac:(sample))
    as (_ & H1 & H2 & H3 & _ & H5 & _).
  repeat split; assumption.
Defined.

Lemma start_refused_is_noop_witness :
  let m := idle {| settings :=
                     {| userApiKey := "key";
                        sourceImage := Some "data:image/png;base64,AAAA";
                        profileMode := manual;
                        characterProfile := None;
                        manualCharacterProfile := "   ";
                        resolution := R1K; isBodyLocked := false;
                        isHairLocked := true;
                        adjustments := adjustments Sample.cfg |};
                   isKeyConfirmed := true; selectedPoseIds := Sample.allIds;
                   gallery := []; failedAssets := []; task := pendingTask;
                   isAbortedRef := false |} in
  isProfileReady (settings (app m)) = false
  /\ startDatasetMode Sample.catalog m = m.
Proof.
  intros m.
  destruct (start_refused_is_noop Sample.catalog Sample.clothing Sample.expressions m
              ltac:(right; right; left; split; reflexivity)) as (H1 & _ & H3).
  split; [|exact H1]. apply H3; reflexivity.
Defined.

(** ** The client: which outcomes end a batch *)

(** What [generateCharacterImage] makes of a response, whatever it
    holds: an image url, or one of three messages, none of them of the
    fatal class. *)
Lemma response_not_fatal (candidates : option (list Candidate)) :
  isFatal (Fulfilled candidates) = false
  /\ ((exists payload,
         generateCharacterImage (Fulfilled candidates)
         = Resolved ("data:image/png;base64," +:+ payload))
      \/ generateCharacterImage (Fulfilled candidates)
         = Thrown "The model did not return any candidates."
      \/ generateCharacterImage (Fulfilled candidates)
         = Thrown "Generation blocked by safety filters or empty response."
      \/ generateCharacterImage (Fulfilled candidates)
         = Thrown "No image data found in the response parts.").
Proof.
  unfold isFatal.
  destruct candidates as [[|c cs]|]; cbn [generateCharacterImage];
    try (split; [reflexivity | right; left; reflexivity]).
  destruct (content_parts c) as [[|p ps]|];
    try (split; [reflexivity | right; right; left; reflexivity]).
  destruct (find hasInlineData (p :: ps)) as [[[b|]]|];
    try (split; [reflexivity | right; right; right; reflexivity]).
  split; [reflexivity|]. left. eexists. reflexivity.
Qed.

Lemma rejection_fatal (message : string) :
  isFatal (Rejected message)
  = Js.includes message "Requested entity was not found"
    || Js.includes message "401" || String.eqb message "API_KEY_EXPIRED"
  /\ (Js.includes message "Requested entity was not found" = true ->
      generateCharacterImage (Rejected message) = Thrown "API_KEY_EXPIRED")
  /\ (Js.includes message "Requested entity was not found" = false ->
      generateCharacterImage (Rejected message) = Thrown message).
Proof.
  unfold isFatal, generateCharacterImage, rethrow, isAuthFailure.
  destruct (Js.includes message "Requested entity was not found");
    repeat split; try reflexivity; discriminate.
Qed.

(** X1.  Only a call the provider rejects can end a batch, and it does
    exactly when its message has the missing-entity text or "401", or
    is [API_KEY_EXPIRED]; with the missing-entity text the batch sees
    [API_KEY_EXPIRED] in place of the message, and any other message as
    it is.  A response, whatever it holds, gives an image url or one
    of three messages that let the batch go on. *)
Theorem fatal_only_by_rejection (o : ProviderOutcome) :
  (isFatal o = true
   <-> exists message,
         o = Rejected message
         /\ Js.includes message "Requested entity was not found"
            || Js.includes message "401" || String.eqb message "API_KEY_EXPIRED" = true)
  /\ (forall message, o = Rejected message ->
        generateCharacterImage o
        = Thrown (if Js.includes message "Requested entity was not found"
                  then "API_KEY_EXPIRED" else message))
  /\ (forall candidates, o = Fulfilled candidates ->
        (exists payload,
           generateCharacterImage o = Resolved ("data:image/png;base64," +:+ payload))
        \/ generateCharacterImage o = Thrown "The model did not return any candidates."
        \/ generateCharacterImage o
           = Thrown "Generation blocked by safety filters or empty response."
        \/ generateCharacterImage o = Thrown "No image data found in the response parts.").
Proof.
  split; [|split].
  - destruct o as [message|candidates].
    + destruct (rejection_fatal message) as [-> _]. split.
      * intros H. exists message. split; [reflexivity | exact H].
      * intros (m' & [= <-] & H). exact H.
    + destruct (response_not_fatal candidates) as [-> _]. split.
      * discriminate.
      * intros (m' & Hm & _). discriminate Hm.
  - intros message ->. destruct (rejection_fatal message) as (_ & H1 & H2).
    destruct (Js.includes message "Requested entity was not found");
      [apply H1 | apply H2]; reflexivity.
  - intros candidates ->. exact (proj2 (response_not_fatal candidates)).
Qed.

(** ** The profile: analysis and readiness *)

Lemma ready_active_profile (cfg : Settings) :
  isProfileReady cfg = true
  <-> exists profile, getActiveProfile cfg = Some profile /\ Js.truthy profile = true.
Proof.
  unfold isProfileReady, getActiveProfile.
  destruct (profileMode cfg).
  - destruct (characterProfile cfg) as [p|]; simpl.
    + split; [intros H; exists p; split; [reflexivity | exact H]|].
      intros (q & [= ->] & H). exact H.
    + split; [discriminate | intros (q & H & _); discriminate].
  - destruct (Js.trim (manualCharacterProfile cfg)) as [|c t] eqn:E; simpl.
    + split; [discriminate | intros (q & H & _); discriminate].
    + split; [|reflexivity]. intros _. eexists. split; reflexivity.
Qed.

Lemma trimStart_empty (s : string) : Js.trimStart s = "" -> onlySpaces s = true.
Proof.
  induction s as [|c s IH]; [reflexivity|]. simpl.
  destruct (Js.is_space c); [exact IH | discriminate].
Qed.

Lemma trimStart_head (s : string) (c : ascii) (t : string) :
  Js.trimStart s = String c t -> Js.is_space c = false.
Proof.
  induction s as [|x s IH]; [discriminate|]. simpl.
  destruct (Js.is_space x) eqn:E; [exact IH|]. intros [= -> _]. exact E.
Qed.

Lemma trimEnd_empty (s : string) : Js.trimEnd s = "" -> onlySpaces s = true.
Proof.
  induction s as [|c s IH]; [reflexivity|]. simpl.
  destruct (Js.trimEnd s) as [|x t]; [|discriminate].
  destruct (Js.is_space c); [intros _; apply IH; reflexivity | discriminate].
Qed.

Lemma trim_empty_iff (s : string) : Js.trim s = "" <-> onlySpaces s = true.
Proof.
  split; [|apply trim_spaces].
  unfold Js.trim. intros H. apply trimEnd_empty in H.
  destruct (Js.trimStart s) as [|c t] eqn:E; [apply trimStart_empty, E|].
  apply trimStart_head in E. simpl in H. rewrite E in H. discriminate.
Qed.

Lemma manual_ready (cfg : Settings) :
  profileMode cfg = manual ->
  (isProfileReady cfg = true <-> onlySpaces (manualCharacterProfile cfg) = false).
Proof.
  intros Hm. unfold isProfileReady. rewrite Hm.
  pose proof (trim_empty_iff (manualCharacterProfile cfg)) as H.
  destruct (Js.trim (manualCharacterProfile cfg)) as [|c t]; simpl.
  - rewrite (proj1 H eq_refl). split; discriminate.
  - destruct (onlySpaces (manualCharacterProfile cfg)).
    + destruct H as [_ H]. discriminate (H eq_refl).
    + split; reflexivity.
Qed.

(** X2.  The guard [isProfileReady] and the reader [getActiveProfile]
    agree: the profile is ready exactly when there is an active
    profile that is not the empty text.  In manual mode, for a text
    typed in ASCII, that is when the text has a character that is not
    white space, whatever the analysis left in the automatic profile;
    in automatic mode when the analysis left a text that is not empty,
    white space or not. *)
Theorem profile_ready_iff (cfg : Settings) :
  (isProfileReady cfg = true
   <-> exists profile, getActiveProfile cfg = Some profile /\ Js.truthy profile = true)
  /\ (profileMode cfg = manual ->
      Text.isAscii (manualCharacterProfile cfg) = true ->
      (isProfileReady cfg = true <-> onlySpaces (manualCharacterProfile cfg) = false))
  /\ (profileMode cfg = auto ->
      isProfileReady cfg = Js.truthy_opt (characterProfile cfg)).
Proof.
  split; [apply ready_active_profile|].
  split; [intros Hm _; apply manual_ready, Hm|].
  intros Hm. unfold isProfileReady. rewrite Hm.
  destruct (characterProfile cfg); reflexivity.
Qed.

(** X3.  An analysis that the provider answers always leaves a profile
    that is ready in automatic mode, even when the response has no
    text; nothing else of the state of the batch changes. *)
Theorem analysis_gives_ready_profile (text : option string) (p : Page) :
  profileMode (settings (page_app p)) = auto ->
  let p' := analyzeImage_settle (AnalysisFulfilled text) p in
  isProfileReady (settings (page_app p')) = true
  /\ isAnalyzing p' = false
  /\ characterProfile (settings (page_app p'))
     = Some (match text with
             | Some t => if Js.truthy t then t else "A detailed character profile."
             | None => "A detailed character profile."
             end)
  /\ isKeyConfirmed (page_app p') = isKeyConfirmed (page_app p)
  /\ selectedPoseIds (page_app p') = selectedPoseIds (page_app p)
  /\ task (page_app p') = task (page_app p)
  /\ gallery (page_app p') = gallery (page_app p).
Proof.
  intros Hm. unfold analyzeImage_settle, analyzeCharacter.
  cbn [setIsAnalyzing onApp page_app isAnalyzing setSettings settings
       withCharacterProfile isKeyConfirmed selectedPoseIds task gallery].
  unfold isProfileReady.
  cbn [profileMode characterProfile withCharacterProfile]. rewrite Hm.
  repeat split.
  destruct text as [[|c t]|]; reflexivity.
Qed.

Section AnalysisFailure.

Variable POSE_DEFINITIONS : list DatasetPose.

(** X4.  An analysis that fails keeps the profile there was.  When the
    failure is of the authorization class the key confirmation is
    withdrawn, and Generate then does nothing; any other failure
    leaves the whole state of the batch as it was. *)
Theorem analysis_failure_keeps_profile (o : AnalysisOutcome) (message : string)
    (p : Page) (m : Machine) :
  analyzeCharacter o = Thrown message ->
  app m = page_app (analyzeImage_settle o p) ->
  settings (page_app (analyzeImage_settle o p)) = settings (page_app p)
  /\ isAnalyzing (analyzeImage_settle o p) = false
  /\ (isAuthFailure message = true ->
      isKeyConfirmed (page_app (analyzeImage_settle o p)) = false
      /\ startDatasetMode POSE_DEFINITIONS m = m)
  /\ (isAuthFailure message = false ->
      page_app (analyzeImage_settle o p) = page_app p).
Proof.
  intros Ho Hm. unfold analyzeImage_settle in *. rewrite Ho in *.
  destruct (isAuthFailure message) eqn:Hf.
  - split; [reflexivity|]. split; [reflexivity|]. split; [|discriminate].
    intros _. split; [reflexivity|].
    unfold startDatasetMode, canStart. rewrite Hm.
    cbn [setIsAnalyzing onApp page_app setIsKeyConfirmed isKeyConfirmed].
    rewrite andb_false_r. reflexivity.
  - split; [reflexivity|]. split; [reflexivity|]. split; [discriminate|].
    intros _. reflexivity.
Qed.

End AnalysisFailure.

(** ** The prompt: orientation, body settings, hair *)

(** X5.  The orientation clause never mixes directives.  When the
    description has one of the rear, 45, profile, left or right
    keywords, the clause opens with the orientation header, closes with
    the ban on a frontal face and has no frontal directive; otherwise it
    is the frontal directive alone, or nothing. *)
Theorem orientation_never_conflicts (descLower : string) :
  let dir := direction descLower in
  (isRear dir || is45 dir || isProfile dir || isLeft dir || isRight dir = true ->
     Js.startsWith (directionMod descLower) "CRITICAL: SHOT ORIENTATION — " = true
     /\ (exists body,
           directionMod descLower
           = body +:+ "ABSOLUTELY NO FULL FRONTAL FACE. DO NOT TURN SUBJECT TOWARD CAMERA.")
     /\ Js.includes (directionMod descLower) "Direct frontal view" = false)
  /\ (isRear dir || is45 dir || isProfile dir || isLeft dir || isRight dir = false ->
      directionMod descLower
      = if isFrontal dir
        then "Direct frontal view. Subject looking straight into camera with both eyes fully visible and centered."
        else "").
Proof.
  intros dir. unfold directionMod. cbv zeta. fold dir.
  destruct (isRear dir), (is45 dir), (isProfile dir), (isLeft dir), (isRight dir),
    (isOverShoulder dir);
    cbn [orb addIf]; (split; [intros H | intros H; try discriminate H; reflexivity]);
    try discriminate H;
    (split; [vm_compute; reflexivity |
             split; [eexists; reflexivity | vm_compute; reflexivity]]).
Qed.

Section BodySettings.

Variable CLOTHING_LIST : list string.
Variable FACIAL_EXPRESSIONS : list string.

(** X6.  The body sliders reach the prompt only for a pose that is not a
    portrait, with the body lock off: for a portrait, or with the lock
    on, two settings that differ in build, chest and hips alone give
    the same prompt. *)
Theorem body_sliders_only_when_unlocked (cfg cfg' : Settings) (pose : DatasetPose)
    (d : Draws) :
  getActiveProfile cfg' = getActiveProfile cfg ->
  eyeColor (adjustments cfg') = eyeColor (adjustments cfg) ->
  isHairLocked cfg' = isHairLocked cfg ->
  isBodyLocked cfg' = isBodyLocked cfg ->
  pose_group pose = portrait \/ isBodyLocked cfg = true ->
  composePrompt CLOTHING_LIST FACIAL_EXPRESSIONS cfg' pose d
  = composePrompt CLOTHING_LIST FACIAL_EXPRESSIONS cfg pose d.
Proof.
  intros Hp He Hh Hb Hcase. unfold composePrompt. cbv zeta.
  assert (E : getLockedIdentityMod cfg'
                (DatasetGroup_eqb (pose_group pose) portrait) (sideProfileOf pose)
              = getLockedIdentityMod cfg
                  (DatasetGroup_eqb (pose_group pose) portrait) (sideProfileOf pose)).
  { unfold getLockedIdentityMod. rewrite Hp, He, Hh, Hb.
    destruct (getActiveProfile cfg) as [profile|]; [|reflexivity].
    destruct (negb (Js.truthy profile)); [reflexivity|].
    destruct Hcase as [-> | ->].
    - reflexivity.
    - destruct (DatasetGroup_eqb (pose_group pose) portrait); reflexivity. }
  rewrite E. reflexivity.
Qed.

End BodySettings.

Lemma join_split (s : string) : Js.join "." (Js.split "." s) = s.
Proof.
  induction s as [|c s IH]; [reflexivity|]. simpl.
  destruct (split_pieces s) as [Hne _].
  destruct (Ascii.eqb_spec c ".") as [->|Hc].
  - destruct (Js.split "." s) as [|g r]; [congruence|].
    change (Js.join "." ("" :: g :: r)) with ("" +:+ "." +:+ Js.join "." (g :: r)).
    rewrite IH. reflexivity.
  - destruct (Js.split "." s) as [|f [|g r]]; [congruence| |].
    + simpl in *. rewrite IH. reflexivity.
    + change (Js.join "." (String c f :: g :: r))
        with (String c (f +:+ "." +:+ Js.join "." (g :: r))).
      change (Js.join "." (f :: g :: r)) with (f +:+ "." +:+ Js.join "." (g :: r)) in IH.
      rewrite IH. reflexivity.
Qed.

Lemma filter_all {A} (P : A -> bool) (l : list A) :
  (forall x, x ∈ l -> P x = true) -> filter P l = l.
Proof.
  induction l as [|x l IH]; intros H; [reflexivity|].
  rewrite filter_cons. rewrite (H x) by (apply elem_of_cons; left; reflexivity).
  simpl. rewrite IH; [reflexivity|].
  intros y Hy. apply H. apply elem_of_cons. right. exact Hy.
Qed.

(** X7.  A profile in which no fragment has one of the three words goes
    into the prompt of a portrait as it is: the filter changes
    nothing, not even the punctuation. *)
Theorem clean_profile_unchanged (profile : string) :
  (forall f, f ∈ Js.split "." profile -> keepFragment f = true) ->
  stripBodyLanguage profile = profile
  /\ embeddedProfile true profile = embeddedProfile false profile.
Proof.
  intros H.
  assert (E : stripBodyLanguage profile = profile).
  { unfold stripBodyLanguage. rewrite (filter_all _ _ H). apply join_split. }
  split; [exact E|]. unfold embeddedProfile.
  destruct (Js.truthy profile); [exact E | reflexivity].
Qed.

(** *** The hair text *)

Lemma run_spec (s : string) :
  hasDot (HairRegex.run s) = false /\ exists tail, s = HairRegex.run s +:+ tail.
Proof.
  induction s as [|c s [IH1 [tail IH2]]]; simpl.
  - split; [reflexivity | exists ""; reflexivity].
  - destruct (Ascii.eqb c ".") eqn:E.
    + split; [reflexivity | exists (String c s); reflexivity].
    + split; [simpl; rewrite E; exact IH1|].
      exists tail. rewrite append_String, <- IH2. reflexivity.
Qed.

Lemma trimStart_suffix (s : string) : exists ws, s = ws +:+ Js.trimStart s.
Proof.
  induction s as [|c s [ws IH]]; [exists ""; reflexivity|]. simpl.
  destruct (Js.is_space c).
  - exists (String c ws). rewrite append_String, <- IH. reflexivity.
  - exists "". reflexivity.
Qed.

Lemma last_char_suffix (s : string) : exists pre, s = pre +:+ HairRegex.last_char s.
Proof.
  induction s as [|c s [pre IH]]; [exists ""; reflexivity|].
  destruct s as [|c' s']; [exists ""; reflexivity|].
  exists (String c pre).
  change (HairRegex.last_char (String c (String c' s')))
    with (HairRegex.last_char (String c' s')).
  rewrite append_String, <- IH. reflexivity.
Qed.

Lemma last_char_truthy (s : string) : s <> "" -> Js.truthy (HairRegex.last_char s) = true.
Proof.
  induction s as [|c s IH]; [congruence|]. intros _.
  destruct s as [|c' s']; [reflexivity|].
  change (HairRegex.last_char (String c (String c' s')))
    with (HairRegex.last_char (String c' s')).
  apply IH. discriminate.
Qed.

Lemma hasDot_app (a b : string) : hasDot (a +:+ b) = hasDot a || hasDot b.
Proof.
  induction a as [|c a IH]; [reflexivity|].
  rewrite append_String. simpl. rewrite IH, orb_assoc. reflexivity.
Qed.

Lemma capture_spec (rest h : string) :
  HairRegex.capture rest = Some h ->
  Js.truthy h = true /\ hasDot h = false /\ exists pre post, rest = pre +:+ h +:+ post.
Proof.
  unfold HairRegex.capture. intros H.
  destruct (run_spec rest) as [Hdot [tail Htail]].
  destruct (HairRegex.run rest) as [|c r] eqn:Er; [discriminate|].
  set (rr := String c r) in *.
  assert (Hne : rr <> "") by discriminate.
  clearbody rr.
  destruct (Js.trimStart rr) as [|x t] eqn:Et.
  - injection H as <-.
    destruct (last_char_suffix rr) as [pre Hpre].
    split; [apply last_char_truthy, Hne|]. split.
    + rewrite Hpre, hasDot_app in Hdot. apply orb_false_elim in Hdot. tauto.
    + exists pre, tail. rewrite Htail. rewrite Hpre at 1.
      rewrite append_assoc. reflexivity.
  - injection H as <-.
    destruct (trimStart_suffix rr) as [ws Hws]. rewrite Et in Hws.
    split; [reflexivity|]. split.
    + rewrite Hws, hasDot_app in Hdot. apply orb_false_elim in Hdot. tauto.
    + exists ws, tail. rewrite Htail. rewrite Hws at 1.
      rewrite append_assoc. reflexivity.
Qed.

Lemma skip_suffix (n : nat) (s : string) : exists pre, s = pre +:+ HairRegex.skip n s.
Proof.
  revert s. induction n as [|n IH]; intros s; [exists ""; reflexivity|].
  destruct s as [|c s]; [exists ""; reflexivity|].
  destruct (IH s) as [pre Hpre]. exists (String c pre).
  simpl. rewrite append_String, <- Hpre. reflexivity.
Qed.

(** X8.  The hair text that [getLockedIdentityMod] quotes is never empty,
    has no full stop, and is a piece of the profile. *)
Theorem hair_text_is_a_piece (profile hair : string) :
  HairRegex.exec profile = Some hair ->
  Js.truthy hair = true /\ hasDot hair = false
  /\ exists pre post, profile = pre +:+ hair +:+ post.
Proof.
  induction profile as [|c s IH]; intros H.
  - simpl in H. discriminate.
  - cbn [HairRegex.exec] in H.
    destruct (if Js.startsWith (Js.toLowerCase (String c s)) "hair:"
              then HairRegex.capture (HairRegex.skip 5 (String c s)) else None)
      as [h|] eqn:E.
    + injection H as ->.
      destruct (Js.startsWith (Js.toLowerCase (String c s)) "hair:"); [|discriminate].
      apply capture_spec in E as (Ht & Hd & pre & post & Hrest).
      split; [exact Ht|]. split; [exact Hd|].
      destruct (skip_suffix 5 (String c s)) as [pre0 Hpre0].
      exists (pre0 +:+ pre), post. rewrite Hpre0 at 1. rewrite Hrest.
      rewrite append_assoc. reflexivity.
    + destruct (IH H) as (Ht & Hd & pre & post & Hs).
      split; [exact Ht|]. split; [exact Hd|].
      exists (String c pre), post. rewrite append_String, <- Hs. reflexivity.
Qed.

Lemma run_until_dot (h rest : string) :
  hasDot h = false -> HairRegex.run (h +:+ String "." rest) = h.
Proof.
  induction h as [|c h IH]; intros H; [reflexivity|].
  simpl in H. apply orb_false_elim in H as [Hc Hh].
  rewrite append_String. simpl. rewrite Hc, (IH Hh). reflexivity.
Qed.

Lemma exec_here (s h : string) :
  Js.startsWith (Js.toLowerCase s) "hair:" = true ->
  HairRegex.capture (HairRegex.skip 5 s) = Some h ->
  HairRegex.exec s = Some h.
Proof.
  intros Hs Hc. destruct s as [|c s]; [discriminate|].
  unfold HairRegex.exec; fold HairRegex.exec. rewrite Hs, Hc. reflexivity.
Qed.

(** X9.  A profile in the format the analysis asks for, [HAIR: details.]
    first, gives those details as the hair text, when they start with
    an ASCII character that is not white space. *)
Theorem hair_text_of_format (c : ascii) (details rest : string) :
  (nat_of_ascii c <? 128)%nat = true ->
  Js.is_space c = false -> hasDot (String c details) = false ->
  HairRegex.exec ("HAIR: " +:+ String c details +:+ "." +:+ rest)
  = Some (String c details).
Proof.
  intros _ Hc Hd. apply exec_here; [reflexivity|].
  change (HairRegex.skip 5 ("HAIR: " +:+ String c details +:+ "." +:+ rest))
    with (String " " (String c details) +:+ String "." rest).
  unfold HairRegex.capture. rewrite run_until_dot.
  - simpl. rewrite Hc. reflexivity.
  - simpl in *. exact Hd.
Qed.

(** ** Selection *)

Lemma App_eq (a b : App) :
  settings a = settings b -> isKeyConfirmed a = isKeyConfirmed b ->
  selectedPoseIds a = selectedPoseIds b -> gallery a = gallery b ->
  failedAssets a = failedAssets b -> task a = task b ->
  isAbortedRef a = isAbortedRef b -> a = b.
Proof. destruct a, b. simpl. intros. subst. reflexivity. Qed.

(** X10.  Clicking a pose flips its membership and no other; a second click
    undoes the first. *)
Theorem toggle_pose_flips (id : string) (a : App) :
  (id ∈ selectedPoseIds (togglePoseSelection id a) <-> id ∉ selectedPoseIds a)
  /\ (forall other, other <> id ->
        (other ∈ selectedPoseIds (togglePoseSelection id a)
         <-> other ∈ selectedPoseIds a))
  /\ togglePoseSelection id (togglePoseSelection id a) = a.
Proof.
  unfold togglePoseSelection.
  cbn [setSelectedPoseIds selectedPoseIds].
  split; [|split].
  - destruct (decide (id ∈ selectedPoseIds a)) as [Hin|Hin].
    + rewrite elem_of_difference, elem_of_singleton. tauto.
    + rewrite elem_of_union, elem_of_singleton. tauto.
  - intros other Hne. destruct (decide (id ∈ selectedPoseIds a)).
    + rewrite elem_of_difference, elem_of_singleton. tauto.
    + rewrite elem_of_union, elem_of_singleton. tauto.
  - apply App_eq; try reflexivity.
    cbn [setSelectedPoseIds selectedPoseIds].
    destruct (decide (id ∈ selectedPoseIds a)) as [Hin|Hin].
    + destruct (decide (id ∈ selectedPoseIds a ∖ {[id]})) as [Hin'|_].
      { apply elem_of_difference in Hin' as [_ Hn]. exfalso. apply Hn.
        apply elem_of_singleton. reflexivity. }
      apply set_eq. intros x. rewrite elem_of_union, elem_of_difference,
        elem_of_singleton. destruct (decide (x = id)) as [->|]; tauto.
    + destruct (decide (id ∈ selectedPoseIds a ∪ {[id]})) as [_|Hn].
      2:{ exfalso. apply Hn. apply elem_of_union. right.
          apply elem_of_singleton. reflexivity. }
      apply set_eq. intros x. rewrite elem_of_difference, elem_of_union,
        elem_of_singleton. destruct (decide (x = id)) as [->|]; tauto.
Qed.

Lemma idsOf_elem (poses : list DatasetPose) (id : string) :
  id ∈ idsOf poses <-> exists p, p ∈ poses /\ pose_id p = id.
Proof.
  unfold idsOf. rewrite elem_of_list_to_set, list_elem_of_fmap.
  split; intros (p & H1 & H2); exists p; auto.
Qed.

Lemma forallb_selected (ids : gset string) (poses : list DatasetPose) :
  forallb (fun p => bool_decide (pose_id p ∈ ids)) poses = true
  <-> forall p, p ∈ poses -> pose_id p ∈ ids.
Proof.
  rewrite forallb_forall. split; intros H p Hp.
  - apply list_elem_of_In in Hp. apply H in Hp.
    apply bool_decide_eq_true in Hp. exact Hp.
  - apply bool_decide_eq_true. apply H. apply list_elem_of_In. exact Hp.
Qed.

Lemma filter_all_prop {A} (P : A -> Prop) `{forall x, Decision (P x)} (l : list A) :
  (forall x, x ∈ l -> P x) -> filter P l = l.
Proof.
  induction l as [|x l IH]; intros Hl; [reflexivity|].
  rewrite filter_cons. destruct (decide (P x)) as [_|Hn].
  - f_equal. apply IH. intros y Hy. apply Hl. apply elem_of_cons. right. exact Hy.
  - exfalso. apply Hn, Hl. apply elem_of_cons. left. reflexivity.
Qed.

Lemma selectPoses_all (catalog : list DatasetPose) :
  selectPoses catalog (idsOf catalog) = catalog.
Proof.
  unfold selectPoses. apply filter_all_prop. intros p Hp.
  apply idsOf_elem. exists p. split; [exact Hp | reflexivity].
Qed.

Section SelectionHandlers.

Variable POSE_DEFINITIONS : list DatasetPose.

Local Abbreviation groupPoses' := (groupPoses POSE_DEFINITIONS).
Local Abbreviation toggleGroupAll' := (toggleGroupAll POSE_DEFINITIONS).

(** X11.  The group switch never leaves a group half selected: when every
    pose of the group is selected it deselects them all, otherwise it
    selects them all; ids of no pose of the group are left alone. *)
Theorem group_toggle_all_or_none (group : DatasetGroup) (a : App) :
  let a' := toggleGroupAll' group a in
  ((forall p, p ∈ groupPoses' group -> pose_id p ∈ selectedPoseIds a) ->
     forall p, p ∈ groupPoses' group -> pose_id p ∉ selectedPoseIds a')
  /\ (~ (forall p, p ∈ groupPoses' group -> pose_id p ∈ selectedPoseIds a) ->
      forall p, p ∈ groupPoses' group -> pose_id p ∈ selectedPoseIds a')
  /\ (forall id, id ∉ idsOf (groupPoses' group) ->
        (id ∈ selectedPoseIds a' <-> id ∈ selectedPoseIds a)).
Proof.
  intros a'. unfold a', toggleGroupAll.
  cbn [setSelectedPoseIds selectedPoseIds].
  pose proof (forallb_selected (selectedPoseIds a) (groupPoses' group)) as Hall.
  destruct (forallb _ (groupPoses' group)).
  - split; [|split].
    + intros _ p Hp Hin. apply elem_of_difference in Hin as [_ Hn].
      apply Hn. apply idsOf_elem. exists p. split; [exact Hp | reflexivity].
    + intros Hn. exfalso. apply Hn. apply Hall. reflexivity.
    + intros id Hid. rewrite elem_of_difference. tauto.
  - split; [|split].
    + intros H. apply Hall in H. discriminate.
    + intros _ p Hp. apply elem_of_union. right.
      apply idsOf_elem. exists p. split; [exact Hp | reflexivity].
    + intros id Hid. rewrite elem_of_union. tauto.
Qed.

Hypothesis ids_unique : NoDup (pose_id <$> POSE_DEFINITIONS).

(** X12.  After "select all", a batch that starts goes through the whole
    catalog, in its order, and [task.total] is the number of poses of
    the catalog. *)
Theorem select_all_runs_catalog (m : Machine) :
  let m1 := onMachine (selectRecommended702010 POSE_DEFINITIONS) m in
  canStart (app m1) = true ->
  selectedPoses (startDatasetMode POSE_DEFINITIONS m1) = POSE_DEFINITIONS
  /\ total (task (app (startDatasetMode POSE_DEFINITIONS m1)))
     = length POSE_DEFINITIONS
  /\ loop (startDatasetMode POSE_DEFINITIONS m1) = AtBoundary POSE_DEFINITIONS.
Proof.
  intros m1 Hc. unfold startDatasetMode. rewrite Hc.
  cbn [negb selectedPoses app task total setTask setFailedAssets setAborted loop].
  assert (Hsel : selectedPoseIds (app m1) = idsOf POSE_DEFINITIONS) by reflexivity.
  rewrite Hsel.
  rewrite selectPoses_all.
  repeat split.
  unfold idsOf. rewrite size_list_to_set by exact ids_unique.
  apply length_fmap.
Qed.

End SelectionHandlers.

(** ** More on the batch run *)

Section Preservation2.

Variable POSE_DEFINITIONS : list DatasetPose.
Variable CLOTHING_LIST : list string.
Variable FACIAL_EXPRESSIONS : list string.
Hypothesis ids_unique : NoDup (pose_id <$> POSE_DEFINITIONS).

Local Abbreviation Inv' := (Inv POSE_DEFINITIONS).
Local Abbreviation Inv2' := (Inv2 CLOTHING_LIST FACIAL_EXPRESSIONS).
Local Abbreviation step' := (step POSE_DEFINITIONS CLOTHING_LIST FACIAL_EXPRESSIONS).
Local Abbreviation run' := (run POSE_DEFINITIONS CLOTHING_LIST FACIAL_EXPRESSIONS).
Local Abbreviation start' := (startDatasetMode POSE_DEFINITIONS).

Ltac fields :=
  cbn [app loop issued settled selectedPoses
       settings isKeyConfirmed selectedPoseIds gallery failedAssets task isAbortedRef
       status total current images error
       setTask setGallery setFailedAssets setSelectedPoseIds setIsKeyConfirmed
       setAborted withImage withProcessed withStatus withFailure stopGeneration
       isRunning pendingPoses] in *.

Lemma canStart_ready (a : App) : canStart a = true -> isProfileReady (settings a) = true.
Proof.
  unfold canStart. intros H.
  apply andb_prop in H as [H _]. apply andb_prop in H as [H _].
  apply andb_prop in H as [_ H]. exact H.
Qed.

Lemma Inv2_start (m : Machine) : canStart (app m) = true -> Inv2' (start' m).
Proof.
  intros Hc. unfold startDatasetMode. rewrite Hc. cbn [negb].
  constructor; fields.
  - intros _. constructor.
  - intros _. reflexivity.
  - split; [discriminate | reflexivity].
  - discriminate.
  - apply canStart_ready, Hc.
  - intros p prompt Hin. inversion Hin.
Qed.

Lemma Inv2_step (m : Machine) (e : Event) : Inv' m -> Inv2' m -> Inv2' (step' m e).
Proof.
  intros Hinv HI2.
  pose proof (inv_flag _ _ Hinv) as Hflag.
  destruct e as [| |d|o now1 now2]; cbn [step].
  - destruct (isGenerating (app m) || isRunning m); [exact HI2|].
    destruct (canStart (app m)) eqn:Hc; [apply Inv2_start, Hc|].
    unfold startDatasetMode. rewrite Hc. exact HI2.
  - destruct (isGenerating (app m)) eqn:Hg; [|exact HI2].
    destruct HI2 as [Hproc Hall Herr Hkey Hready Hprm].
    assert (Hs : status (task (app m)) = generating).
    { unfold isGenerating in Hg. destruct (status (task (app m))); congruence. }
    assert (Hnf : status (task (app m)) <> failed) by congruence.
    constructor; fields.
    + intros _. apply Hproc, Hnf.
    + intros [Hr|Hc]; [|discriminate Hc]. apply Hall. left. exact Hr.
    + split; [discriminate|]. intros _. apply Herr, Hnf.
    + discriminate.
    + exact Hready.
    + exact Hprm.
  - unfold resume.
    destruct (loop m) as [|[|pose rest]|] eqn:Hl; try exact HI2.
    + (* the loop is over *)
      destruct HI2 as [Hproc Hall Herr Hkey Hready Hprm].
      assert (Hnf : status (task (app m)) <> failed).
      { destruct Hflag as [[Hs _]|[Hs _]]; congruence. }
      assert (Hall' : outcomePose <$> settled m = selectedPoses m).
      { rewrite <- Hall by (left; unfold isRunning; rewrite Hl; reflexivity).
        rewrite Hl. cbn [pendingPoses]. rewrite app_nil_r. reflexivity. }
      unfold finish. destruct (isAbortedRef (app m)) eqn:Hab;
        constructor; fields; trivial.
      * intros _. rewrite app_nil_r. exact Hall'.
      * intros _. apply Hproc, Hnf.
      * intros _. rewrite app_nil_r. exact Hall'.
      * split; [discriminate|]. intros _. apply Herr, Hnf.
      * discriminate.
    + destruct HI2 as [Hproc Hall Herr Hkey Hready Hprm].
      destruct (isAbortedRef (app m)) eqn:Hab.
      * (* the break *)
        assert (Hs : status (task (app m)) = stopped).
        { destruct Hflag as [[_ Hf]|[Hs _]]; [congruence | exact Hs]. }
        unfold finish. rewrite Hab.
        constructor; fields; trivial.
        intros [Hr|Hc]; [discriminate Hr | congruence].
      * constructor; fields; trivial.
        -- intros _. rewrite <- Hall by (left; unfold isRunning; rewrite Hl; reflexivity).
           rewrite Hl. reflexivity.
        -- intros p prompt Hin. apply elem_of_app in Hin as [Hin|Hin].
           ++ apply Hprm, Hin.
           ++ apply list_elem_of_singleton in Hin. injection Hin as -> ->.
              exists d. reflexivity.
  - unfold settle.
    destruct (loop m) as [| |pose prompt rest] eqn:Hl; try exact HI2.
    destruct HI2 as [Hproc Hall Herr Hkey Hready Hprm].
    assert (Hnf : status (task (app m)) <> failed).
    { destruct Hflag as [[Hs _]|[Hs _]]; congruence. }
    assert (Hall' : (outcomePose <$> settled m) ++ pose :: rest = selectedPoses m).
    { rewrite <- Hall by (left; unfold isRunning; rewrite Hl; reflexivity).
      rewrite Hl. reflexivity. }
    destruct (generateCharacterImage o) as [url|message];
      [|destruct (isAuthFailure message)]; constructor; fields; trivial.
    + intros _. apply Forall_app. split; [apply Hproc, Hnf|].
      apply Forall_singleton. reflexivity.
    + intros _. rewrite fmap_app, <- app_assoc. exact Hall'.
    + intros Hn. congruence.
    + intros [Hr|Hc]; [discriminate Hr | discriminate Hc].
    + split; [discriminate | congruence].
    + intros _. apply Forall_app. split; [apply Hproc, Hnf|].
      apply Forall_singleton. reflexivity.
    + intros _. rewrite fmap_app, <- app_assoc. exact Hall'.
Qed.

Lemma Inv2_batch (m0 : Machine) (es : list Event) :
  canStart (app m0) = true ->
  Inv' (run' (start' m0) es) /\ Inv2' (run' (start' m0) es).
Proof.
  intros Hc.
  assert (H : Inv' (start' m0) /\ Inv2' (start' m0)).
  { split; [apply Inv_start; assumption | apply Inv2_start, Hc]. }
  revert H. generalize (start' m0). induction es as [|e es IH]; intros m [H1 H2].
  - split; assumption.
  - cbn [run fold_left]. apply IH. split.
    + apply Inv_step; assumption.
    + apply Inv2_step; assumption.
Qed.

End Preservation2.

Lemma processed_lengths (l : list Outcome) :
  length (filter isProcessed l) = length (successImages l) + length (failureAssets l).
Proof.
  induction l as [|o l IH]; [reflexivity|].
  destruct o; rewrite filter_cons; simpl; rewrite IH; lia.
Qed.

Lemma all_processed_length (l : list Outcome) :
  Forall (fun o => isProcessed o = true) l -> length (filter isProcessed l) = length l.
Proof.
  induction 1 as [|o l Ho Hl IH]; [reflexivity|].
  rewrite filter_cons. rewrite Ho. simpl. rewrite IH. reflexivity.
Qed.



Lemma elem_of_rev_list {A} (x : A) (l : list A) : x ∈ rev l -> x ∈ l.
Proof. rewrite !list_elem_of_In. intros H. apply in_rev. exact H. Qed.

Section BatchFacts.

Variable POSE_DEFINITIONS : list DatasetPose.
Variable CLOTHING_LIST : list string.
Variable FACIAL_EXPRESSIONS : list string.
Hypothesis ids_unique : NoDup (pose_id <$> POSE_DEFINITIONS).

Local Abbreviation step' := (step POSE_DEFINITIONS CLOTHING_LIST FACIAL_EXPRESSIONS).
Local Abbreviation run' := (run POSE_DEFINITIONS CLOTHING_LIST FACIAL_EXPRESSIONS).
Local Abbreviation start' := (startDatasetMode POSE_DEFINITIONS).
Local Abbreviation prompt' := (composePrompt CLOTHING_LIST FACIAL_EXPRESSIONS).
Local Abbreviation facts :=
  (Inv2_batch POSE_DEFINITIONS CLOTHING_LIST FACIAL_EXPRESSIONS ids_unique).

(** X13.  What the page shows adds up: at every point of a batch
    [task.current] is the number of images of the task plus the number
    of failed assets. *)
Theorem current_is_images_plus_failures (m0 : Machine) (es : list Event) :
  canStart (app m0) = true ->
  let m := run' (start' m0) es in
  current (task (app m))
  = length (images (task (app m))) + length (failedAssets (app m)).
Proof.
  intros Hc m. destruct (facts m0 es Hc) as [[Hcur Himg _ Hfail _ _ _ _ _ _ _] _].
  fold m in Hcur, Himg, Hfail.
  rewrite Hcur, Himg, Hfail, !length_rev. apply processed_lengths.
Qed.


(** X17.  Every prompt a batch sends opens with the production header,
    names the pose it is for, and has the identity clause: the guard of
    the batch and the reader of the profile agree, so the clause is
    never the empty one. *)
Theorem every_prompt_has_identity (m0 : Machine) (es : list Event) :
  canStart (app m0) = true ->
  let m := run' (start' m0) es in
  forall p prompt, (p, prompt) ∈ issued m ->
    Js.startsWith prompt "DATASET PRODUCTION. " = true
    /\ Js.includes prompt ("TARGET POSE: " +:+ pose_description p +:+ ". COMPOSITION: ")
       = true
    /\ Js.includes prompt "IDENTITY CONSTRAINTS: " = true.
Proof.
  intros Hc m p prompt Hin.
  destruct (facts m0 es Hc) as [_ [_ _ _ _ Hready Hprm]].
  fold m in Hready, Hprm. destruct (Hprm p prompt Hin) as [d ->].
  apply ready_active_profile in Hready as (profile & Ha & Ht).
  unfold composePrompt. cbv zeta. split; [|split].
  - apply startsWith_app.
  - do 2 apply includes_app_r. apply includes_prefix.
    rewrite <- (append_assoc (pose_description p) ". COMPOSITION: ").
    rewrite <- (append_assoc "TARGET POSE: ").
    apply startsWith_app.
  - do 11 apply includes_app_r. apply includes_prefix.
    unfold getLockedIdentityMod. rewrite Ha, Ht. cbn [negb].
    destruct (isHairLocked (settings (app m)) && Js.truthy (hairPartOf profile)),
      (DatasetGroup_eqb (pose_group p) portrait), (isBodyLocked (settings (app m)));
      rewrite ?append_assoc; apply startsWith_app.
Qed.

End BatchFacts.

(** ** A batch that nobody stops *)

Section WholeRun.

Variable POSE_DEFINITIONS : list DatasetPose.
Variable CLOTHING_LIST : list string.
Variable FACIAL_EXPRESSIONS : list string.

Local Abbreviation step' := (step POSE_DEFINITIONS CLOTHING_LIST FACIAL_EXPRESSIONS).
Local Abbreviation run' := (run POSE_DEFINITIONS CLOTHING_LIST FACIAL_EXPRESSIONS).
Local Abbreviation start' := (startDatasetMode POSE_DEFINITIONS).

Lemma run_app (m : Machine) (es1 es2 : list Event) :
  run' m (es1 ++ es2) = run' (run' m es1) es2.
Proof. unfold run. apply fold_left_app. Qed.

Lemma whole_run_view (d : Draws) (turns : list Turn) :
  forall (m : Machine) rest cur n fas iss cfg,
    view m = {| v_loop := AtBoundary rest; v_aborted := false;
                v_status := generating; v_current := cur; v_images := n;
                v_failed := fas; v_issued := iss; v_settings := cfg |} ->
    length turns = length rest ->
    Forall (fun t => isFatal (turnOutcome t) = false) turns ->
    exists fas' iss',
      view (run' m (wholeRun turns d))
      = {| v_loop := NotRunning; v_aborted := false; v_status := completed;
           v_current := cur + length turns;
           v_images := n + length (filter gaveImage turns);
           v_failed := fas'; v_issued := iss'; v_settings := cfg |}
      /\ length fas' + length (filter gaveImage turns) = length fas + length turns
      /\ length iss' = length iss + length turns.
Proof.
  induction turns as [|[[[d1 o] now1] now2] turns IH];
    intros m rest cur n fas iss cfg V Hlen Hok.
  - destruct rest; [|discriminate].
    exists fas, iss. change (wholeRun [] d) with [EvResume d].
    cbn [run fold_left].
    rewrite (view_finish POSE_DEFINITIONS CLOTHING_LIST FACIAL_EXPRESSIONS _ d _ _ _ _ _ _ V).
    cbn [length]. rewrite !Nat.add_0_r. repeat split; reflexivity.
  - destruct rest as [|p rest]; [discriminate|].
    apply Forall_cons in Hok as [Ho Hok]. cbn [turnOutcome] in Ho.
    injection Hlen as Hlen.
    change (wholeRun ((d1, o, now1, now2) :: turns) d)
      with (EvResume d1 :: EvSettle o now1 now2 :: wholeRun turns d).
    cbn [run fold_left].
    fold (run' (step' (step' m (EvResume d1)) (EvSettle o now1 now2))
               (wholeRun turns d)).
    apply (view_resume POSE_DEFINITIONS CLOTHING_LIST FACIAL_EXPRESSIONS _ d1) in V.
    unfold isFatal in Ho.
    destruct (generateCharacterImage o) as [url|message] eqn:E.
    + apply (view_resolved POSE_DEFINITIONS CLOTHING_LIST FACIAL_EXPRESSIONS _ o now1 now2 _ _ _ _ _ _ _ _ _ _ _ E) in V.
      destruct (IH _ _ _ _ _ _ _ V Hlen Hok) as (fas' & iss' & V' & Hf & Hi).
      exists fas', iss'. rewrite V'.
      rewrite filter_cons_True
        by (unfold gaveImage, isResolved; cbn [turnOutcome]; rewrite E; exact I).
      rewrite length_app in Hi. cbn [length] in *.
      split; [f_equal; lia|]. split; lia.
    + apply (view_recovered POSE_DEFINITIONS CLOTHING_LIST FACIAL_EXPRESSIONS _ o now1 now2 _ _ _ _ _ _ _ _ _ _ _ E Ho) in V.
      destruct (IH _ _ _ _ _ _ _ V Hlen Hok) as (fas' & iss' & V' & Hf & Hi).
      exists fas', iss'. rewrite V'.
      rewrite filter_cons_False
        by (unfold gaveImage, isResolved; cbn [turnOutcome]; rewrite E; intros []).
      rewrite length_app in Hi. cbn [length] in *.
      split; [f_equal; lia|]. split; lia.
Qed.

(** X18.  A batch that is not stopped and meets no fatal failure runs to
    its end: after one call per selected pose of the catalog the task
    is [completed], [current] is the number of those poses, there is
    one image per call that gave one and one failed asset per call
    that did not. *)
Theorem unstopped_batch_completes (m0 : Machine) (turns : list Turn) (d : Draws) :
  canStart (app m0) = true ->
  length turns = length (selectPoses POSE_DEFINITIONS (selectedPoseIds (app m0))) ->
  Forall (fun t => isFatal (turnOutcome t) = false) turns ->
  let m := run' (start' m0) (wholeRun turns d) in
  status (task (app m)) = completed
  /\ loop m = NotRunning
  /\ current (task (app m)) = length turns
  /\ length (images (task (app m))) = length (filter gaveImage turns)
  /\ length (failedAssets (app m)) + length (filter gaveImage turns) = length turns
  /\ length (issued m) = length turns.
Proof.
  intros Hc Hlen Hok m.
  pose proof (view_start POSE_DEFINITIONS m0 Hc) as V.
  destruct (whole_run_view d turns _ _ _ _ _ _ _ V Hlen Hok)
    as (fas' & iss' & V' & Hf & Hi).
  apply view_facts in V' as (L & S & C & I & F & Q).
  fold m in L, S, C, I, F, Q.
  repeat split; trivial.
  - rewrite F. exact Hf.
  - rewrite Q. exact Hi.
Qed.

End WholeRun.

(** ** Image ids, and the way back from them *)

Lemma pretty_N_go_digits (x : N) (s : string) :
  allDigits s = true -> allDigits (pretty_N_go x s) = true.
Proof.
  revert s. induction (N.lt_wf_0 x) as [x _ IH]; intros s Hs.
  assert (x = 0 \/ 0 < x)%N as [->|Hx] by lia.
  - rewrite pretty_N_go_0. exact Hs.
  - rewrite pretty_N_go_step by exact Hx. apply IH.
    + apply N.div_lt; [exact Hx | reflexivity].
    + cbn [allDigits]. rewrite Hs, andb_true_r.
      unfold pretty_N_char. repeat case_match; reflexivity.
Qed.

Lemma pretty_N_digits (x : N) : allDigits (pretty x) = true.
Proof.
  unfold pretty, pretty_N. destruct (decide (x = 0%N)); [reflexivity|].
  apply pretty_N_go_digits. reflexivity.
Qed.

Lemma digit_not (c x : ascii) (s : string) :
  allDigits (String c s) = true ->
  ((48 <=? nat_of_ascii x)%nat && (nat_of_ascii x <=? 57)%nat = false) -> c <> x.
Proof.
  cbn [allDigits]. intros H Hx ->. rewrite Hx in H. discriminate.
Qed.

(** Digits, a separator that is no digit, and any text: the three
    parts can be read back. *)
Lemma digits_sep_inj (x : ascii) (d1 d2 a b : string) :
  (48 <=? nat_of_ascii x)%nat && (nat_of_ascii x <=? 57)%nat = false ->
  allDigits d1 = true -> allDigits d2 = true ->
  d1 +:+ String x a = d2 +:+ String x b -> d1 = d2 /\ a = b.
Proof.
  intros Hx. revert d2. induction d1 as [|c d1 IH]; intros d2 H1 H2 E.
  - destruct d2 as [|c' d2].
    + injection E as ->. split; reflexivity.
    + rewrite append_String in E. injection E as E _.
      exfalso. apply (digit_not c' x d2 H2 Hx). congruence.
  - destruct d2 as [|c' d2].
    + rewrite append_String in E. injection E as E _.
      exfalso. apply (digit_not c x d1 H1 Hx). congruence.
    + rewrite !append_String in E. injection E as -> E.
      cbn [allDigits] in H1, H2.
      apply andb_prop in H1 as [_ H1]. apply andb_prop in H2 as [_ H2].
      destruct (IH d2 H1 H2 E) as [-> ->]. split; reflexivity.
Qed.





Section ImageIds.

Variable POSE_DEFINITIONS : list DatasetPose.
Variable CLOTHING_LIST : list string.
Variable FACIAL_EXPRESSIONS : list string.
Hypothesis ids_unique : NoDup (pose_id <$> POSE_DEFINITIONS).

Local Abbreviation run' := (run POSE_DEFINITIONS CLOTHING_LIST FACIAL_EXPRESSIONS).
Local Abbreviation start' := (startDatasetMode POSE_DEFINITIONS).


End ImageIds.

(** *** The pose id read back from an image id *)

Lemma split_nonempty (sep : ascii) (s : string) : Js.split sep s <> [].
Proof.
  induction s as [|c s IH]; simpl; [discriminate|].
  destruct (Ascii.eqb c sep); [discriminate|].
  destruct (Js.split sep s); [congruence | discriminate].
Qed.

Lemma split_pieces_sep (sep : ascii) (s : string) :
  Forall (fun f => Text.hasChar sep f = false) (Js.split sep s).
Proof.
  induction s as [|c s IH]; simpl.
  - repeat constructor.
  - destruct (Ascii.eqb c sep) eqn:E.
    + constructor; [reflexivity | exact IH].
    + destruct (Js.split sep s) as [|f fs]; [repeat constructor; simpl; rewrite E; reflexivity|].
      apply Forall_cons in IH as [Hf Hfs].
      constructor; [simpl; rewrite E, Hf; reflexivity | exact Hfs].
Qed.

Lemma split_whole (sep : ascii) (s : string) :
  Text.hasChar sep s = false -> Js.split sep s = [s].
Proof.
  induction s as [|c s IH]; intros H; [reflexivity|].
  simpl in *. apply orb_false_elim in H as [Hc Hs].
  rewrite Hc, (IH Hs). reflexivity.
Qed.

Lemma last_cons_nonempty {A} (x : A) (l : list A) : l <> [] -> last (x :: l) = last l.
Proof. destruct l; [congruence | reflexivity]. Qed.

Lemma split_after_sep (sep : ascii) (a b : string) :
  exists f fs, Js.split sep (a +:+ String sep b) = f :: fs /\ fs <> []
               /\ last (f :: fs) = last (Js.split sep b).
Proof.
  induction a as [|c a (f & fs & E & Hne & Hlast)].
  - change ("" +:+ String sep b) with (String sep b). simpl.
    rewrite Ascii.eqb_refl. exists "", (Js.split sep b).
    split; [reflexivity|]. split; [apply split_nonempty|].
    apply last_cons_nonempty, split_nonempty.
  - rewrite append_String. simpl. rewrite E.
    destruct (Ascii.eqb c sep).
    + exists "", (f :: fs). split; [reflexivity|]. split; [discriminate|].
      rewrite last_cons_nonempty by discriminate. exact Hlast.
    + exists (String c f), fs. split; [reflexivity|]. split; [exact Hne|].
      rewrite last_cons_nonempty by exact Hne.
      rewrite last_cons_nonempty in Hlast by exact Hne. exact Hlast.
Qed.

Lemma lastPiece_after_sep (sep : ascii) (a b : string) :
  Text.lastPiece sep (a +:+ String sep b) = Text.lastPiece sep b.
Proof.
  unfold Text.lastPiece.
  destruct (split_after_sep sep a b) as (f & fs & -> & _ & ->). reflexivity.
Qed.

Lemma lastPiece_clean (sep : ascii) (s : string) :
  Text.hasChar sep (Text.lastPiece sep s) = false.
Proof.
  unfold Text.lastPiece.
  pose proof (split_pieces_sep sep s) as H.
  destruct (last (Js.split sep s)) as [f|] eqn:E; [|reflexivity].
  rewrite Forall_forall in H. apply H. apply last_Some_elem_of. exact E.
Qed.

Lemma lastPiece_of_image_id (p : DatasetPose) (url prompt : string) (now1 now2 : N) :
  Text.lastPiece "-" (img_id (newImage p url prompt now1 now2))
  = Text.lastPiece "-" (pose_id p).
Proof.
  cbn [img_id newImage].
  change ("dataset-" +:+ pretty now1 +:+ "-" +:+ pose_id p)
    with ("dataset-" +:+ (pretty now1 +:+ String "-" (pose_id p))).
  rewrite <- append_assoc. apply lastPiece_after_sep.
Qed.

Lemma lastPiece_whole (sep : ascii) (s : string) :
  Text.hasChar sep s = false -> Text.lastPiece sep s = s.
Proof. intros H. unfold Text.lastPiece. rewrite (split_whole _ _ H). reflexivity. Qed.

(** X20.  [downloadAll] and the Download button read the pose id off the
    image id as its last piece after a hyphen.  That is the pose id
    exactly when the pose id has no hyphen; with a hyphen only its last
    piece is found. *)
Theorem pose_id_read_back (p : DatasetPose) (url prompt : string) (now1 now2 : N) :
  Text.lastPiece "-" (img_id (newImage p url prompt now1 now2))
  = Text.lastPiece "-" (pose_id p)
  /\ (Text.hasChar "-" (pose_id p) = false <->
      Text.lastPiece "-" (img_id (newImage p url prompt now1 now2)) = pose_id p).
Proof.
  rewrite lastPiece_of_image_id. split; [reflexivity|]. split.
  - apply lastPiece_whole.
  - intros H. rewrite <- H. apply lastPiece_clean.
Qed.

(** ** The project name, labels and the payload of a data url *)

Lemma sanitizeName_clean (s : string) : Text.allNameChars (Text.sanitizeName s) = true.
Proof.
  induction s as [|c s IH]; [reflexivity|].
  cbn [Text.sanitizeName Text.allNameChars]. rewrite IH, andb_true_r.
  destruct (Text.isNameChar c) eqn:E; [exact E | reflexivity].
Qed.

Lemma sanitizeName_length (s : string) :
  String.length (Text.sanitizeName s) = String.length s.
Proof.
  induction s as [|c s IH]; [reflexivity|].
  cbn [Text.sanitizeName String.length]. rewrite IH. reflexivity.
Qed.

Lemma sanitizeName_fixed (s : string) :
  Text.allNameChars s = true -> Text.sanitizeName s = s.
Proof.
  induction s as [|c s IH]; [reflexivity|].
  cbn [Text.sanitizeName Text.allNameChars]. intros H.
  apply andb_prop in H as [Hc Hs]. rewrite Hc, (IH Hs). reflexivity.
Qed.

(** X21.  Whatever is typed into the name field, the project name kept has
    only letters, digits, underscores and hyphens and the length of
    what was typed; it is what was typed exactly when that had no
    other character; and the rest of the page is untouched. *)
Theorem project_name_is_clean (value : string) (p : Page) :
  Text.allNameChars (projectName (setProjectName value p)) = true
  /\ String.length (projectName (setProjectName value p)) = String.length value
  /\ (Text.allNameChars value = true <-> projectName (setProjectName value p) = value)
  /\ page_app (setProjectName value p) = page_app p.
Proof.
  cbn [setProjectName projectName page_app].
  split; [apply sanitizeName_clean|].
  split; [apply sanitizeName_length|].
  split; [|reflexivity]. split.
  - apply sanitizeName_fixed.
  - intros <-. apply sanitizeName_clean.
Qed.

Lemma replaceSpaceRuns_unfold (c : ascii) (s : string) :
  Text.replaceSpaceRuns (String c s)
  = if Js.is_space c then
      match s with
      | EmptyString => String "_" EmptyString
      | String c' _ =>
          if Js.is_space c' then Text.replaceSpaceRuns s
          else String "_" (Text.replaceSpaceRuns s)
      end
    else String c (Text.replaceSpaceRuns s).
Proof. reflexivity. Qed.

Lemma replaceSpaceRuns_no_space (s : string) :
  Text.hasSpace (Text.replaceSpaceRuns s) = false.
Proof.
  induction s as [|c s IH]; [reflexivity|].
  rewrite replaceSpaceRuns_unfold.
  destruct (Js.is_space c) eqn:Ec.
  - destruct s as [|c' s]; [reflexivity|].
    destruct (Js.is_space c'); [exact IH|].
    cbn [Text.hasSpace]. rewrite IH. reflexivity.
  - cbn [Text.hasSpace]. rewrite Ec, IH. reflexivity.
Qed.

Lemma replaceSpaceRuns_fixed (s : string) :
  Text.hasSpace s = false -> Text.replaceSpaceRuns s = s.
Proof.
  induction s as [|c s IH]; [reflexivity|].
  cbn [Text.hasSpace]. intros H. apply orb_false_elim in H as [Hc Hs].
  rewrite replaceSpaceRuns_unfold, Hc, (IH Hs). reflexivity.
Qed.

Lemma replaceSpaceRuns_length (s : string) :
  String.length (Text.replaceSpaceRuns s) <= String.length s.
Proof.
  induction s as [|c s IH]; [reflexivity|].
  rewrite replaceSpaceRuns_unfold.
  destruct (Js.is_space c).
  - destruct s as [|c' s]; [reflexivity|].
    destruct (Js.is_space c'); cbn [String.length] in *; lia.
  - cbn [String.length]. lia.
Qed.

(** The label put into a file name has no white space left and is
    never longer than the label of the pose; a label without white
    space is used as it is. *)
Lemma label_has_no_space (s : string) :
  Text.hasSpace (Text.replaceSpaceRuns s) = false
  /\ String.length (Text.replaceSpaceRuns s) <= String.length s
  /\ (Text.hasSpace s = false <-> Text.replaceSpaceRuns s = s).
Proof.
  split; [apply replaceSpaceRuns_no_space|].
  split; [apply replaceSpaceRuns_length|]. split.
  - apply replaceSpaceRuns_fixed.
  - intros <-. apply replaceSpaceRuns_no_space.
Qed.

(** *** Splitting at the one separator *)

Lemma hasChar_app (x : ascii) (a b : string) :
  Text.hasChar x (a +:+ b) = Text.hasChar x a || Text.hasChar x b.
Proof.
  induction a as [|c a IH]; [reflexivity|].
  rewrite append_String. cbn [Text.hasChar]. rewrite IH, orb_assoc. reflexivity.
Qed.

Lemma split_at_sep (sep : ascii) (a b : string) :
  Text.hasChar sep a = false ->
  Js.split sep (a +:+ String sep b) = a :: Js.split sep b.
Proof.
  induction a as [|c a IH]; intros H.
  - change ("" +:+ String sep b) with (String sep b).
    cbn [Js.split]. rewrite Ascii.eqb_refl. reflexivity.
  - cbn [Text.hasChar] in H. apply orb_false_elim in H as [Hc Ha].
    rewrite append_String. cbn [Js.split]. rewrite Hc, (IH Ha). reflexivity.
Qed.

Lemma secondPiece_of_two (sep : ascii) (a b : string) :
  Text.hasChar sep a = false -> Text.hasChar sep b = false ->
  Text.secondPiece sep (a +:+ String sep b) = Some b.
Proof.
  intros Ha Hb. unfold Text.secondPiece.
  rewrite (split_at_sep _ _ _ Ha), (split_whole _ _ Hb). reflexivity.
Qed.

Lemma startsWith_hasChar (x : ascii) (w s : string) :
  Js.startsWith s w = true -> Text.hasChar x w = true -> Text.hasChar x s = true.
Proof.
  revert s. induction w as [|a w IH]; intros s Hs Hw; [discriminate Hw|].
  destruct s as [|b s]; [discriminate Hs|].
  cbn [Js.startsWith] in Hs. destruct (Ascii.eqb a b) eqn:E; [|discriminate Hs].
  apply Ascii.eqb_eq in E. subst b.
  cbn [Text.hasChar] in *. destruct (Ascii.eqb a x); [reflexivity|].
  cbn [orb] in *. exact (IH s Hs Hw).
Qed.

(** A pattern that ends in the separator is found in a text that has
    the separator once only where that one is. *)
Lemma startsWith_at_sep (sep : ascii) (u v t : string) :
  Text.hasChar sep u = false -> Text.hasChar sep v = false ->
  Js.startsWith (u +:+ String sep t) (v +:+ String sep "") = true -> u = v.
Proof.
  revert v. induction u as [|c u IH]; intros v Hu Hv H.
  - destruct v as [|c' v]; [reflexivity|].
    change ("" +:+ String sep t) with (String sep t) in H.
    rewrite append_String in H. cbn [Js.startsWith] in H.
    cbn [Text.hasChar] in Hv. apply orb_false_elim in Hv as [Hc _].
    rewrite Hc in H. discriminate H.
  - cbn [Text.hasChar] in Hu. apply orb_false_elim in Hu as [Hc Hu].
    destruct v as [|c' v].
    + change ("" +:+ String sep "") with (String sep "") in H.
      rewrite append_String in H. cbn [Js.startsWith] in H.
      rewrite Ascii.eqb_sym, Hc in H. discriminate H.
    + rewrite !append_String in H. cbn [Js.startsWith] in H.
      destruct (Ascii.eqb c' c) eqn:E; [|discriminate H].
      apply Ascii.eqb_eq in E. subst c'.
      cbn [Text.hasChar] in Hv. apply orb_false_elim in Hv as [_ Hv].
      rewrite (IH v Hu Hv H). reflexivity.
Qed.

Lemma skip_app (a b : string) : HairRegex.skip (String.length a) (a +:+ b) = b.
Proof.
  induction a as [|c a IH]; [reflexivity|].
  rewrite append_String. cbn [String.length HairRegex.skip]. exact IH.
Qed.

Lemma append_length (a b : string) :
  String.length (a +:+ b) = String.length a + String.length b.
Proof.
  induction a as [|c a IH]; [reflexivity|].
  rewrite append_String. cbn [String.length]. rewrite IH. reflexivity.
Qed.

Lemma afterFirst_unfold (sep s : string) :
  Text.afterFirst sep s
  = if Js.startsWith s sep then Some (HairRegex.skip (String.length sep) s)
    else match s with
         | EmptyString => None
         | String _ s' => Text.afterFirst sep s'
         end.
Proof. destruct s; reflexivity. Qed.

Lemma afterFirst_at_sep (sep : ascii) (a v t : string) :
  Text.hasChar sep a = false -> Text.hasChar sep v = false ->
  Text.afterFirst (v +:+ String sep "") (a +:+ v +:+ String sep t) = Some t.
Proof.
  intros Ha Hv. induction a as [|c a IH].
  - change ("" +:+ v +:+ String sep t) with (v +:+ String sep t).
    replace (v +:+ String sep t) with ((v +:+ String sep "") +:+ t)
      by (rewrite append_assoc; reflexivity).
    rewrite afterFirst_unfold, startsWith_app, skip_app. reflexivity.
  - cbn [Text.hasChar] in Ha. apply orb_false_elim in Ha as [Hc Ha].
    rewrite append_String, afterFirst_unfold.
    destruct (Js.startsWith (String c (a +:+ v +:+ String sep t)) (v +:+ String sep ""))
      eqn:E; [|exact (IH Ha)].
    exfalso.
    assert (Hu : Text.hasChar sep (String c a +:+ v) = false).
    { rewrite hasChar_app. cbn [Text.hasChar]. rewrite Hc, Ha, Hv. reflexivity. }
    pose proof (startsWith_at_sep sep (String c a +:+ v) v t Hu Hv) as H.
    rewrite append_assoc, append_String in H. specialize (H E).
    apply (f_equal String.length) in H.
    rewrite append_length in H. cbn [String.length] in H. lia.
Qed.

Lemma upToFirst_whole (x : ascii) (w s : string) :
  Text.hasChar x w = true -> Text.hasChar x s = false -> Text.upToFirst w s = s.
Proof.
  intros Hw. induction s as [|c s IH]; intros Hs.
  - destruct w; reflexivity.
  - cbn [Text.upToFirst].
    destruct (Js.startsWith (String c s) w) eqn:E.
    + rewrite (startsWith_hasChar x w _ E Hw) in Hs. discriminate Hs.
    + cbn [Text.hasChar] in Hs. apply orb_false_elim in Hs as [_ Hs].
      rewrite (IH Hs). reflexivity.
Qed.

(** X22.  For a data url with its one comma before the payload, the page
    ([split(',')[1]] in [processFile], [retryAnalysis],
    [triggerAnalysis], [handleModeSwitch] and [downloadAll]) and the
    generation client ([cleanBase64]) read the same payload: the
    analysis and the generation calls are sent the same bytes. *)
Theorem same_payload_everywhere (mime payload : string) :
  Text.hasChar "," mime = false -> Text.hasChar "," payload = false ->
  Text.secondPiece "," ("data:" +:+ mime +:+ ";base64," +:+ payload) = Some payload
  /\ cleanBase64 ("data:" +:+ mime +:+ ";base64," +:+ payload) = payload.
Proof.
  intros Hm Hp. split.
  - change (";base64," +:+ payload) with (";base64" +:+ String "," payload).
    rewrite <- !append_assoc. apply secondPiece_of_two; [|exact Hp].
    rewrite !hasChar_app, Hm. reflexivity.
  - assert (E : Text.afterFirst "base64," ("data:" +:+ mime +:+ ";base64," +:+ payload)
                = Some payload).
    { change (";base64," +:+ payload) with (";" +:+ "base64" +:+ String "," payload).
      rewrite <- (append_assoc mime), <- (append_assoc "data:").
      apply (afterFirst_at_sep "," _ "base64"); [|reflexivity].
      rewrite !hasChar_app, Hm. reflexivity. }
    assert (I : Js.includes ("data:" +:+ mime +:+ ";base64," +:+ payload) "base64,"
                = true).
    { apply includes_app_r, includes_app_r.
      change (";base64," +:+ payload) with (String ";" ("base64," +:+ payload)).
      rewrite includes_unfold. cbn [Js.startsWith Ascii.eqb Bool.eqb].
      apply includes_prefix, startsWith_app. }
    unfold cleanBase64, Text.secondPieceOn. rewrite I, E.
    apply (upToFirst_whole "," "base64," payload eq_refl Hp).
Qed.

(** ** The archive *)

Lemma find_by_id (catalog : list DatasetPose) (p : DatasetPose) :
  NoDup (pose_id <$> catalog) -> p ∈ catalog ->
  find (fun q => String.eqb (pose_id q) (pose_id p)) catalog = Some p.
Proof.
  induction catalog as [|q l IH]; intros Hnd Hin; [inversion Hin|].
  rewrite fmap_cons in Hnd. apply NoDup_cons in Hnd as [Hq Hnd].
  cbn [find]. apply elem_of_cons in Hin as [->|Hin].
  - rewrite String.eqb_refl. reflexivity.
  - destruct (String.eqb (pose_id q) (pose_id p)) eqn:E; [|exact (IH Hnd Hin)].
    apply String.eqb_eq in E. exfalso. apply Hq. rewrite E.
    apply list_elem_of_fmap. exists p. split; [reflexivity | exact Hin].
Qed.

Lemma payload_of_dataUrl (b : Blob) (d : string) :
  data b = Some d -> Text.hasChar "," d = false ->
  Text.secondPiece "," (dataUrl b) = Some d.
Proof.
  intros Hb Hd. unfold dataUrl. rewrite Hb.
  change ("data:image/png;base64," +:+ d) with ("data:image/png;base64" +:+ String "," d).
  apply secondPiece_of_two; [reflexivity | exact Hd].
Qed.

Lemma allDigits_no (x : ascii) (d : string) :
  (48 <=? nat_of_ascii x)%nat && (nat_of_ascii x <=? 57)%nat = false ->
  allDigits d = true -> Text.hasChar x d = false.
Proof.
  intros Hx. induction d as [|c d IH]; intros Hd; [reflexivity|].
  cbn [Text.hasChar]. pose proof (digit_not c x d Hd Hx) as Hc.
  cbn [allDigits] in Hd. apply andb_prop in Hd as [_ Hd].
  rewrite (IH Hd), orb_false_r. apply Ascii.eqb_neq. exact Hc.
Qed.

Lemma digits_png_no_underscore (d : string) :
  allDigits d = true -> Text.hasChar "_" (d +:+ ".png") = false.
Proof.
  intros Hd. rewrite hasChar_app, (allDigits_no "_" d eq_refl Hd). reflexivity.
Qed.

Lemma underscore_in (z t : string) : Text.hasChar "_" (z +:+ String "_" t) = true.
Proof.
  rewrite hasChar_app. cbn [Text.hasChar]. rewrite Ascii.eqb_refl.
  cbn [orb]. apply orb_true_r.
Qed.

(** The number that ends a file name can be read back from it. *)
Lemma index_suffix_inj (x y d1 d2 : string) :
  allDigits d1 = true -> allDigits d2 = true ->
  x +:+ String "_" (d1 +:+ ".png") = y +:+ String "_" (d2 +:+ ".png") -> d1 = d2.
Proof.
  intros H1 H2. revert y. induction x as [|c x IH]; intros y E.
  - destruct y as [|c' y].
    + injection E as E.
      change (d1 +:+ String "." "png" = d2 +:+ String "." "png") in E.
      apply digits_sep_inj in E as [E _]; [exact E | reflexivity | exact H1 | exact H2].
    + rewrite append_String in E. injection E as _ E.
      apply (f_equal (Text.hasChar "_")) in E.
      rewrite (digits_png_no_underscore d1 H1), underscore_in in E. discriminate E.
  - destruct y as [|c' y].
    + rewrite append_String in E. injection E as _ E.
      apply (f_equal (Text.hasChar "_")) in E.
      rewrite (digits_png_no_underscore d2 H2), underscore_in in E. discriminate E.
    + rewrite !append_String in E. injection E as _ E. exact (IH y E).
Qed.

Lemma pretty_nat_digits (n : nat) : allDigits (pretty n) = true.
Proof. apply pretty_N_digits. Qed.

Section Archive.

Variable POSE_DEFINITIONS : list DatasetPose.

Local Abbreviation entry := (archiveEntry POSE_DEFINITIONS).
Local Abbreviation entries := (archiveEntries POSE_DEFINITIONS).

(** The index an entry was made with ends its file name. *)
Lemma archiveEntry_name (name : string) (idx : nat) (img : GeneratedImage)
    (e : string * string) :
  entry name idx img = Some e ->
  exists x, fst e = x +:+ String "_" (pretty idx +:+ ".png").
Proof.
  unfold archiveEntry. intros H.
  destruct (Text.secondPiece "," (img_url img)) as [b|]; [|discriminate H].
  destruct (Js.truthy b); [|discriminate H].
  injection H as <-. cbn [fst].
  match goal with |- context [name +:+ "_" +:+ ?l +:+ _] => exists (name +:+ "_" +:+ l) end.
  rewrite !append_assoc. reflexivity.
Qed.

Lemma archiveEntry_payload (name : string) (idx : nat) (img : GeneratedImage) :
  is_Some (entry name idx img) <-> hasPayload img = true.
Proof.
  unfold archiveEntry, hasPayload.
  destruct (Text.secondPiece "," (img_url img)) as [b|].
  - destruct (Js.truthy b); split; intros H.
    + reflexivity.
    + eexists. reflexivity.
    + destruct H as [x Hx]. discriminate Hx.
    + discriminate H.
  - split; intros H; [destruct H as [x Hx]; discriminate Hx | discriminate H].
Qed.

Lemma entries_from (name : string) (img : GeneratedImage)
    (images : list GeneratedImage) (k : nat) :
  omap (fun x => x) (imap (fun i => entry name (k + i)) (img :: images))
  = match entry name k img with
    | Some e => e :: omap (fun x => x) (imap (fun i => entry name (S k + i)) images)
    | None => omap (fun x => x) (imap (fun i => entry name (S k + i)) images)
    end.
Proof.
  rewrite imap_cons.
  assert (Etl : imap ((fun i => entry name (k + i)) ∘ S) images
                = imap (fun i => entry name (S k + i)) images).
  { apply imap_ext. intros i x _. unfold compose.
    replace (k + S i) with (S k + i) by lia. reflexivity. }
  rewrite Etl. replace (k + 0) with k by lia.
  destruct (entry name k img); reflexivity.
Qed.

Lemma archive_from (name : string) (images : list GeneratedImage) (k : nat) :
  NoDup (fst <$> omap (fun x => x) (imap (fun i => entry name (k + i)) images))
  /\ forall e, e ∈ omap (fun x => x) (imap (fun i => entry name (k + i)) images) ->
       exists x j, k <= j /\ fst e = x +:+ String "_" (pretty j +:+ ".png").
Proof.
  revert k. induction images as [|img images IH]; intros k.
  - split; [constructor | intros e He; inversion He].
  - rewrite entries_from. destruct (IH (S k)) as [Hnd Htl].
    destruct (entry name k img) as [e|] eqn:Ee.
    + split.
      * rewrite fmap_cons. apply NoDup_cons. split; [|exact Hnd].
        intros Hin. apply list_elem_of_fmap in Hin as (e' & Heq & Hin).
        destruct (Htl e' Hin) as (x & j & Hj & Hx).
        destruct (archiveEntry_name _ _ _ _ Ee) as (y & Hy).
        rewrite Heq, Hx in Hy.
        apply index_suffix_inj in Hy; [|apply pretty_nat_digits..].
        apply (inj pretty) in Hy. lia.
      * intros e' He'. apply elem_of_cons in He' as [->|He'].
        -- destruct (archiveEntry_name _ _ _ _ Ee) as (y & Hy).
           exists y, k. split; [lia | exact Hy].
        -- destruct (Htl e' He') as (x & j & Hj & Hx).
           exists x, j. split; [lia | exact Hx].
    + split; [exact Hnd|].
      intros e' He'. destruct (Htl e' He') as (x & j & Hj & Hx).
      exists x, j. split; [lia | exact Hx].
Qed.

Lemma archive_length (name : string) (images : list GeneratedImage) (k : nat) :
  length (omap (fun x => x) (imap (fun i => entry name (k + i)) images))
  = length (filter (fun img => hasPayload img = true) images).
Proof.
  revert k. induction images as [|img images IH]; intros k; [reflexivity|].
  rewrite entries_from, filter_cons.
  pose proof (archiveEntry_payload name k img) as H.
  destruct (decide (hasPayload img = true)) as [Hy|Hn].
  - apply H in Hy as [e ->]. cbn [length]. rewrite (IH (S k)). reflexivity.
  - destruct (entry name k img) as [e|]; [|exact (IH (S k))].
    exfalso. apply Hn, H. eexists. reflexivity.
Qed.

(** X23.  No two files of the archive have the same name, whatever the
    gallery holds and whatever the project is called: no image of the
    archive replaces another one.  The archive has one file for every
    image whose url has a payload after its first comma, and none for
    the others. *)
Theorem archive_names_distinct (name : string) (images : list GeneratedImage) :
  NoDup (fst <$> entries name images)
  /\ length (entries name images)
     = length (filter (fun img => hasPayload img = true) images).
Proof.
  split.
  - exact (proj1 (archive_from name images 0)).
  - exact (archive_length name images 0).
Qed.

Hypothesis ids_unique : NoDup (pose_id <$> POSE_DEFINITIONS).

(** X24.  An image made by a batch for a pose of the catalog whose id has no
    hyphen is filed under the label of that pose, white space
    replaced, with the bytes the provider gave. *)
Theorem batch_image_archived (name prompt payload : string) (idx : nat)
    (p : DatasetPose) (b : Blob) (now1 now2 : N) :
  p ∈ POSE_DEFINITIONS ->
  Text.hasChar "-" (pose_id p) = false ->
  data b = Some payload -> payload <> "" -> Text.hasChar "," payload = false ->
  entry name idx (newImage p (dataUrl b) prompt now1 now2)
  = Some (name +:+ "_" +:+ Text.replaceSpaceRuns (pose_label p) +:+ "_"
               +:+ pretty idx +:+ ".png",
          payload).
Proof.
  intros Hin Hid Hb Hne Hc. unfold archiveEntry.
  change (img_url (newImage p (dataUrl b) prompt now1 now2)) with (dataUrl b).
  rewrite (payload_of_dataUrl b payload Hb Hc).
  destruct payload as [|c0 rest]; [congruence|]. cbn [Js.truthy].
  rewrite lastPiece_of_image_id, (lastPiece_whole _ _ Hid).
  rewrite (find_by_id _ _ ids_unique Hin). reflexivity.
Qed.

End Archive.

(** ** Grouping the gallery *)

Section GroupingFacts.

Variable inherited : gset string.

Local Abbreviation step' := (binStep inherited).
Local Abbreviation ofKey := (fun k => filter (fun img : GeneratedImage => groupKey img = k)).

Lemma binStep_stuck (images : list GeneratedImage) : fold_left step' images None = None.
Proof. induction images as [|img images IH]; [reflexivity | exact IH]. Qed.

Lemma binStep_own (acc : gmap string (list GeneratedImage)) (img : GeneratedImage) :
  groupKey img ∉ inherited ->
  step' (Some acc) img
  = Some (<[groupKey img := default [] (acc !! groupKey img) ++ [img]]> acc).
Proof.
  intros Hk. unfold binStep.
  destruct (acc !! groupKey img) as [bucket|]; [reflexivity|].
  destruct (decide (groupKey img ∈ inherited)) as [Hin|_]; [contradiction | reflexivity].
Qed.

Lemma fold_binStep (images : list GeneratedImage) :
  forall acc,
    Forall (fun img => groupKey img ∉ inherited) images ->
    exists buckets,
      fold_left step' images (Some acc) = Some buckets
      /\ forall k, buckets !! k
                   = match ofKey k images with
                     | [] => acc !! k
                     | _ :: _ => Some (default [] (acc !! k) ++ ofKey k images)
                     end.
Proof.
  induction images as [|img images IH]; intros acc Hall.
  - exists acc. split; [reflexivity | intros k; reflexivity].
  - apply Forall_cons in Hall as [Hk Hall].
    cbn [fold_left]. rewrite (binStep_own acc img Hk).
    destruct (IH (<[groupKey img := default [] (acc !! groupKey img) ++ [img]]> acc) Hall)
      as (buckets & -> & Hb).
    exists buckets. split; [reflexivity|]. intros k. rewrite (Hb k), filter_cons.
    destruct (decide (groupKey img = k)) as [Heq|Hne].
    + subst k. rewrite lookup_insert_eq.
      destruct (filter _ images) as [|x l]; cbn [default from_option id].
      * reflexivity.
      * rewrite <- app_assoc. reflexivity.
    + rewrite lookup_insert_ne by exact Hne. reflexivity.
Qed.

Lemma fold_binStep_throws (images : list GeneratedImage) :
  forall acc,
    (forall k, is_Some (acc !! k) -> k ∉ inherited) ->
    Exists (fun img => groupKey img ∈ inherited) images ->
    fold_left step' images (Some acc) = None.
Proof.
  induction images as [|img images IH]; intros acc Hacc Hex; [inversion Hex|].
  cbn [fold_left].
  destruct (decide (groupKey img ∈ inherited)) as [Hin|Hout].
  - unfold binStep at 2.
    destruct (acc !! groupKey img) as [bucket|] eqn:E.
    + exfalso. apply (Hacc (groupKey img)); [eexists; exact E | exact Hin].
    + destruct (decide (groupKey img ∈ inherited)) as [_|Hn]; [|contradiction].
      apply binStep_stuck.
  - rewrite (binStep_own acc img Hout). apply IH.
    + intros k [l Hl]. destruct (decide (groupKey img = k)) as [<-|Hne]; [exact Hout|].
      rewrite lookup_insert_ne in Hl by exact Hne. apply Hacc. eexists. exact Hl.
    + apply Exists_cons in Hex as [Hin|Hex]; [contradiction | exact Hex].
Qed.

Lemma binGroupedImages_some (images : list GeneratedImage) :
  Forall (fun img => groupKey img ∉ inherited) images ->
  exists buckets,
    binGroupedImages inherited images = Some buckets
    /\ forall k, buckets !! k
                 = match ofKey k images with [] => None | l => Some l end.
Proof.
  intros Hall. destruct (fold_binStep images ∅ Hall) as (buckets & E & Hb).
  exists buckets. split; [exact E|]. intros k. rewrite (Hb k), lookup_empty.
  destruct (filter _ images); reflexivity.
Qed.

(** X25.  The grouped gallery has, under every key that occurs, the images
    of that key in the order of the gallery, and no other key.  It is
    there to render exactly when no image has a group named like
    something every object inherits ([constructor], [toString], ...):
    with such a name [acc[key].push] is not a function. *)
Theorem grouping_by_key (images : list GeneratedImage) :
  (Forall (fun img => groupKey img ∉ inherited) images ->
   exists buckets,
     binGroupedImages inherited images = Some buckets
     /\ forall k, buckets !! k
                  = match ofKey k images with [] => None | l => Some l end)
  /\ (Exists (fun img => groupKey img ∈ inherited) images ->
      binGroupedImages inherited images = None).
Proof.
  split.
  - apply binGroupedImages_some.
  - apply fold_binStep_throws. intros k [l Hl]. rewrite lookup_empty in Hl.
    discriminate Hl.
Qed.

End GroupingFacts.

Lemma group_name_is (g : DatasetGroup) : isGroupName (group_name g).
Proof. unfold isGroupName. destruct g; cbn; tauto. Qed.

Lemma groupKey_newImage (p : DatasetPose) (url prompt : string) (now1 now2 : N) :
  groupKey (newImage p url prompt now1 now2) = group_name (pose_group p).
Proof. unfold groupKey. cbn [img_group newImage]. destruct (pose_group p); reflexivity. Qed.

Lemma made_images_group_names (ps : list DatasetPose) (imgs : list GeneratedImage) :
  Forall2 (fun p img => exists now1 now2,
             img = newImage p (img_url img) (img_prompt img) now1 now2) ps imgs ->
  Forall (fun img => isGroupName (groupKey img)) imgs.
Proof.
  induction 1 as [|p i ps imgs (n1 & n2 & Hi) _ IH]; constructor; [|exact IH].
  rewrite Hi, groupKey_newImage. apply group_name_is.
Qed.

Section BatchGrouping.

Variable POSE_DEFINITIONS : list DatasetPose.
Variable CLOTHING_LIST : list string.
Variable FACIAL_EXPRESSIONS : list string.
Variable inherited : gset string.
Hypothesis ids_unique : NoDup (pose_id <$> POSE_DEFINITIONS).

Local Abbreviation run' := (run POSE_DEFINITIONS CLOTHING_LIST FACIAL_EXPRESSIONS).
Local Abbreviation start' := (startDatasetMode POSE_DEFINITIONS).

(** X26.  The images of a batch can always be grouped, as long as the three
    group names are no inherited names: every key of the result is
    one of the three group names, and every image of the batch is in
    the bucket of its pose's group. *)
Theorem batch_images_grouped (m0 : Machine) (es : list Event) :
  canStart (app m0) = true ->
  (forall k, isGroupName k -> k ∉ inherited) ->
  let m := run' (start' m0) es in
  exists buckets,
    binGroupedImages inherited (images (task (app m))) = Some buckets
    /\ (forall k, is_Some (buckets !! k) -> isGroupName k)
    /\ (forall img, img ∈ images (task (app m)) ->
          exists bucket, buckets !! groupKey img = Some bucket /\ img ∈ bucket).
Proof.
  intros Hc Hnames m.
  destruct (Inv_batch POSE_DEFINITIONS CLOTHING_LIST FACIAL_EXPRESSIONS ids_unique
              m0 es Hc) as [_ Himg _ _ _ _ _ _ _ Hrec _].
  fold m in Himg, Hrec.
  assert (Hkeys : Forall (fun img => isGroupName (groupKey img)) (images (task (app m)))).
  { rewrite Himg. apply Forall_forall. intros img Hin.
    apply elem_of_rev_list in Hin.
    pose proof (made_images_group_names _ _ (successPoses_images _ Hrec)) as H2.
    rewrite Forall_forall in H2. exact (H2 img Hin). }
  generalize dependent (images (task (app m))). intros imgs _ Hkeys.
  destruct (binGroupedImages_some inherited imgs) as (buckets & E & Hb).
  { eapply Forall_impl; [exact Hkeys|]. intros img Hk. exact (Hnames _ Hk). }
  exists buckets. split; [exact E|]. split.
  - intros k [l Hl]. rewrite Hb in Hl.
    destruct (filter (fun img => groupKey img = k) imgs) as [|x l'] eqn:Ef;
      [discriminate Hl|].
    assert (Hx : x ∈ filter (fun img => groupKey img = k) imgs)
      by (rewrite Ef; apply elem_of_cons; left; reflexivity).
    apply list_elem_of_filter in Hx as [Hk Hx]. rewrite <- Hk.
    rewrite Forall_forall in Hkeys. exact (Hkeys x Hx).
  - intros img Hin. rewrite Hb.
    assert (Hx : img ∈ filter (fun i => groupKey i = groupKey img) imgs)
      by (apply list_elem_of_filter; split; [reflexivity | exact Hin]).
    destruct (filter (fun i => groupKey i = groupKey img) imgs) as [|x l'] eqn:Ef;
      [inversion Hx|].
    exists (x :: l'). split; [reflexivity | exact Hx].
Qed.

End BatchGrouping.

(** ** Clearing and resetting *)

(** X27.  One press of Clear Bin only arms the button and leaves the state
    of the batch as it is; a second press clears the gallery, the task
    and the failures and nothing else; and once the three seconds of
    the timer are over a press arms the button again, and clears
    nothing. *)
Theorem clear_needs_two_presses (p : Page) :
  clearConfirmMode p = false ->
  (page_app (handleClearClick p) = page_app p
   /\ clearConfirmMode (handleClearClick p) = true)
  /\ handleClearClick (handleClearClick p) = executeClearBin p
  /\ (gallery (page_app (executeClearBin p)) = []
      /\ failedAssets (page_app (executeClearBin p)) = []
      /\ task (page_app (executeClearBin p)) = pendingTask
      /\ clearConfirmMode (executeClearBin p) = false
      /\ settings (page_app (executeClearBin p)) = settings (page_app p)
      /\ selectedPoseIds (page_app (executeClearBin p)) = selectedPoseIds (page_app p)
      /\ isKeyConfirmed (page_app (executeClearBin p)) = isKeyConfirmed (page_app p))
  /\ handleClearClick (clearConfirmTimeout (handleClearClick p)) = handleClearClick p.
Proof.
  intros H. destruct p as [a an cc pn]. cbn [clearConfirmMode] in H. subst cc.
  split; [split; reflexivity|].
  split; [reflexivity|].
  split; [repeat split|].
  reflexivity.
Qed.

(** X28.  Resetting the studio keeps the gallery, the key and its
    confirmation, as its prompt says, and takes away the image, both
    profiles and the selection: the Generate button does nothing until
    an image is loaded again.  With the prompt declined nothing
    changes. *)
Theorem reset_keeps_gallery (catalog : list DatasetPose) (m : Machine) :
  gallery (resetAll true (app m)) = gallery (app m)
  /\ isKeyConfirmed (resetAll true (app m)) = isKeyConfirmed (app m)
  /\ userApiKey (settings (resetAll true (app m))) = userApiKey (settings (app m))
  /\ getActiveProfile (settings (resetAll true (app m))) = None
  /\ selectedPoseIds (resetAll true (app m)) = ∅
  /\ startDatasetMode catalog (onMachine (resetAll true) m) = onMachine (resetAll true) m
  /\ onMachine (resetAll false) m = m.
Proof.
  split; [reflexivity|]. split; [reflexivity|]. split; [reflexivity|].
  split; [|split; [reflexivity|split]].
  - unfold getActiveProfile.
    cbn [resetAll setFailedAssets setSelectedPoseIds setTask setSettings settings
         resetSettings profileMode characterProfile manualCharacterProfile].
    destruct (profileMode (settings (app m))); reflexivity.
  - unfold startDatasetMode.
    replace (canStart (app (onMachine (resetAll true) m))) with false; [reflexivity|].
    unfold canStart.
    cbn [onMachine app resetAll setFailedAssets setSelectedPoseIds setTask setSettings
         settings resetSettings sourceImage Js.truthy_opt andb].
    reflexivity.
  - destruct m; reflexivity.
Qed.

(** ** From one batch to the next *)




Section NextBatch.

Variable POSE_DEFINITIONS : list DatasetPose.
Variable CLOTHING_LIST : list string.
Variable FACIAL_EXPRESSIONS : list string.
Hypothesis ids_unique : NoDup (pose_id <$> POSE_DEFINITIONS).

Local Abbreviation Inv' := (Inv POSE_DEFINITIONS).
Local Abbreviation Inv3' := (Inv3 POSE_DEFINITIONS).
Local Abbreviation step' := (step POSE_DEFINITIONS CLOTHING_LIST FACIAL_EXPRESSIONS).
Local Abbreviation run' := (run POSE_DEFINITIONS CLOTHING_LIST FACIAL_EXPRESSIONS).
Local Abbreviation start' := (startDatasetMode POSE_DEFINITIONS).

Ltac fields :=
  cbn [app loop issued settled selectedPoses
       settings isKeyConfirmed selectedPoseIds gallery failedAssets task isAbortedRef
       status total current images error
       setTask setGallery setFailedAssets setSelectedPoseIds setIsKeyConfirmed
       setAborted withImage withProcessed withStatus withFailure stopGeneration
       isRunning pendingPoses] in *.




(** No event of a batch changes the settings. *)
Lemma settings_step (m : Machine) (e : Event) :
  settings (app (step' m e)) = settings (app m).
Proof.
  destruct e as [| |d|o now1 now2]; cbn [step].
  - destruct (isGenerating (app m) || isRunning m); [reflexivity|].
    unfold startDatasetMode. destruct (canStart (app m)); reflexivity.
  - destruct (isGenerating (app m)); reflexivity.
  - unfold resume.
    destruct (loop m) as [|[|pose rest]|]; try reflexivity.
    + unfold finish. cbn [app]. destruct (isAbortedRef (app m)); reflexivity.
    + destruct (isAbortedRef (app m)) eqn:E; [|reflexivity].
      unfold finish. cbn [app]. rewrite E. reflexivity.
  - unfold settle.
    destruct (loop m) as [| |pose prompt rest]; try reflexivity.
    destruct (generateCharacterImage o) as [url|message];
      [|destruct (isAuthFailure message)]; reflexivity.
Qed.





End NextBatch.

(** ** The further theorems at the sample catalog *)


Lemma analysis_gives_ready_profile_witness :
  let p' := analyzeImage_settle (AnalysisFulfilled None) Sample2.page in
  isProfileReady (settings (page_app p')) = true
  /\ characterProfile (settings (page_app p')) = Some "A detailed character profile.".
Proof.
  intros p'.
  destruct (analysis_gives_ready_profile None Sample2.page ltac:(sample))
    as (H1 & _ & H3 & _).
  split; [exact H1 | exact H3].
Defined.

Lemma analysis_failure_keeps_profile_witness :
  let p' := analyzeImage_settle Sample2.keyRefused Sample2.page in
  settings (page_app p') = settings (page_app Sample2.page)
  /\ isKeyConfirmed (page_app p') = false
  /\ startDatasetMode Sample.catalog (idle (page_app p')) = idle (page_app p').
Proof.
  intros p'.
  destruct (analysis_failure_keeps_profile Sample.catalog Sample2.keyRefused
              "401 Unauthorized" Sample2.page (idle (page_app p'))
              ltac:(sample) eq_refl) as (H1 & _ & H3 & _).
  destruct (H3 ltac:(sample)) as [H4 H5].
  split; [exact H1|]. split; [exact H4 | exact H5].
Defined.

Lemma body_sliders_only_when_unlocked_witness :
  composePrompt Sample.clothing Sample.expressions Sample2.athletic Sample.front Sample.draw
  = composePrompt Sample.clothing Sample.expressions Sample.cfg Sample.front Sample.draw.
Proof.
  apply (body_sliders_only_when_unlocked Sample.clothing Sample.expressions
           Sample.cfg Sample2.athletic Sample.front Sample.draw);
    try reflexivity.
  left. reflexivity.
Defined.

Lemma clean_profile_unchanged_witness :
  stripBodyLanguage "HAIR: short, black. FACE: oval" = "HAIR: short, black. FACE: oval".
Proof.
  apply (clean_profile_unchanged "HAIR: short, black. FACE: oval").
  intros f Hf. apply list_elem_of_In in Hf. vm_compute in Hf.
  destruct Hf as [<-|[<-|[]]]; reflexivity.
Defined.

Lemma hair_text_is_a_piece_witness :
  Js.truthy "waist-length, straight" = true
  /\ hasDot "waist-length, straight" = false
  /\ exists pre post,
       "HAIR: waist-length, straight. FACE: oval. BODY: slim waist."
       = pre +:+ "waist-length, straight" +:+ post.
Proof.
  apply (hair_text_is_a_piece
           "HAIR: waist-length, straight. FACE: oval. BODY: slim waist."
           "waist-length, straight").
  sample.
Defined.

Lemma hair_text_of_format_witness :
  HairRegex.exec ("HAIR: " +:+ String "w" "aist-length" +:+ "." +:+ " FACE: oval.")
  = Some (String "w" "aist-length").
Proof.
  apply (hair_text_of_format "w" "aist-length" " FACE: oval."); reflexivity.
Defined.

Lemma select_all_runs_catalog_witness :
  let m1 := onMachine (selectRecommended702010 Sample.catalog)
              (idle (Sample.appWith ∅)) in
  selectedPoses (startDatasetMode Sample.catalog m1) = Sample.catalog
  /\ total (task (app (startDatasetMode Sample.catalog m1))) = 5.
Proof.
  intros m1.
  destruct (select_all_runs_catalog Sample.catalog ltac:(sample)
              (idle (Sample.appWith ∅)) ltac:(sample)) as (H1 & H2 & _).
  split; [exact H1 | exact H2].
Defined.

Lemma current_is_images_plus_failures_witness :
  let m := Sample2.after Sample.allIds
             (Sample.pose Sample.image ++ Sample.pose Sample.noCandidates) in
  current (task (app m))
  = length (images (task (app m))) + length (failedAssets (app m)).
Proof.
  intros m.
  apply (current_is_images_plus_failures Sample.catalog Sample.clothing
           Sample.expressions ltac:(sample) (idle (Sample.appWith Sample.allIds))).
  sample.
Defined.


Lemma every_prompt_has_identity_witness :
  Js.startsWith (Sample2.prompt Sample.front) "DATASET PRODUCTION. " = true
  /\ Js.includes (Sample2.prompt Sample.front)
       ("TARGET POSE: " +:+ pose_description Sample.front +:+ ". COMPOSITION: ") = true
  /\ Js.includes (Sample2.prompt Sample.front) "IDENTITY CONSTRAINTS: " = true.
Proof.
  apply (every_prompt_has_identity Sample.catalog Sample.clothing
           Sample.expressions ltac:(sample) (idle (Sample.appWith Sample.allIds))
           (Sample.pose Sample.image) ltac:(sample) Sample.front).
  apply list_elem_of_In. vm_compute. left. reflexivity.
Defined.

Lemma unstopped_batch_completes_witness :
  let m := Sample2.after Sample2.two
             (wholeRun [(Sample.draw, Sample.image, 10%N, 11%N);
                        (Sample.draw, Sample.noCandidates, 12%N, 13%N)] Sample.draw) in
  status (task (app m)) = completed
  /\ current (task (app m)) = 2
  /\ length (images (task (app m))) = 1.
Proof.
  intros m.
  destruct (unstopped_batch_completes Sample.catalog Sample.clothing
              Sample.expressions (idle (Sample.appWith Sample2.two))
              [(Sample.draw, Sample.image, 10%N, 11%N);
               (Sample.draw, Sample.noCandidates, 12%N, 13%N)] Sample.draw
              ltac:(sample) ltac:(sample)
              ltac:(repeat constructor)) as (H1 & _ & H3 & H4 & _).
  split; [exact H1|]. split; [exact H3 | exact H4].
Defined.


Lemma same_payload_everywhere_witness :
  Text.secondPiece "," ("data:" +:+ "image/jpeg" +:+ ";base64," +:+ "AAAA") = Some "AAAA"
  /\ cleanBase64 ("data:" +:+ "image/jpeg" +:+ ";base64," +:+ "AAAA") = "AAAA".
Proof.
  apply (same_payload_everywhere "image/jpeg" "AAAA"); reflexivity.
Defined.

Lemma batch_image_archived_witness :
  archiveEntry Sample.catalog "set" 3
    (newImage Sample.front (dataUrl {| data := Some "QUJD" |})
       (Sample2.prompt Sample.front) 10 11)
  = Some ("set" +:+ "_" +:+ Text.replaceSpaceRuns (pose_label Sample.front) +:+ "_"
                +:+ pretty 3 +:+ ".png",
          "QUJD").
Proof.
  apply (batch_image_archived Sample.catalog ltac:(sample) "set"
           (Sample2.prompt Sample.front) "QUJD" 3 Sample.front
           {| data := Some "QUJD" |} 10 11).
  - apply list_elem_of_In. left. reflexivity.
  - reflexivity.
  - reflexivity.
  - discriminate.
  - reflexivity.
Defined.

Lemma batch_images_grouped_witness :
  let m := Sample2.after Sample.allIds
             (Sample.pose Sample.image ++ Sample.pose Sample.image) in
  exists buckets,
    binGroupedImages Sample2.inherited (images (task (app m))) = Some buckets
    /\ (forall k, is_Some (buckets !! k) -> isGroupName k)
    /\ (forall img, img ∈ images (task (app m)) ->
          exists bucket, buckets !! groupKey img = Some bucket /\ img ∈ bucket).
Proof.
  intros m.
  apply (batch_images_grouped Sample.catalog Sample.clothing
           Sample.expressions Sample2.inherited ltac:(sample)
           (idle (Sample.appWith Sample.allIds))
           (Sample.pose Sample.image ++ Sample.pose Sample.image)).
  - sample.
  - intros k [->|[->| ->]]; sample.
Defined.

Lemma clear_needs_two_presses_witness :
  page_app (handleClearClick Sample2.page) = page_app Sample2.page
  /\ gallery (page_app (executeClearBin Sample2.page)) = []
  /\ handleClearClick (handleClearClick Sample2.page) = executeClearBin Sample2.page
  /\ handleClearClick (clearConfirmTimeout (handleClearClick Sample2.page))
     = handleClearClick Sample2.page.
Proof.
  destruct (clear_needs_two_presses Sample2.page eq_refl)
    as ((H1 & _) & H2 & (H3 & _) & H4).
  split; [exact H1|]. split; [exact H3|]. split; [exact H2 | exact H4].
Defined.



(** ** Several loops: what a loop keeps, and a batch on its own *)

Lemma setSettings_back (a : App) (c : Settings) :
  setSettings (fun _ => settings a) (setSettings (fun _ => c) a) = a.
Proof. destruct a; reflexivity. Qed.

Lemma setSettings_same (a : App) : setSettings (fun _ => settings a) a = a.
Proof. destruct a; reflexivity. Qed.

Lemma kept_seen (a : App) (t : Thread) : kept (closure t) (seen a t) = t.
Proof. destruct t; reflexivity. Qed.

Lemma seen_kept (m : Machine) : seen (app m) (kept (settings (app m)) m) = m.
Proof.
  destruct m as [a l p i st]. unfold seen, kept. cbn [closure th_loop th_poses
    th_issued th_settled app]. rewrite setSettings_same. reflexivity.
Qed.

(** A turn of a loop that has returned does nothing. *)
Lemma onThread_returned (i : nat) (f : Machine -> Machine) (s : Studio) :
  (forall m, loop m = NotRunning -> f m = m) ->
  (forall t, threads s !! i = Some t -> alive t = false) ->
  onThread i f s = s.
Proof.
  intros Hf Hi. unfold onThread.
  destruct (threads s !! i) as [t|] eqn:E; [|reflexivity].
  specialize (Hi t eq_refl). unfold alive in Hi.
  rewrite Hf by (cbn [seen loop]; destruct (th_loop t); [reflexivity | discriminate Hi..]).
  cbn [seen app]. rewrite setSettings_back, kept_seen, list_insert_id by exact E.
  destruct s; reflexivity.
Qed.

Section LoopFacts.

Variable POSE_DEFINITIONS : list DatasetPose.
Variable CLOTHING_LIST : list string.
Variable FACIAL_EXPRESSIONS : list string.

Local Abbreviation act' := (act POSE_DEFINITIONS CLOTHING_LIST FACIAL_EXPRESSIONS).
Local Abbreviation perform' := (perform POSE_DEFINITIONS CLOTHING_LIST FACIAL_EXPRESSIONS).
Local Abbreviation generate' := (generate POSE_DEFINITIONS).
Local Abbreviation resume' := (resume CLOTHING_LIST FACIAL_EXPRESSIONS).
Local Abbreviation step' := (step POSE_DEFINITIONS CLOTHING_LIST FACIAL_EXPRESSIONS).
Local Abbreviation run' := (run POSE_DEFINITIONS CLOTHING_LIST FACIAL_EXPRESSIONS).
Local Abbreviation start' := (startDatasetMode POSE_DEFINITIONS).

Lemma resume_returned (d : Draws) (m : Machine) : loop m = NotRunning -> resume' d m = m.
Proof. intros H. unfold resume. rewrite H. reflexivity. Qed.

Lemma settle_returned (o : ProviderOutcome) (now1 now2 : N) (m : Machine) :
  loop m = NotRunning -> settle o now1 now2 m = m.
Proof. intros H. unfold settle. rewrite H. reflexivity. Qed.

(** *** What a loop keeps to itself, in every schedule *)

Lemma ordered_resume (d : Draws) (a : App) (t : Thread) :
  ordered t -> ordered (kept (closure t) (resume' d (seen a t))).
Proof.
  intros [[u Hu] Hi]. unfold resume. cbn [seen loop].
  destruct (th_loop t) as [|[|pose rest]|pose prompt rest] eqn:Hl.
  - rewrite <- (kept_seen a t) at 1. unfold kept. cbn [seen loop selectedPoses issued settled].
    rewrite Hl. split; [exists u; exact Hu | exact Hi].
  - unfold finish, kept. cbn [seen loop selectedPoses issued settled].
    split; [exists u; exact Hu | exact Hi].
  - destruct (isAbortedRef (app (seen a t))).
    + unfold finish, kept. cbn [seen loop selectedPoses issued settled].
      split.
      * exists (pose :: rest ++ u). exact Hu.
      * cbn [inFlight] in *. exact Hi.
    + unfold kept. cbn [seen loop selectedPoses issued settled th_loop th_poses
        th_issued th_settled closure].
      split; [exists u; exact Hu|].
      cbn [inFlight] in *. rewrite Hi, app_nil_r. reflexivity.
  - unfold kept. cbn [seen loop selectedPoses issued settled th_loop th_poses
      th_issued th_settled closure]. rewrite Hl.
    split; [exists u; exact Hu | exact Hi].
Qed.

Lemma ordered_settle (o : ProviderOutcome) (now1 now2 : N) (a : App) (t : Thread) :
  ordered t -> ordered (kept (closure t) (settle o now1 now2 (seen a t))).
Proof.
  intros [[u Hu] Hi]. unfold settle. cbn [seen loop].
  destruct (th_loop t) as [|rest|pose prompt rest] eqn:Hl.
  - unfold kept. cbn [seen loop selectedPoses issued settled]. rewrite Hl.
    split; [exists u; exact Hu | exact Hi].
  - unfold kept. cbn [seen loop selectedPoses issued settled]. rewrite Hl.
    split; [exists u; exact Hu | exact Hi].
  - cbn [pendingPoses inFlight] in Hu, Hi.
    destruct (generateCharacterImage o) as [url|message];
      [|destruct (isAuthFailure message)];
      unfold ordered, kept; cbn [seen loop selectedPoses issued settled th_loop th_poses
        th_issued th_settled closure pendingPoses inFlight];
      rewrite !fmap_app; cbn [fmap list_fmap outcomePose outcomeCall img_prompt
        newImage fa_prompt newFailedAsset]; rewrite ?app_nil_r.
    + split; [exists u; rewrite <- Hu, <- app_assoc; reflexivity | exact Hi].
    + split; [exists (rest ++ u); rewrite <- Hu, <- app_assoc; reflexivity | exact Hi].
    + split; [exists u; rewrite <- Hu, <- app_assoc; reflexivity | exact Hi].
Qed.

Lemma ordered_generate (a : App) :
  canStart a = true -> ordered (kept (settings a) (start' (idle a))).
Proof.
  intros Hc. unfold startDatasetMode. cbn [idle app]. rewrite Hc. cbn [negb].
  unfold kept, ordered. cbn [loop selectedPoses issued settled th_loop th_poses
    th_issued th_settled pendingPoses inFlight fmap list_fmap].
  split; [exists []; rewrite app_nil_r; reflexivity | reflexivity].
Qed.

Lemma ordered_onThread (i : nat) (f : Machine -> Machine) (s : Studio) :
  (forall a t, ordered t -> ordered (kept (closure t) (f (seen a t)))) ->
  Forall ordered (threads s) -> Forall ordered (threads (onThread i f s)).
Proof.
  intros Hf Hall. unfold onThread.
  destruct (threads s !! i) as [t|] eqn:E; [|exact Hall].
  cbn [threads]. apply Forall_insert; [exact Hall|].
  apply Hf. rewrite Forall_forall in Hall. apply Hall.
  apply list_elem_of_lookup. exists i. exact E.
Qed.

(** Every loop keeps its order, whatever the other loops and the user
    do. *)
Lemma ordered_act (s : Studio) (a : Action) :
  Forall ordered (threads s) -> Forall ordered (threads (act' s a)).
Proof.
  intros Hall. unfold act. destruct (canPress a (live s)); [|exact Hall].
  destruct a as [| | | |i d|i o now1 now2]; try exact Hall.
  - unfold generate. destruct (canStart (live s)) eqn:Hc; [|exact Hall].
    cbn [threads]. apply Forall_app. split; [exact Hall|].
    apply Forall_singleton, ordered_generate, Hc.
  - apply ordered_onThread; [|exact Hall]. intros a t. apply ordered_resume.
  - apply ordered_onThread; [|exact Hall]. intros a t. apply ordered_settle.
Qed.

Lemma ordered_perform (acts : list Action) (s : Studio) :
  Forall ordered (threads s) -> Forall ordered (threads (perform' s acts)).
Proof.
  revert s. induction acts as [|a acts IH]; intros s H; [exact H|].
  cbn [perform fold_left]. apply IH, ordered_act, H.
Qed.

(** A loop that has returned is never heard of again. *)
Lemma returned_act (s : Studio) (a : Action) (i : nat) (t : Thread) :
  threads s !! i = Some t -> alive t = false -> threads (act' s a) !! i = Some t.
Proof.
  intros Hi Ht. unfold act. destruct (canPress a (live s)); [|exact Hi].
  assert (Hon : forall j f, (forall m, loop m = NotRunning -> f m = m) ->
                            threads (onThread j f s) !! i = Some t).
  { intros j f Hf. unfold onThread.
    destruct (threads s !! j) as [t'|] eqn:E; [|exact Hi]. cbn [threads].
    destruct (decide (j = i)) as [->|Hne].
    - rewrite Hi in E. injection E as <-.
      rewrite list_lookup_insert_eq by (apply lookup_lt_Some in Hi; exact Hi).
      rewrite Hf by (unfold alive in Ht; cbn [seen loop];
                     destruct (th_loop t); [reflexivity | discriminate Ht..]).
      rewrite kept_seen. reflexivity.
    - rewrite list_lookup_insert_ne by exact Hne. exact Hi. }
  destruct a as [| | | |j d|j o now1 now2]; try exact Hi.
  - unfold generate. destruct (canStart (live s)); [|exact Hi].
    cbn [threads]. apply lookup_app_l_Some. exact Hi.
  - apply Hon. intros m. apply resume_returned.
  - apply Hon. intros m. apply settle_returned.
Qed.

Lemma returned_perform (acts : list Action) (s : Studio) (i : nat) (t : Thread) :
  threads s !! i = Some t -> alive t = false -> threads (perform' s acts) !! i = Some t.
Proof.
  revert s. induction acts as [|a acts IH]; intros s Hi Ht; [exact Hi|].
  cbn [perform fold_left]. apply IH; [|exact Ht]. apply returned_act; assumption.
Qed.

(** *** A batch on its own is the machine of one batch *)

Lemma canPress_generate (a : App) :
  canStart a = true -> isGenerating a = false -> canPress Generate a = true.
Proof.
  unfold canStart, canPress, mainScreen, studioScreen. intros H Hg.
  apply andb_prop in H as [H H4]. apply andb_prop in H as [H H3].
  apply andb_prop in H as [H1 H2].
  rewrite H3, H2, H1, Hg. cbn [negb andb orb]. exact H4.
Qed.

Lemma represents_same (n : nat) (s : Studio) (m : Machine) (a' : App) (m' : Machine) :
  represents n s m ->
  a' = app m' -> settings (app m') = settings (app m) ->
  loop m' = loop m -> selectedPoses m' = selectedPoses m ->
  issued m' = issued m -> settled m' = settled m ->
  represents n {| live := a'; threads := threads s |} m'.
Proof.
  intros (Hl & Hn & Ho) Ha Hs H1 H2 H3 H4. split; [exact Ha|]. split; [|exact Ho].
  cbn [threads]. rewrite Hn. unfold kept. rewrite Hs, H1, H2, H3, H4. reflexivity.
Qed.

Lemma represents_turn (n i : nat) (s : Studio) (m : Machine) (f : Machine -> Machine) :
  represents n s m ->
  (forall m0, loop m0 = NotRunning -> f m0 = m0) ->
  settings (app (f m)) = settings (app m) ->
  represents n (onThread i f s) (if decide (i = n) then f m else m).
Proof.
  intros (Hl & Hn & Ho) Hf Hs.
  destruct (decide (i = n)) as [->|Hne].
  - unfold onThread. rewrite Hn, Hl, seen_kept.
    cbn [closure kept]. split; [|split].
    + cbn [live]. rewrite <- Hs. apply setSettings_same.
    + cbn [threads].
      rewrite list_lookup_insert_eq by (apply lookup_lt_Some in Hn; exact Hn).
      unfold kept. rewrite Hs. reflexivity.
    + intros j t Hj. cbn [threads]. rewrite list_lookup_insert_ne by congruence.
      apply Ho, Hj.
  - rewrite onThread_returned; [split; [exact Hl | split; [exact Hn | exact Ho]] | exact Hf |].
    intros t. apply Ho, Hne.
Qed.

(** Without a new start, a clearing or a reset, every action of the
    page is an event of the one batch, or nothing. *)
Lemma act_represents (n : nat) (s : Studio) (m : Machine) (a : Action) :
  represents n s m -> reinitializes a = false ->
  exists es, represents n (act' s a) (run' m es).
Proof.
  intros HR Ha. unfold act.
  destruct (canPress a (live s)) eqn:Hp; [|exists []; exact HR].
  destruct a as [| | | |i d|i o now1 now2]; try discriminate Ha.
  - exists [EvStop]. cbn [run fold_left step].
    destruct HR as (Hl & Hn & Ho).
    assert (Hg : isGenerating (app m) = true).
    { cbn [canPress] in Hp. apply andb_prop in Hp as [_ Hp]. rewrite <- Hl. exact Hp. }
    rewrite Hg. split; [cbn [live app]; rewrite Hl; reflexivity|].
    split; [exact Hn | exact Ho].
  - exists (if decide (i = n) then [EvResume d] else []).
    pose proof (represents_turn n i s m (resume' d) HR
                  (resume_returned d)
                  (settings_step POSE_DEFINITIONS CLOTHING_LIST FACIAL_EXPRESSIONS
                     m (EvResume d))) as H.
    destruct (decide (i = n)); exact H.
  - exists (if decide (i = n) then [EvSettle o now1 now2] else []).
    pose proof (represents_turn n i s m (settle o now1 now2) HR
                  (settle_returned o now1 now2)
                  (settings_step POSE_DEFINITIONS CLOTHING_LIST FACIAL_EXPRESSIONS
                     m (EvSettle o now1 now2))) as H.
    destruct (decide (i = n)); exact H.
Qed.

Lemma perform_represents (n : nat) (acts : list Action) (s : Studio) (m : Machine) :
  represents n s m -> Forall (fun a => reinitializes a = false) acts ->
  exists es, represents n (perform' s acts) (run' m es).
Proof.
  revert s m. induction acts as [|a acts IH]; intros s m HR Hall.
  - exists []. exact HR.
  - apply Forall_cons in Hall as [Ha Hall].
    destruct (act_represents n s m a HR Ha) as [es1 H1].
    destruct (IH _ _ H1 Hall) as [es2 H2].
    exists (es1 ++ es2). unfold run in *. rewrite fold_left_app. exact H2.
Qed.

Lemma generate_represents (s0 : Studio) :
  Forall (fun t => alive t = false) (threads s0) ->
  canStart (live s0) = true -> isGenerating (live s0) = false ->
  represents (length (threads s0)) (act' s0 Generate) (start' (idle (live s0))).
Proof.
  intros Hall Hc Hg. unfold act. rewrite (canPress_generate _ Hc Hg).
  unfold generate. rewrite Hc. split; [reflexivity|]. split.
  - cbn [threads]. rewrite lookup_app_r by lia.
    replace (length (threads s0) - length (threads s0)) with 0 by lia.
    cbn [lookup list_lookup]. f_equal. f_equal.
    unfold startDatasetMode. cbn [idle app]. rewrite Hc. reflexivity.
  - intros j t Hj Ht. cbn [threads] in Ht.
    apply lookup_app_Some in Ht as [Ht|[Hge Ht]].
    + rewrite Forall_forall in Hall. apply Hall.
      apply list_elem_of_lookup. exists j. exact Ht.
    + destruct (j - length (threads s0)) as [|k] eqn:E; [lia|]. discriminate Ht.
Qed.

(** What the page shows of a batch run on its own is what the machine
    of one batch has. *)
Lemma alone_is_one_batch (s0 : Studio) (acts : list Action) :
  Forall (fun t => alive t = false) (threads s0) ->
  canStart (live s0) = true -> isGenerating (live s0) = false ->
  Forall (fun a => reinitializes a = false) acts ->
  exists es,
    represents (length (threads s0)) (perform' (act' s0 Generate) acts)
               (run' (start' (idle (live s0))) es).
Proof.
  intros Hall Hc Hg Hacts.
  apply perform_represents; [|exact Hacts]. apply generate_represents; assumption.
Qed.

(** *** The task when every loop has returned *)

Lemma returned_turns (s : Studio) (a : Action) :
  Forall (fun t => alive t = false) (threads s) ->
  match a with Proceed _ _ | Settles _ _ _ _ => True | _ => False end ->
  act' s a = s.
Proof.
  intros Hall Ha. rewrite Forall_forall in Hall.
  assert (Hi : forall i t, threads s !! i = Some t -> alive t = false).
  { intros i t Ht. apply Hall, list_elem_of_lookup. exists i. exact Ht. }
  unfold act. destruct (canPress a (live s)); [|reflexivity].
  destruct a as [| | | |i d|i o now1 now2]; try contradiction.
  - apply onThread_returned; [apply resume_returned | apply Hi].
  - apply onThread_returned; [apply settle_returned | apply Hi].
Qed.

(** On the key screen there is no button, and with no loop alive
    nothing happens. *)
Lemma locked_out (s : Studio) (acts : list Action) :
  isKeyConfirmed (live s) = false ->
  Forall (fun t => alive t = false) (threads s) ->
  perform' s acts = s.
Proof.
  intros Hk Hall. induction acts as [|a acts IH]; [reflexivity|].
  cbn [perform fold_left]. replace (act' s a) with s; [exact IH|].
  symmetry. destruct a as [| | | |i d|i o now1 now2];
    try (unfold act, canPress, mainScreen; rewrite Hk; reflexivity);
    apply returned_turns; trivial.
Qed.

Lemma settled_fatal (s : Studio) (i : nat) (t : Thread)
    (pose : DatasetPose) (prompt : string) (rest : list DatasetPose)
    (o : ProviderOutcome) (now1 now2 : N) (message : string) :
  threads s !! i = Some t -> th_loop t = Awaiting pose prompt rest ->
  generateCharacterImage o = Thrown message -> isAuthFailure message = true ->
  act' s (Settles i o now1 now2)
  = {| live := setTask (withFailure message) (setIsKeyConfirmed false (live s));
       threads := <[i := {| closure := closure t; th_loop := NotRunning;
                            th_poses := th_poses t; th_issued := th_issued t;
                            th_settled := th_settled t ++ [Fatal pose prompt message] |}]>
                    (threads s) |}.
Proof.
  intros Hi Hl Ho Hm. unfold act. cbn [canPress]. unfold onThread. rewrite Hi.
  unfold settle. cbn [seen loop]. rewrite Hl, Ho, Hm.
  unfold kept. cbn [app loop selectedPoses issued settled]. reflexivity.
Qed.

(** The writes of the three handlers, whatever the status is. *)
Lemma settled_task (s : Studio) (i : nat) (t : Thread)
    (pose : DatasetPose) (prompt : string) (rest : list DatasetPose)
    (o : ProviderOutcome) (now1 now2 : N) :
  threads s !! i = Some t -> th_loop t = Awaiting pose prompt rest ->
  task (live (act' s (Settles i o now1 now2)))
  = match generateCharacterImage o with
    | Resolved url => withImage (newImage pose url prompt now1 now2) (task (live s))
    | Thrown message =>
        if isAuthFailure message then withFailure message (task (live s))
        else withProcessed (task (live s))
    end.
Proof.
  intros Hi Hl. unfold act. cbn [canPress]. unfold onThread. rewrite Hi.
  unfold settle. cbn [seen loop]. rewrite Hl.
  destruct (generateCharacterImage o) as [url|message];
    [|destruct (isAuthFailure message)]; reflexivity.
Qed.

Section Sequence.

Hypothesis ids_unique : NoDup (pose_id <$> POSE_DEFINITIONS).

(** C1, as the code has it.  In a batch that runs on its own, with
    every earlier loop returned when it starts and no new start, no
    clearing and no reset after, [task.current] is at every point the
    number of poses processed so far, those that succeeded plus those
    that failed without ending the batch; it is at most [task.total];
    and [task.images] has one image per pose that succeeded. *)
Theorem progress_counts (s0 : Studio) (acts : list Action) :
  Forall (fun t => alive t = false) (threads s0) ->
  canStart (live s0) = true -> isGenerating (live s0) = false ->
  Forall (fun a => reinitializes a = false) acts ->
  let s := perform' (act' s0 Generate) acts in
  exists t,
    threads s !! length (threads s0) = Some t
    /\ current (task (live s))
       = length (filter isSuccess (th_settled t))
         + length (filter isRecovered (th_settled t))
    /\ current (task (live s)) <= total (task (live s))
    /\ length (images (task (live s))) = length (filter isSuccess (th_settled t)).
Proof.
  intros Hall Hc Hg Hacts s.
  destruct (alone_is_one_batch s0 acts Hall Hc Hg Hacts) as [es (Hl & Hn & _)].
  fold s in Hl, Hn.
  pose proof (Inv_batch POSE_DEFINITIONS CLOTHING_LIST FACIAL_EXPRESSIONS ids_unique
                (idle (live s0)) es Hc) as [Hcur Himg _ _ Htot _ _ _ _ _ _].
  eexists. split; [exact Hn|]. rewrite Hl. cbn [kept th_settled].
  split; [rewrite Hcur; apply processed_split|]. split; [lia|].
  rewrite Himg, length_rev. apply successImages_length.
Qed.

(** X14.  In a batch that runs on its own the task is [completed]
    only when the loop has returned and every pose of its processing
    order has been processed, none with a fatal outcome: [current] is
    then the number of those poses. *)
Theorem completed_means_all_processed (s0 : Studio) (acts : list Action) :
  Forall (fun t => alive t = false) (threads s0) ->
  canStart (live s0) = true -> isGenerating (live s0) = false ->
  Forall (fun a => reinitializes a = false) acts ->
  let s := perform' (act' s0 Generate) acts in
  status (task (live s)) = completed ->
  exists t,
    threads s !! length (threads s0) = Some t
    /\ th_loop t = NotRunning
    /\ outcomePose <$> th_settled t = th_poses t
    /\ Forall (fun o => isProcessed o = true) (th_settled t)
    /\ current (task (live s)) = length (th_poses t).
Proof.
  intros Hall Hc Hg Hacts s Hs.
  destruct (alone_is_one_batch s0 acts Hall Hc Hg Hacts) as [es (Hl & Hn & _)].
  fold s in Hl, Hn. rewrite Hl in Hs |- *.
  destruct (Inv2_batch POSE_DEFINITIONS CLOTHING_LIST FACIAL_EXPRESSIONS ids_unique
              (idle (live s0)) es Hc) as [Hinv [Hproc Hdone _ _ _ _]].
  set (m := run' (start' (idle (live s0))) es) in *.
  pose proof (inv_flag _ _ Hinv) as Hflag.
  assert (Hlp : loop m = NotRunning).
  { destruct (loop m); [reflexivity| |];
      destruct Hflag as [[Hx _]|[Hx _]]; congruence. }
  assert (Hp : Forall (fun o => isProcessed o = true) (settled m)).
  { apply Hproc. congruence. }
  assert (Ha : outcomePose <$> settled m = selectedPoses m).
  { rewrite <- Hdone by (right; exact Hs). rewrite Hlp. cbn [pendingPoses].
    rewrite app_nil_r. reflexivity. }
  eexists. split; [exact Hn|]. cbn [kept th_loop th_settled th_poses].
  split; [exact Hlp|]. split; [exact Ha|]. split; [exact Hp|].
  rewrite (inv_current _ _ Hinv), (all_processed_length _ Hp), <- Ha, length_fmap.
  reflexivity.
Qed.

(** X15.  In a batch that runs on its own [task.error] is set
    exactly when the task is [failed]; the page then shows the key
    screen, the loop has returned, and nothing happens any more until
    a key is confirmed. *)
Theorem error_iff_failed (s0 : Studio) (acts : list Action) :
  Forall (fun t => alive t = false) (threads s0) ->
  canStart (live s0) = true -> isGenerating (live s0) = false ->
  Forall (fun a => reinitializes a = false) acts ->
  let s := perform' (act' s0 Generate) acts in
  (error (task (live s)) = None <-> status (task (live s)) <> failed)
  /\ (status (task (live s)) = failed ->
      isKeyConfirmed (live s) = false
      /\ Forall (fun t => alive t = false) (threads s)
      /\ forall acts', perform' s acts' = s).
Proof.
  intros Hall Hc Hg Hacts s.
  destruct (alone_is_one_batch s0 acts Hall Hc Hg Hacts) as [es (Hl & Hn & Ho)].
  fold s in Hl, Hn, Ho. rewrite Hl.
  destruct (Inv2_batch POSE_DEFINITIONS CLOTHING_LIST FACIAL_EXPRESSIONS ids_unique
              (idle (live s0)) es Hc) as [Hinv [_ _ Herr Hkey _ _]].
  set (m := run' (start' (idle (live s0))) es) in *.
  split; [exact Herr|]. intros Hs.
  pose proof (inv_flag _ _ Hinv) as Hflag.
  assert (Hlp : loop m = NotRunning).
  { destruct (loop m); [reflexivity| |];
      destruct Hflag as [[Hx _]|[Hx _]]; congruence. }
  assert (Hret : Forall (fun t => alive t = false) (threads s)).
  { apply Forall_forall. intros t Ht.
    apply list_elem_of_lookup in Ht as [j Hj].
    destruct (decide (j = length (threads s0))) as [->|Hne].
    - rewrite Hn in Hj. injection Hj as <-. unfold alive, kept. cbn [th_loop].
      rewrite Hlp. reflexivity.
    - exact (Ho j t Hne Hj). }
  split; [exact (Hkey Hs)|]. split; [exact Hret|].
  intros acts'. apply locked_out; [|exact Hret]. rewrite Hl. exact (Hkey Hs).
Qed.

End Sequence.

(** C2, as the code has it.  When the call of a loop for the pose at
    position k of its processing order, counted from one, settles with
    an authorization failure, the task is [failed] with the message as
    its error and the key confirmation is withdrawn; that loop returns:
    it has made exactly the calls for its first k poses and makes no
    other call, whatever happens afterwards.  When every other loop has
    returned, nothing at all happens afterwards. *)
Theorem auth_failure_ends_loop (a0 : App) (acts : list Action) (i : nat) (t : Thread)
    (pose : DatasetPose) (prompt : string) (rest : list DatasetPose)
    (o : ProviderOutcome) (now1 now2 : N) (message : string) :
  let s := perform' (opened a0) acts in
  threads s !! i = Some t -> th_loop t = Awaiting pose prompt rest ->
  generateCharacterImage o = Thrown message -> isAuthFailure message = true ->
  let s' := act' s (Settles i o now1 now2) in
  let k := length (th_issued t) in
  status (task (live s')) = failed
  /\ error (task (live s')) = Some message
  /\ isKeyConfirmed (live s') = false
  /\ 1 <= k <= length (th_poses t)
  /\ th_poses t !! (k - 1) = Some pose
  /\ fst <$> th_issued t = take k (th_poses t)
  /\ (forall acts', exists t',
        threads (perform' s' acts') !! i = Some t'
        /\ th_loop t' = NotRunning /\ th_issued t' = th_issued t)
  /\ ((forall j u, j <> i -> threads s !! j = Some u -> alive u = false) ->
      forall acts', perform' s' acts' = s').
Proof.
  intros s Hi Hl Ho Hm s' k.
  assert (Hord : ordered t).
  { pose proof (ordered_perform acts (opened a0) (Forall_nil_2 _)) as H.
    rewrite Forall_forall in H. apply H, list_elem_of_lookup. exists i. exact Hi. }
  destruct Hord as [[u Hu] Hiss]. rewrite Hl in Hu, Hiss.
  cbn [pendingPoses inFlight] in Hu, Hiss.
  assert (Hs' : s' = _) by exact (settled_fatal s i t pose prompt rest o now1 now2
                                    message Hi Hl Ho Hm).
  assert (Hk : k = length (outcomePose <$> th_settled t) + 1).
  { unfold k. rewrite Hiss, length_app, !length_fmap. reflexivity. }
  assert (Hfst : fst <$> th_issued t = (outcomePose <$> th_settled t) ++ [pose]).
  { rewrite Hiss, fmap_app, outcomeCall_pose. reflexivity. }
  assert (Hlt : i < length (threads s)) by (apply lookup_lt_Some in Hi; exact Hi).
  split; [rewrite Hs'; reflexivity|]. split; [rewrite Hs'; reflexivity|].
  split; [rewrite Hs'; reflexivity|].
  split; [rewrite Hk, <- Hu, !length_app; cbn [length]; lia|].
  split.
  { rewrite Hk, <- Hu.
    replace (length (outcomePose <$> th_settled t) + 1 - 1)
      with (length (outcomePose <$> th_settled t) + 0) by lia.
    rewrite lookup_app_r by lia.
    replace (_ + 0 - _) with 0 by lia. reflexivity. }
  split.
  { rewrite Hfst, Hk, <- Hu.
    change ((pose :: rest) ++ u) with ([pose] ++ (rest ++ u)).
    rewrite (app_assoc _ [pose]).
    replace (length (outcomePose <$> th_settled t) + 1)
      with (length ((outcomePose <$> th_settled t) ++ [pose]))
      by (rewrite length_app; reflexivity).
    rewrite take_app_length. reflexivity. }
  split.
  { intros acts'.
    exists {| closure := closure t; th_loop := NotRunning; th_poses := th_poses t;
              th_issued := th_issued t;
              th_settled := th_settled t ++ [Fatal pose prompt message] |}.
    split; [|split; reflexivity].
    apply returned_perform; [|reflexivity].
    rewrite Hs'. cbn [threads]. apply list_lookup_insert_eq. exact Hlt. }
  intros Hothers acts'. apply locked_out.
  - rewrite Hs'. reflexivity.
  - rewrite Hs'. cbn [threads]. apply Forall_forall. intros x Hx.
    apply list_elem_of_lookup in Hx as [j Hj].
    destruct (decide (j = i)) as [->|Hne].
    + rewrite list_lookup_insert_eq in Hj by exact Hlt. injection Hj as <-. reflexivity.
    + rewrite list_lookup_insert_ne in Hj by congruence. exact (Hothers j x Hne Hj).
Qed.

(** C4, as the code has it.  With the task [completed], [failed] or
    [stopped] and every loop returned, no action changes anything but
    one that makes the task anew: Generate, with the task of a new
    batch, and Clear Bin and the reset, with the initial task.  A loop
    that has not returned, as after a stop with its call in flight,
    still writes to the task when its call settles, whatever the
    status: the image and one more in [current], one more in [current]
    for a failure the loop goes on after, [failed] and the message for
    an authorization failure. *)
Theorem terminal_task_changes (s : Studio) (a : Action) :
  (isTerminal (status (task (live s))) = true ->
   Forall (fun t => alive t = false) (threads s) ->
   match a with
   | Generate => act' s a = s \/ task (live (act' s a)) = freshTask (live s)
   | ClearBin | Reset => act' s a = s \/ task (live (act' s a)) = pendingTask
   | _ => act' s a = s
   end)
  /\ (forall i t pose prompt rest o now1 now2,
        a = Settles i o now1 now2 ->
        threads s !! i = Some t -> th_loop t = Awaiting pose prompt rest ->
        task (live (act' s a))
        = match generateCharacterImage o with
          | Resolved url => withImage (newImage pose url prompt now1 now2) (task (live s))
          | Thrown message =>
              if isAuthFailure message then withFailure message (task (live s))
              else withProcessed (task (live s))
          end).
Proof.
  split.
  - intros Ht Hall. destruct a as [| | | |i d|i o now1 now2].
    + unfold act. destruct (canPress Generate (live s)); [|left; reflexivity].
      unfold generate. destruct (canStart (live s)) eqn:Hc; [|left; reflexivity].
      right. unfold startDatasetMode. cbn [idle app]. rewrite Hc. reflexivity.
    + unfold act, canPress, isGenerating.
      destruct (status (task (live s))); try discriminate Ht;
        rewrite andb_false_r; reflexivity.
    + unfold act. destruct (canPress ClearBin (live s)); [right|left]; reflexivity.
    + unfold act. destruct (canPress Reset (live s)); [right|left]; reflexivity.
    + apply returned_turns; [exact Hall | exact I].
    + apply returned_turns; [exact Hall | exact I].
  - intros i t pose prompt rest o now1 now2 -> Hi Hl.
    apply (settled_task s i t pose prompt rest o now1 now2 Hi Hl).
Qed.

End LoopFacts.

(** ** Two loops on the sample page *)

(** C1, counterexample.  Two poses are selected.  Stop is pressed
    with the first call in flight and Generate again: the task is
    made anew with [total = 2], the flag is down again, and both loops
    go through both poses.  Every button was there when pressed; the
    task ends with [current = 4] and four images. *)
Lemma second_start_passes_total :
  let s := perform Sample.catalog Sample.clothing Sample.expressions
             Overlap.page Overlap.bothSucceed in
  (enabled Sample.catalog Sample.clothing Sample.expressions
     Overlap.page Overlap.bothSucceed = true
   /\ status (task (live s)) = completed
   /\ total (task (live s)) = 2
   /\ current (task (live s)) = 4
   /\ length (images (task (live s))) = 4)
  /\ ~ CurrentWithinTotal Sample.catalog Sample.clothing Sample.expressions.
Proof.
  split; [vm_compute; repeat split; reflexivity|].
  intros H.
  specialize (H (Sample.appWith Sample2.two) Overlap.bothSucceed eq_refl).
  vm_compute in H. lia.
Qed.

(** C2, counterexample.  With both loops alive the key is rejected
    for the call of the first one: the task is [failed] and that loop
    returns.  The second loop goes on: it makes its call for the
    second pose after the failure, and at its end makes the task
    [completed], with the error still there. *)
Lemma second_loop_calls_after_failure :
  let s := perform Sample.catalog Sample.clothing Sample.expressions
             Overlap.page Overlap.twoLoops in
  let s1 := act Sample.catalog Sample.clothing Sample.expressions s
              (Settles 0 Sample.keyRejected 20 21) in
  let s2 := perform Sample.catalog Sample.clothing Sample.expressions s1
              Overlap.secondGoesOn in
  (enabled Sample.catalog Sample.clothing Sample.expressions Overlap.page
     (Overlap.twoLoops ++ Settles 0 Sample.keyRejected 20 21 :: Overlap.secondGoesOn)
   = true
   /\ status (task (live s1)) = failed
   /\ (length <$> (th_issued <$> threads s1)) = [1; 1]
   /\ (length <$> (th_issued <$> threads s2)) = [1; 2]
   /\ status (task (live s2)) = completed
   /\ error (task (live s2)) = Some "API_KEY_EXPIRED")
  /\ ~ NoCallAfterFatal Sample.catalog Sample.clothing Sample.expressions.
Proof.
  split; [vm_compute; repeat split; reflexivity|].
  intros H.
  specialize (H (Sample.appWith Sample2.two) Overlap.twoLoops Overlap.secondGoesOn 0
                {| closure := Sample.cfg;
                   th_loop := Awaiting Sample.front (Sample2.prompt Sample.front)
                                [Sample.rearLeft];
                   th_poses := [Sample.front; Sample.rearLeft];
                   th_issued := [(Sample.front, Sample2.prompt Sample.front)];
                   th_settled := [] |}
                Sample.front (Sample2.prompt Sample.front) [Sample.rearLeft]
                Sample.keyRejected 20%N 21%N "API_KEY_EXPIRED" eq_refl).
  cbv zeta in H.
  assert (H1 : threads (perform Sample.catalog Sample.clothing Sample.expressions
                          (opened (Sample.appWith Sample2.two)) Overlap.twoLoops) !! 0
               = Some {| closure := Sample.cfg;
                         th_loop := Awaiting Sample.front (Sample2.prompt Sample.front)
                                      [Sample.rearLeft];
                         th_poses := [Sample.front; Sample.rearLeft];
                         th_issued := [(Sample.front, Sample2.prompt Sample.front)];
                         th_settled := [] |})
    by (vm_compute; reflexivity).
  specialize (H H1 eq_refl ltac:(vm_compute; reflexivity) ltac:(vm_compute; reflexivity)).
  apply (f_equal (fmap (length (A := DatasetPose * string)))) in H.
  vm_compute in H. discriminate H.
Qed.

(** ** The theorems on several loops at the sample page *)

Lemma progress_counts_witness :
  let s := perform Sample.catalog Sample.clothing Sample.expressions
             (act Sample.catalog Sample.clothing Sample.expressions
                (opened (Sample.appWith Sample.allIds)) Generate)
             (Proceed 0 Sample.draw :: Overlap.alone) in
  exists t,
    threads s !! 0 = Some t
    /\ current (task (live s))
       = length (filter isSuccess (th_settled t))
         + length (filter isRecovered (th_settled t))
    /\ current (task (live s)) <= total (task (live s))
    /\ length (images (task (live s))) = length (filter isSuccess (th_settled t)).
Proof.
  intros s.
  apply (progress_counts Sample.catalog Sample.clothing Sample.expressions
           sample_ids_unique (opened (Sample.appWith Sample.allIds))
           (Proceed 0 Sample.draw :: Overlap.alone)).
  - constructor.
  - sample.
  - sample.
  - repeat constructor.
Defined.

Lemma auth_failure_ends_loop_witness :
  let s := perform Sample.catalog Sample.clothing Sample.expressions
             Overlap.page ([Generate; Proceed 0 Sample.draw] ++ Overlap.turn 0 Sample.image 10) in
  let s' := act Sample.catalog Sample.clothing Sample.expressions s
              (Settles 0 Sample.keyRejected 20 21) in
  status (task (live s')) = failed
  /\ error (task (live s')) = Some "API_KEY_EXPIRED"
  /\ th_poses Overlap.secondCall !! (length (th_issued Overlap.secondCall) - 1)
     = Some Sample.rearLeft
  /\ fst <$> th_issued Overlap.secondCall
     = take (length (th_issued Overlap.secondCall)) (th_poses Overlap.secondCall)
  /\ perform Sample.catalog Sample.clothing Sample.expressions s' [Generate; Stop] = s'.
Proof.
  intros s s'.
  destruct (auth_failure_ends_loop Sample.catalog Sample.clothing Sample.expressions
              (Sample.appWith Sample2.two)
              ([Generate; Proceed 0 Sample.draw] ++ Overlap.turn 0 Sample.image 10)
              0 Overlap.secondCall
              Sample.rearLeft (Sample2.prompt Sample.rearLeft) []
              Sample.keyRejected 20 21 "API_KEY_EXPIRED"
              ltac:(sample) ltac:(sample) ltac:(sample) ltac:(sample))
    as (H1 & H2 & _ & _ & H5 & H6 & _ & H8).
  split; [exact H1|]. split; [exact H2|]. split; [exact H5|]. split; [exact H6|].
  apply H8. intros j u Hj Hu. destruct j as [|j]; [congruence|].
  vm_compute in Hu. discriminate Hu.
Defined.

Lemma terminal_task_changes_witness :
  let s := perform Sample.catalog Sample.clothing Sample.expressions
             (opened (Sample.appWith {[ "p01" ]})) (Generate :: Overlap.toTheEnd) in
  status (task (live s)) = completed
  /\ act Sample.catalog Sample.clothing Sample.expressions s Stop = s
  /\ (act Sample.catalog Sample.clothing Sample.expressions s ClearBin = s
      \/ task (live (act Sample.catalog Sample.clothing Sample.expressions s ClearBin))
         = pendingTask).
Proof.
  intros s. split; [sample|]. split.
  - apply (proj1 (terminal_task_changes Sample.catalog Sample.clothing
                    Sample.expressions s Stop)); [sample|].
    repeat constructor.
  - apply (proj1 (terminal_task_changes Sample.catalog Sample.clothing
                    Sample.expressions s ClearBin)); [sample|].
    repeat constructor.
Defined.

Lemma completed_means_all_processed_witness :
  let s := perform Sample.catalog Sample.clothing Sample.expressions
             (act Sample.catalog Sample.clothing Sample.expressions
                (opened (Sample.appWith {[ "p01" ]})) Generate)
             Overlap.toTheEnd in
  exists t,
    threads s !! 0 = Some t
    /\ th_loop t = NotRunning
    /\ outcomePose <$> th_settled t = th_poses t
    /\ Forall (fun o => isProcessed o = true) (th_settled t)
    /\ current (task (live s)) = length (th_poses t).
Proof.
  intros s.
  apply (completed_means_all_processed Sample.catalog Sample.clothing
           Sample.expressions sample_ids_unique (opened (Sample.appWith {[ "p01" ]}))
           Overlap.toTheEnd).
  - constructor.
  - sample.
  - sample.
  - repeat constructor.
  - sample.
Defined.

Lemma error_iff_failed_witness :
  let s := perform Sample.catalog Sample.clothing Sample.expressions
             (act Sample.catalog Sample.clothing Sample.expressions
                (opened (Sample.appWith Sample.allIds)) Generate)
             (Proceed 0 Sample.draw :: Overlap.turn 0 Sample.image 10
              ++ [Settles 0 Sample.keyRejected 20 21]) in
  (error (task (live s)) = None <-> status (task (live s)) <> failed)
  /\ isKeyConfirmed (live s) = false
  /\ perform Sample.catalog Sample.clothing Sample.expressions s
       [Generate; ClearBin; Reset; Proceed 0 Sample.draw] = s.
Proof.
  intros s.
  destruct (error_iff_failed Sample.catalog Sample.clothing
              Sample.expressions sample_ids_unique (opened (Sample.appWith Sample.allIds))
              (Proceed 0 Sample.draw :: Overlap.turn 0 Sample.image 10
               ++ [Settles 0 Sample.keyRejected 20 21])
              ltac:(constructor) ltac:(sample) ltac:(sample)
              ltac:(repeat constructor)) as (H1 & H2).
  destruct (H2 ltac:(sample)) as (H3 & _ & H5).
  split; [exact H1|]. split; [exact H3 | apply H5].
Defined.
